(** * GraphRisk partner-fraud detector: a shallow embedding of the three
      detection algorithms (opposite trading, mirror trading, bonus abuse)
      and the properties their specification states.

    Numbers.  Python [int] values that stay integral (penalty scores, counts,
    day differences) are [Z] or [nat].  Python [float] values (volumes,
    profit and loss, deposits, ratios, correlations) are modelled by exact
    rationals [Q]: every arithmetic step is the exact operation that the
    IEEE-754 operation rounds, and [==] on [Q] stands for equality of the
    computed numbers.  [math.sqrt] is modelled by [Qsqrt] below.  Of the
    float operations that the detectors use, one raises when its result is
    too large for a double: [x ** 2], modelled by [pysquare] below; sums,
    products and quotients do not raise on overflow.

    Sets.  The order in which Python iterates a [set] of strings depends on
    the hash seed of the process; where a detector renders such a set, the
    order is an input of the run, like the clock.

    Time.  A [datetime] is an instant in microseconds together with the flag
    that says whether it carries a UTC offset; subtracting an aware from a
    naive value raises [TypeError], as in Python.  A timestamp field holds
    either a value that [parse_timestamp] can turn into a [datetime] (a
    [datetime] object, or a [str] accepted by [datetime.fromisoformat]) or a
    [str] on which [fromisoformat] raises [ValueError]. *)

From Stdlib Require Import QArith Qabs Qround Lqa Lia ZArith.
From Stdlib Require Import Sorting.Sorted Sorting.Permutation.
From stdpp Require Import base list gmap strings pretty.

Open Scope Q_scope.

(* ================================================================== *)
(** * Prelude: rationals as Python numbers *)
(* ================================================================== *)

Definition Qltb (x y : Q) : bool := negb (Qle_bool y x).
Definition Qgeb (x y : Q) : bool := Qle_bool y x.

(** [min(a, b)] and [max(a, b)]: the first argument unless the second is
    strictly better. *)
Definition pymin (a b : Q) : Q := if Qltb b a then b else a.
Definition pymax (a b : Q) : Q := if Qltb a b then b else a.

(** [len(xs)] as a number. *)
Definition Qlen {A} (l : list A) : Q := inject_Z (Z.of_nat (length l)).

(** [sum(...)] over floats: a running total that starts at 0. *)
Definition Qsum (l : list Q) : Q := fold_left Qplus l 0.

(** [math.sqrt]: the root of a rational, rounded down to [sqrt_digits]
    decimals: 18 of them, and as many more as it takes for the root of a
    positive number to be positive; exact on squares of decimals with at
    most 18 fractional digits. *)
Definition sqrt_digits (x : Q) : Z :=
  let r := Qred x in
  (18 + Z.max 0 (Z.log2 (Zpos (Qden r)) + 1 - Z.log2 (Qnum r)))%Z.

Definition Qsqrt (x : Q) : Q :=
  let k := sqrt_digits x in
  inject_Z (Z.sqrt (Qfloor (x * inject_Z (100 ^ k)))) / inject_Z (10 ^ k).

(** Python's [round(x)] on the exact value: nearest integer, ties to even. *)
Definition round_half_even (x : Q) : Z :=
  let f := Qfloor x in
  let r := x - inject_Z f in
  if Qltb r (1 # 2) then f
  else if Qltb (1 # 2) r then (f + 1)%Z
  else if Z.even f then f else (f + 1)%Z.

(** Python's [round(x, ndigits)]. *)
Definition round_ndigits (x : Q) (ndigits : nat) : Q :=
  inject_Z (round_half_even (x * inject_Z (10 ^ Z.of_nat ndigits)))
  / inject_Z (10 ^ Z.of_nat ndigits).

(* ================================================================== *)
(** * Prelude: exceptions *)
(* ================================================================== *)

Inductive exn : Type :=
  | ValueError          (* datetime.fromisoformat on a malformed string *)
  | TypeError           (* naive and aware datetimes subtracted or compared *)
  | ZeroDivisionError
  | IndexError
  | OverflowError.      (* the square of a float too large for a double *)

Inductive result (A : Type) : Type :=
  | Ok (a : A)
  | Raise (e : exn).
Arguments Ok {A} a.
Arguments Raise {A} e.

Definition rbind {A B} (m : result A) (k : A -> result B) : result B :=
  match m with
  | Ok a => k a
  | Raise e => Raise e
  end.

Notation "'try!' x ':=' m 'in' k" := (rbind m (fun x => k))
  (at level 10, x pattern, m at level 100, k at level 200).

(** [x / y] with Python's check of the divisor. *)
Definition pydiv (x y : Q) : result Q :=
  if Qeq_bool y 0 then Raise ZeroDivisionError else Ok (x / y).

(** A [for] loop with an accumulator whose body may raise. *)
Fixpoint for_each {A S} (body : S -> A -> result S) (l : list A) (s : S)
  : result S :=
  match l with
  | [] => Ok s
  | x :: l' => try! s' := body s x in for_each body l' s'
  end.

(** The squares that are too large for a double start half an ulp above
    the largest finite one, [2^1024 - 2^971]. *)
Definition float_overflow : Q := inject_Z (2 ^ 1024 - 2 ^ 970).

(** [x ** 2] on a float: [OverflowError] when the square is out of
    range. *)
Definition pysquare (x : Q) : result Q :=
  if Qle_bool float_overflow (x * x) then Raise OverflowError
  else Ok (x * x).

(** [sum(f(x) for x in xs)] where evaluating [f(x)] may raise. *)
Definition sum_of {A} (f : A -> result Q) (xs : list A) : result Q :=
  for_each (fun total x => try! y := f x in Ok (total + y)) xs 0.

(* ================================================================== *)
(** * Prelude: [list.sort(key=...)] and [defaultdict(list)] *)
(* ================================================================== *)

Section Sort.
Context {A K : Type} (key : A -> K) (leb : K -> K -> bool).

(** [x] is placed before the first element it does not exceed, so that
    elements with equal keys keep the order they had: the sort is stable,
    as Python's is (also under [reverse=True], with [leb] flipped). *)
Fixpoint insert_by (x : A) (l : list A) : list A :=
  match l with
  | [] => [x]
  | y :: l' => if leb (key x) (key y) then x :: y :: l'
               else y :: insert_by x l'
  end.

Fixpoint sort_by (l : list A) : list A :=
  match l with
  | [] => []
  | x :: l' => insert_by x (sort_by l')
  end.

(** [a] may stand before [b] in the sorted list. *)
Definition ordered (a b : A) : Prop := leb (key a) (key b) = true.
End Sort.

(** A [defaultdict] keeps its keys in insertion order: an association list.
    [dict_upd k dflt f d] is [d[k] = f(d[k])], where a missing key is first
    created with the default value, at the end. *)
Fixpoint dict_upd {V} (k : string) (dflt : V) (f : V -> V)
  (d : list (string * V)) : list (string * V) :=
  match d with
  | [] => [(k, f dflt)]
  | (k', v) :: d' =>
      if String.eqb k k' then (k', f v) :: d'
      else (k', v) :: dict_upd k dflt f d'
  end.

(** [d[k].append(v)] on a [defaultdict(list)]. *)
Definition dict_append {V} (k : string) (v : V) (d : list (string * list V))
  : list (string * list V) :=
  dict_upd k [] (fun vs => vs ++ [v]) d.

(** [d.get(k, dflt)]. *)
Fixpoint dict_get {V} (k : string) (dflt : V) (d : list (string * V)) : V :=
  match d with
  | [] => dflt
  | (k', v) :: d' => if String.eqb k k' then v else dict_get k dflt d'
  end.

(* ================================================================== *)
(** * Data model *)
(* ================================================================== *)

Record datetime : Type := {
  instant : Z;          (* microseconds; UTC-normalised when [aware] *)
  aware : bool
}.

Inductive timestamp : Type :=
  | Parsed (d : datetime)       (* a datetime, or a str that parses to [d] *)
  | Unparseable (s : string).   (* a str that fromisoformat rejects *)

(** [a - b] on datetimes, in microseconds. *)
Definition dt_sub (a b : datetime) : result Z :=
  if Bool.eqb (aware a) (aware b) then Ok (instant a - instant b)%Z
  else Raise TypeError.

(** [timedelta.total_seconds()]. *)
Definition total_seconds (micros : Z) : Q := inject_Z micros / inject_Z 1000000.

(** [timedelta.days]: timedeltas are normalised with a floored day count. *)
Definition days (micros : Z) : Z := (micros / 86400000000)%Z.

Record Trade : Type := {
  trade_id : string;
  t_client_id : string;
  t_timestamp : timestamp;
  instrument : string;
  direction : string;
  volume : Q;
  price : Q;
  profit_loss : Q       (* read with [.get("profit_loss", 0)] everywhere *)
}.

Record Client : Type := {
  client_id : string;
  name : option string;             (* [.get("name", ...)] *)
  referred_by : string;
  signup_date : option timestamp;   (* [.get("signup_date")] *)
  initial_deposit : Q;              (* [.get("initial_deposit", 0)] *)
  current_balance : Q;              (* [.get("current_balance", 0)] *)
  is_active : option bool;          (* [.get("is_active", default)] *)
  withdrawal_date : option timestamp;
  trades : list Trade               (* [.get("trades", [])] everywhere *)
}.

Record Partner : Type := {
  partner_id : string;
  p_name : option string;
  p_type : option string
}.

(** [.get(key, default)] on an optional field. *)
Definition get {A} (field : option A) (default : A) : A :=
  match field with Some a => a | None => default end.

(** Truth value of an optional timestamp field: [None] and [""] are falsy. *)
Definition truthy (field : option timestamp) : bool :=
  match field with
  | None => false
  | Some (Parsed _) => true
  | Some (Unparseable s) => negb (String.eqb s "")
  end.

(** The grouping loop shared by the detectors:
    [for client in clients:
         partner_clients[client["referred_by"]].append(client)]. *)
Definition group_by_partner (clients : list Client)
  : list (string * list Client) :=
  fold_left (fun d c => dict_append (referred_by c) c d) clients [].

(* ================================================================== *)
(** * algorithms/opposite_trading.py *)
(* ================================================================== *)

Module OppositeTrading.

Definition parse_timestamp (ts : timestamp) : result datetime :=
  match ts with
  | Parsed d => Ok d
  | Unparseable _ => Raise ValueError
  end.

(** [abs((a - b).total_seconds())]. *)
Definition abs_seconds (a b : datetime) : result Q :=
  try! d := dt_sub a b in Ok (Qabs (total_seconds d)).

(** One step of the inner loop of [calculate_timing_correlation]; the
    state is [(correlations, total_comparisons)]. *)
Definition timing_step (time_window_minutes : Z) (t1_time : datetime)
  (t1 : Trade) (acc : Q * nat) (t2 : Trade) : result (Q * nat) :=
  let '(correlations, total_comparisons) := acc in
  try! t2_time := parse_timestamp (t_timestamp t2) in
  if String.eqb (instrument t1) (instrument t2) then
    let total_comparisons := S total_comparisons in
    try! secs := abs_seconds t1_time t2_time in
    let time_diff := secs / 60 in
    if Qle_bool time_diff (inject_Z time_window_minutes) then
      try! q := pydiv time_diff (inject_Z time_window_minutes) in
      Ok (correlations + (1 - q), total_comparisons)
    else Ok (correlations, total_comparisons)
  else Ok (correlations, total_comparisons).

Definition calculate_timing_correlation (trades1 trades2 : list Trade)
  (time_window_minutes : Z) : result Q :=
  match trades1, trades2 with
  | [], _ | _, [] => Ok 0
  | _, _ =>
    try! acc :=
      for_each (fun acc t1 =>
                  try! t1_time := parse_timestamp (t_timestamp t1) in
                  for_each (timing_step time_window_minutes t1_time t1)
                           trades2 acc)
               trades1 (0, 0%nat) in
    let '(correlations, total_comparisons) := acc in
    match total_comparisons with
    | O => Ok 0
    | _ => Ok (pymin 1 (correlations
                        / inject_Z (Z.of_nat total_comparisons)))
    end
  end.

Record OppositePair : Type := {
  op_trade1 : Trade;
  op_trade2 : Trade;
  op_instrument : string;
  time_diff_seconds : Q;
  volume_similarity : Q
}.

(** One step of the inner loop of [detect_opposite_directions]. *)
Definition opposite_step (time_window_minutes : Z) (t1_time : datetime)
  (t1 : Trade) (opposite_pairs : list OppositePair) (t2 : Trade)
  : result (list OppositePair) :=
  try! t2_time := parse_timestamp (t_timestamp t2) in
  if String.eqb (instrument t1) (instrument t2)
     && negb (String.eqb (direction t1) (direction t2)) then
    try! secs := abs_seconds t1_time t2_time in
    if Qle_bool (secs / 60) (inject_Z time_window_minutes) then
      try! vs := pydiv (pymin (volume t1) (volume t2))
                       (pymax (volume t1) (volume t2)) in
      Ok (opposite_pairs ++
          [{| op_trade1 := t1; op_trade2 := t2;
              op_instrument := instrument t1;
              time_diff_seconds := secs;
              volume_similarity := vs |}])
    else Ok opposite_pairs
  else Ok opposite_pairs.

Definition detect_opposite_directions (trades1 trades2 : list Trade)
  (time_window_minutes : Z) : result (list OppositePair) :=
  for_each (fun pairs t1 =>
              try! t1_time := parse_timestamp (t_timestamp t1) in
              for_each (opposite_step time_window_minutes t1_time t1)
                       trades2 pairs)
           trades1 [].

Definition calculate_pnl_correlation (trades1 trades2 : list Trade)
  : result Q :=
  if (length trades1 <? 2)%nat || (length trades2 <? 2)%nat then Ok 0
  else
    let pnl1 := map profit_loss trades1 in
    let pnl2 := map profit_loss trades2 in
    let min_len := Nat.min (length pnl1) (length pnl2) in
    let pnl1 := take min_len pnl1 in
    let pnl2 := take min_len pnl2 in
    try! mean1 := pydiv (Qsum pnl1) (Qlen pnl1) in
    try! mean2 := pydiv (Qsum pnl2) (Qlen pnl2) in
    let numerator :=
      Qsum (map (fun '(a, b) => (a - mean1) * (b - mean2))
                (combine pnl1 pnl2)) in
    try! var1 := sum_of (fun a => pysquare (a - mean1)) pnl1 in
    try! var2 := sum_of (fun b => pysquare (b - mean2)) pnl2 in
    let denominator := Qsqrt (var1 * var2) in
    if Qeq_bool denominator 0 then Ok 0
    else Ok (numerator / denominator).

(** The evidence sentence, by its ingredients; the text is rendered from
    them. *)
Inductive timing_qualifier : Type :=
  | HighlyCorrelated (timing_corr : Q)
  | ModerateCorrelation (timing_corr : Q)
  | NoTimingQualifier.

Record Evidence : Type := {
  ev_num_pairs : nat;
  ev_name_a : string;
  ev_name_b : string;
  ev_timing : timing_qualifier;
  ev_inverse_pnl : option Q;
  ev_instruments : list string        (* in the order they are joined *)
}.

(** [', '.join(instruments)] iterates [set(p["instrument"] for p in
    opposite_pairs)].  The order in which a set of strings is iterated is
    fixed within one run of the interpreter and changes from run to run
    with the hash seed: [set_order l] is the order in which this run
    iterates the set made by adding the elements of [l] one after the
    other. *)
Section HashSeed.
Variable set_order : list string -> list string.

Definition generate_evidence_summary (client1 client2 : Client)
  (opposite_pairs : list OppositePair) (timing_corr pnl_corr : Q)
  : Evidence :=
  {| ev_num_pairs := length opposite_pairs;
     ev_name_a := get (name client1) (client_id client1);
     ev_name_b := get (name client2) (client_id client2);
     ev_timing :=
       if Qltb (7 # 10) timing_corr then HighlyCorrelated timing_corr
       else if Qltb (4 # 10) timing_corr then ModerateCorrelation timing_corr
       else NoTimingQualifier;
     ev_inverse_pnl :=
       if Qltb pnl_corr (- (1 # 2)) then Some pnl_corr else None;
     ev_instruments :=
       match opposite_pairs with
       | [] => []                               (* no sentence *)
       | _ => set_order (map op_instrument opposite_pairs)
       end |}.

Record Finding : Type := {
  scheme_type : string;
  partner_a : string;
  partner_b : string;
  client_a : string;
  client_b : string;
  client_a_name : string;
  client_b_name : string;
  confidence_score : Q;
  timing_correlation : Q;
  opposite_trade_ratio : Q;
  pnl_correlation : Q;
  num_opposite_pairs : nat;
  total_trades_analyzed : nat;
  estimated_fraud_value : Q;
  evidence_summary : Evidence;
  top_opposite_pairs : list OppositePair
}.

(** [0.3*timing_corr + 0.4*opposite_ratio + 0.3*max(0, -pnl_corr)]. *)
Definition suspicion (timing_corr opposite_ratio pnl_corr : Q) : Q :=
  timing_corr * (3 # 10) + opposite_ratio * (4 # 10)
  + pymax 0 (- pnl_corr) * (3 # 10).

(** The body of the innermost loop of [detect_opposite_trading], for one
    pair of clients. *)
Definition compare_clients (threshold : Q) (partner1 partner2 : string)
  (client1 : Client) (detected_schemes : list Finding) (client2 : Client)
  : result (list Finding) :=
  let trades1 := trades client1 in
  let trades2 := trades client2 in
  match trades2 with
  | [] => Ok detected_schemes                      (* continue *)
  | _ =>
    try! timing_corr := calculate_timing_correlation trades1 trades2 10 in
    try! opposite_pairs := detect_opposite_directions trades1 trades2 10 in
    try! pnl_corr := calculate_pnl_correlation trades1 trades2 in
    let m := Nat.min (length trades1) (length trades2) in
    let opposite_ratio :=
      if (0 <? m)%nat
      then Qlen opposite_pairs / inject_Z (Z.of_nat m) else 0 in
    let suspicion_score := suspicion timing_corr opposite_ratio pnl_corr in
    if Qgeb suspicion_score threshold then
      let avg_profit := Qabs (Qsum (map profit_loss trades1))
                        + Qabs (Qsum (map profit_loss trades2)) in
      Ok (detected_schemes ++
          [{| scheme_type := "opposite_trading";
              partner_a := partner1;
              partner_b := partner2;
              client_a := client_id client1;
              client_b := client_id client2;
              client_a_name := get (name client1) "Unknown";
              client_b_name := get (name client2) "Unknown";
              confidence_score := round_ndigits suspicion_score 3;
              timing_correlation := round_ndigits timing_corr 3;
              opposite_trade_ratio := round_ndigits opposite_ratio 3;
              pnl_correlation := round_ndigits pnl_corr 3;
              num_opposite_pairs := length opposite_pairs;
              total_trades_analyzed := (length trades1 + length trades2)%nat;
              estimated_fraud_value := round_ndigits (avg_profit * (1 # 2)) 2;
              evidence_summary :=
                generate_evidence_summary client1 client2 opposite_pairs
                                          timing_corr pnl_corr;
              top_opposite_pairs := take 5 opposite_pairs |}])
    else Ok detected_schemes
  end.

(** [for client1 in clients1: ... for client2 in clients2: ...]. *)
Definition compare_groups (threshold : Q) (partner1 : string)
  (clients1 : list Client) (detected_schemes : list Finding)
  (group2 : string * list Client) : result (list Finding) :=
  let '(partner2, clients2) := group2 in
  for_each (fun acc client1 =>
              match trades client1 with
              | [] => Ok acc                       (* continue *)
              | _ => for_each (compare_clients threshold partner1 partner2
                                               client1)
                              clients2 acc
              end)
           clients1 detected_schemes.

(** [for i, partner1 in enumerate(partners): for partner2 in partners[i+1:]]. *)
Fixpoint scan_partners (threshold : Q) (groups : list (string * list Client))
  (detected_schemes : list Finding) : result (list Finding) :=
  match groups with
  | [] => Ok detected_schemes
  | (partner1, clients1) :: later =>
      try! acc := for_each (compare_groups threshold partner1 clients1)
                           later detected_schemes in
      scan_partners threshold later acc
  end.

Definition detect_opposite_trading (clients : list Client) (threshold : Q)
  : result (list Finding) :=
  let partner_clients := group_by_partner clients in
  try! detected_schemes := scan_partners threshold partner_clients [] in
  Ok (sort_by confidence_score Qgeb detected_schemes).

End HashSeed.

Definition default_threshold : Q := 6 # 10.

Record Involvement : Type := {
  schemes : nat;
  total_value : Q;
  inv_clients : gset string
}.

Definition no_involvement : Involvement :=
  {| schemes := 0; total_value := 0; inv_clients := ∅ |}.

Definition involve (value : Q) (client : string) (i : Involvement)
  : Involvement :=
  {| schemes := S (schemes i);
     total_value := total_value i + value;
     inv_clients := inv_clients i ∪ {[ client ]} |}.

Record NetworkReport : Type := {
  total_schemes_detected : nat;
  total_estimated_fraud_value : Q;
  partner_involvement : list (string * (nat * Q * nat));
  report_schemes : list Finding
}.

Definition analyze_partner_network (set_order : list string -> list string)
  (partners : list Partner) (clients : list Client) : result NetworkReport :=
  try! found := detect_opposite_trading set_order clients default_threshold in
  let involvement :=
    fold_left (fun d scheme =>
                 let d := dict_upd (partner_a scheme) no_involvement
                            (involve (estimated_fraud_value scheme)
                                     (client_a scheme)) d in
                 dict_upd (partner_b scheme) no_involvement
                   (involve (estimated_fraud_value scheme)
                            (client_b scheme)) d)
              found [] in
  Ok {| total_schemes_detected := length found;
        total_estimated_fraud_value :=
          Qsum (map estimated_fraud_value found);
        partner_involvement :=
          map (fun '(p, i) =>
                 (p, (schemes i, total_value i, size (inv_clients i))))
              involvement;
        report_schemes := found |}.

End OppositeTrading.

(* ================================================================== *)
(** * algorithms/mirror_trading.py *)
(* ================================================================== *)

Module MirrorTrading.

Definition parse_timestamp (ts : timestamp) : result datetime :=
  match ts with
  | Parsed d => Ok d
  | Unparseable _ => Raise ValueError
  end.

Definition calculate_trade_similarity (trade1 trade2 : Trade)
  (time_window_minutes : Z) : result Q :=
  let score := 0 in
  let max_score := 4 in
  let score := if String.eqb (instrument trade1) (instrument trade2)
               then score + 1 else score in
  let score := if String.eqb (direction trade1) (direction trade2)
               then score + 1 else score in
  try! vol_ratio := pydiv (pymin (volume trade1) (volume trade2))
                          (pymax (volume trade1) (volume trade2)) in
  let score := if Qgeb vol_ratio (8 # 10) then score + 1
               else if Qgeb vol_ratio (5 # 10) then score + (1 # 2)
               else score in
  try! t1 := parse_timestamp (t_timestamp trade1) in
  try! t2 := parse_timestamp (t_timestamp trade2) in
  try! delta := dt_sub t1 t2 in
  let time_diff_minutes := Qabs (total_seconds delta) / 60 in
  if Qle_bool time_diff_minutes (inject_Z time_window_minutes) then
    try! q := pydiv time_diff_minutes (inject_Z time_window_minutes) in
    Ok ((score + (1 - q)) / max_score)
  else Ok (score / max_score).

Record Match : Type := {
  m_trade1 : Trade;
  m_trade2 : Trade;
  similarity : Q;
  m_instrument : string;
  m_direction : string
}.

(** The variables of the inner loop of [find_matching_trades]. *)
Record Best : Type := {
  best_match : option Trade;
  best_similarity : Q;
  best_idx : Z
}.

(** [for idx, t2 in enumerate(trades2)], from position [idx] on. *)
Fixpoint scan_candidates (time_window_minutes : Z) (used_indices : gset nat)
  (t1 : Trade) (idx : nat) (trades2 : list Trade) (best : Best)
  : result Best :=
  match trades2 with
  | [] => Ok best
  | t2 :: rest =>
      if bool_decide (idx ∈ used_indices) then
        scan_candidates time_window_minutes used_indices t1 (S idx) rest best
      else
        try! sim := calculate_trade_similarity t1 t2 time_window_minutes in
        scan_candidates time_window_minutes used_indices t1 (S idx) rest
          (if Qltb (best_similarity best) sim
           then {| best_match := Some t2; best_similarity := sim;
                   best_idx := Z.of_nat idx |}
           else best)
  end.

(** The body of the outer loop; the state is [(matches, used_indices)]. *)
Definition match_step (time_window_minutes : Z) (min_similarity : Q)
  (trades2 : list Trade) (state : list Match * gset nat) (t1 : Trade)
  : result (list Match * gset nat) :=
  let '(matches, used_indices) := state in
  try! best := scan_candidates time_window_minutes used_indices t1 0 trades2
                 {| best_match := None; best_similarity := min_similarity;
                    best_idx := -1 |} in
  match best_match best with
  | Some t2 =>
      if (0 <=? best_idx best)%Z then
        Ok (matches ++
            [{| m_trade1 := t1; m_trade2 := t2;
                similarity := best_similarity best;
                m_instrument := instrument t1;
                m_direction := direction t1 |}],
            used_indices ∪ {[ Z.to_nat (best_idx best) ]})
      else Ok state
  | None => Ok state
  end.

Definition matching_loop (trades1 trades2 : list Trade)
  (time_window_minutes : Z) (min_similarity : Q)
  : result (list Match * gset nat) :=
  for_each (match_step time_window_minutes min_similarity trades2)
           trades1 ([], ∅).

Definition find_matching_trades (trades1 trades2 : list Trade)
  (time_window_minutes : Z) (min_similarity : Q) : result (list Match) :=
  try! state := matching_loop trades1 trades2 time_window_minutes
                              min_similarity in
  Ok (fst state).

Definition default_window : Z := 5.
Definition default_min_similarity : Q := 7 # 10.

(** ** The similarity matrix *)

Abbreviation matrix := (list (list Q)).

(** [m[i][j]]; both indices come from [range(n)] on an n by n matrix. *)
Definition cell (m : matrix) (i j : nat) : Q :=
  match m !! i with
  | Some row => match row !! j with Some x => x | None => 0 end
  | None => 0
  end.

(** [m[i][j] = x]. *)
Definition set_cell (m : matrix) (i j : nat) (x : Q) : matrix :=
  match m !! i with
  | Some row => <[ i := <[ j := x ]> row ]> m
  | None => m
  end.

(** [partner_client_list[i].get("trades", [])]. *)
Definition trades_at (partner_client_list : list Client) (i : nat)
  : result (list Trade) :=
  match partner_client_list !! i with
  | Some c => Ok (trades c)
  | None => Raise IndexError
  end.

(** [len(matches) / min(len(trades1), len(trades2))], guarded. *)
Definition match_ratio_of (matches : list Match) (trades1 trades2 : list Trade)
  : Q :=
  let m := Nat.min (length trades1) (length trades2) in
  if (0 <? m)%nat then Qlen matches / inject_Z (Z.of_nat m) else 0.

Definition fill_cell (partner_client_list : list Client) (i : nat)
  (similarity_matrix : matrix) (j : nat) : result matrix :=
  try! trades1 := trades_at partner_client_list i in
  try! trades2 := trades_at partner_client_list j in
  try! matches := find_matching_trades trades1 trades2 default_window
                                       default_min_similarity in
  let match_ratio := match_ratio_of matches trades1 trades2 in
  Ok (set_cell (set_cell similarity_matrix i j match_ratio) j i match_ratio).

(** [range(i + 1, n)]. *)
Definition range_from (i n : nat) : list nat := seq (S i) (n - S i).

Definition build_matrix (partner_client_list : list Client) : result matrix :=
  let n := length partner_client_list in
  for_each (fun m i =>
              for_each (fill_cell partner_client_list i) (range_from i n) m)
           (seq 0 n) (replicate n (replicate n 0)).

(** ** Greedy clustering *)

(** The inner loop [for j in range(i + 1, n)] that grows [cluster]. *)
Definition grow_step (similarity_matrix : matrix) (min_mirror_ratio : Q)
  (clustered : gset nat) (cluster : list nat) (j : nat) : list nat :=
  if bool_decide (j ∈ clustered) then cluster
  else if forallb (fun k => Qgeb (cell similarity_matrix j k) min_mirror_ratio)
                  cluster
  then cluster ++ [j]
  else cluster.

Definition grow_cluster (similarity_matrix : matrix) (min_mirror_ratio : Q)
  (clustered : gset nat) (i n : nat) : list nat :=
  fold_left (grow_step similarity_matrix min_mirror_ratio clustered)
            (range_from i n) [i].

(** [(cluster[i], cluster[j]) for i in range(k) for j in range(i + 1, k)]. *)
Fixpoint cluster_pairs (cluster : list nat) : list (nat * nat) :=
  match cluster with
  | [] => []
  | a :: rest => map (pair a) rest ++ cluster_pairs rest
  end.

(** [sum(m[cluster[i]][cluster[j]] for i in ... for j in ...)]. *)
Definition pair_sum (similarity_matrix : matrix) (cluster : list nat) : Q :=
  Qsum (map (fun p => cell similarity_matrix (fst p) (snd p))
            (cluster_pairs cluster)).

Record Evidence : Type := {
  ev_accounts : nat;
  ev_total_trades : nat;
  ev_instruments : list string;
  ev_signup_within_days : option Z
}.

(** [max(signup_dates)] and [min(signup_dates)]: comparing a naive with an
    aware datetime raises. *)
Definition extreme (better : Z -> Z -> bool) (first : datetime)
  (others : list datetime) : result datetime :=
  for_each (fun best d =>
              if Bool.eqb (aware best) (aware d)
              then Ok (if better (instant d) (instant best) then d else best)
              else Raise TypeError)
           others first.

Definition generate_mirror_evidence (clients : list Client)
  (top_instruments : list (string * nat)) : result Evidence :=
  let total_trades :=
    foldr Nat.add 0%nat (map (fun c => length (trades c)) clients) in
  let signup_dates :=
    flat_map (fun c =>
                match parse_timestamp
                        (get (signup_date c) (Unparseable "")) with
                | Ok d => [d]
                | Raise _ => []                      (* except: pass *)
                end) clients in
  try! within :=
    match signup_dates with
    | d0 :: ((_ :: _) as rest) =>
        try! hi := extreme Z.gtb d0 rest in
        try! lo := extreme Z.ltb d0 rest in
        try! delta := dt_sub hi lo in
        let date_range := days delta in
        Ok (if (date_range <=? 7)%Z then Some date_range else None)
    | _ => Ok None
    end in
  Ok {| ev_accounts := length clients;
        ev_total_trades := total_trades;
        ev_instruments := map fst top_instruments;
        ev_signup_within_days := within |}.

Record Finding : Type := {
  scheme_type : string;
  f_partner_id : string;
  group_size : nat;
  client_ids : list string;
  client_names : list string;
  confidence_score : Q;
  total_trades : nat;
  common_instruments : list string;
  estimated_fraud_value : Q;
  evidence_summary : Evidence
}.

(** [[partner_client_list[idx] for idx in cluster]]. *)
Definition members (partner_client_list : list Client) (cluster : list nat)
  : list Client :=
  flat_map (fun idx => match partner_client_list !! idx with
                       | Some c => [c]
                       | None => []
                       end) cluster.

(** [len(cluster) * (len(cluster) - 1) / 2]. *)
Definition pair_count (cluster : list nat) : Q :=
  Qlen cluster * (Qlen cluster - 1) / 2.

Definition cluster_confidence (similarity_matrix : matrix)
  (cluster : list nat) : Q :=
  round_ndigits (pair_sum similarity_matrix cluster
                 / pymax 1 (pair_count cluster)) 3.

Definition make_group (partner_id : string) (partner_client_list : list Client)
  (similarity_matrix : matrix) (cluster : list nat) : result Finding :=
  let cluster_clients := members partner_client_list cluster in
  let all_trades := flat_map trades cluster_clients in
  let instrument_counts :=
    fold_left (fun d t => dict_upd (instrument t) 0%nat S d) all_trades [] in
  let top_instruments :=
    take 3 (sort_by (fun x : string * nat => (- Z.of_nat (snd x))%Z) Z.leb
                    instrument_counts) in
  try! evidence := generate_mirror_evidence cluster_clients top_instruments in
  Ok {| scheme_type := "mirror_trading";
        f_partner_id := partner_id;
        group_size := length cluster;
        client_ids := map client_id cluster_clients;
        client_names := map (fun c => get (name c) "Unknown") cluster_clients;
        confidence_score := cluster_confidence similarity_matrix cluster;
        total_trades := length all_trades;
        common_instruments := map fst top_instruments;
        estimated_fraud_value :=
          round_ndigits
            (Qsum (map (fun t => Qabs (profit_loss t)) all_trades) * (3 # 10))
            2;
        evidence_summary := evidence |}.

(** The body of [for i in range(n)]; the state is [(groups, clustered)]. *)
Definition cluster_step (partner_id : string)
  (partner_client_list : list Client) (similarity_matrix : matrix)
  (min_group_size : nat) (min_mirror_ratio : Q)
  (state : list Finding * gset nat) (i : nat)
  : result (list Finding * gset nat) :=
  let '(groups, clustered) := state in
  if bool_decide (i ∈ clustered) then Ok state
  else
    let cluster := grow_cluster similarity_matrix min_mirror_ratio clustered
                                i (length partner_client_list) in
    if (min_group_size <=? length cluster)%nat then
      try! g := make_group partner_id partner_client_list similarity_matrix
                           cluster in
      Ok (groups ++ [g], clustered ∪ list_to_set cluster)
    else Ok state.

(** The body of
    [for partner_id, partner_client_list in partner_clients.items()]. *)
Definition partner_step (min_group_size : nat) (min_mirror_ratio : Q)
  (groups : list Finding) (entry : string * list Client)
  : result (list Finding) :=
  let '(partner_id, partner_client_list) := entry in
  if (length partner_client_list <? min_group_size)%nat then Ok groups
  else
    try! similarity_matrix := build_matrix partner_client_list in
    try! state :=
      for_each (cluster_step partner_id partner_client_list similarity_matrix
                             min_group_size min_mirror_ratio)
               (seq 0 (length partner_client_list)) (groups, ∅) in
    Ok (fst state).

Definition detect_mirror_group (clients : list Client) (min_group_size : nat)
  (min_mirror_ratio : Q) : result (list Finding) :=
  let active_clients :=
    filter (fun c => (10 <= length (trades c))%nat) clients in
  let partner_clients := group_by_partner active_clients in
  try! groups := for_each (partner_step min_group_size min_mirror_ratio)
                          partner_clients [] in
  Ok (sort_by confidence_score Qgeb groups).

Definition default_min_group_size : nat := 3.
Definition default_min_mirror_ratio : Q := 1 # 2.

Record Report : Type := {
  total_groups_detected : nat;
  total_clients_involved : nat;
  total_estimated_fraud_value : Q;
  groups : list Finding
}.

Definition detect_mirror_trading (clients : list Client) : result Report :=
  try! found := detect_mirror_group clients default_min_group_size
                                    default_min_mirror_ratio in
  Ok {| total_groups_detected := length found;
        total_clients_involved := foldr Nat.add 0%nat (map group_size found);
        total_estimated_fraud_value := Qsum (map estimated_fraud_value found);
        groups := found |}.

End MirrorTrading.

(* ================================================================== *)
(** * algorithms/bonus_abuse.py *)
(* ================================================================== *)

Module BonusAbuse.

(** This module's [parse_timestamp] falls back to [datetime.now()], so its
    functions read the clock.  A computation is a function of the number
    of readings made so far; the clock itself ([now n] is the value of the
    n-th reading, a naive datetime in microseconds) is a parameter. *)
Definition Clocked (A : Type) : Type := nat -> A * nat.

Definition ret {A} (a : A) : Clocked A := fun n => (a, n).

Definition cbind {A B} (m : Clocked A) (k : A -> Clocked B) : Clocked B :=
  fun n => let '(a, n') := m n in k a n'.

Notation "'run!' x ':=' m 'in' k" := (cbind m (fun x => k))
  (at level 10, x pattern, m at level 100, k at level 200).

Fixpoint map_clocked {A B} (f : A -> Clocked B) (l : list A)
  : Clocked (list B) :=
  match l with
  | [] => ret []
  | x :: l' => run! y := f x in
               run! ys := map_clocked f l' in
               ret (y :: ys)
  end.

Record Metrics : Type := {
  num_trades : nat;
  m_initial_deposit : Q;
  m_current_balance : Q;
  m_is_active : bool
}.

Record Quality : Type := {
  q_client_id : string;
  quality_score : Z;
  is_suspicious : bool;
  flags : list string;
  metrics : Metrics
}.

(** [score -= penalty; flags.append(flag)]. *)
Definition penalise (penalty : Z) (flag : string) (st : Z * list string)
  : Z * list string :=
  ((fst st - penalty)%Z, snd st ++ [flag]).

Definition has_flag (flag : string) (flags : list string) : bool :=
  existsb (String.eqb flag) flags.

Section WithClock.
Variable now : nat -> Z.

Definition parse_timestamp (ts : timestamp) : Clocked datetime :=
  match ts with
  | Parsed d => ret d
  | Unparseable _ =>
      fun n => ({| instant := now n; aware := false |}, S n)
  end.

(** Check 1: number of trades. *)
Definition check_trade_count (num_trades : nat) (st : Z * list string)
  : Z * list string :=
  if (num_trades =? 0)%nat then penalise 40 "no_trading_activity" st
  else if (num_trades <? 5)%nat then penalise 25 "minimal_trading" st
  else if (num_trades <? 10)%nat then penalise 10 "low_trading_volume" st
  else st.

(** Check 2: trading volume relative to deposit. *)
Definition check_volume_ratio (trades : list Trade) (deposit : Q)
  (st : Z * list string) : Z * list string :=
  match trades with
  | [] => st
  | _ =>
    if Qltb 0 deposit then
      let total_volume := Qsum (map volume trades) in
      let volume_ratio := total_volume / deposit in
      if Qltb volume_ratio (1 # 10)
      then penalise 20 "very_low_volume_ratio" st
      else if Qltb volume_ratio (5 # 10)
      then penalise 10 "low_volume_ratio" st
      else st
    else st
  end.

(** Check 3: quick withdrawal; everything raised inside the [try] is
    swallowed. *)
Definition check_withdrawal (withdrawal_date signup_date : option timestamp)
  (st : Z * list string) : Clocked (Z * list string) :=
  match withdrawal_date, signup_date with
  | Some wd, Some sd =>
      if truthy withdrawal_date && truthy signup_date then
        run! signup := parse_timestamp sd in
        run! withdrawal := parse_timestamp wd in
        match dt_sub withdrawal signup with
        | Ok delta =>
            let days_to_withdrawal := days delta in
            if (days_to_withdrawal <=? 3)%Z
            then ret (penalise 30 "immediate_withdrawal" st)
            else if (days_to_withdrawal <=? 7)%Z
            then ret (penalise 15 "quick_withdrawal" st)
            else ret st
        | Raise _ => ret st
        end
      else ret st
  | _, _ => ret st
  end.

(** Check 4: balance against deposit. *)
Definition check_balance_ratio (deposit balance : Q) (st : Z * list string)
  : Z * list string :=
  if Qltb 0 deposit then
    let balance_ratio := balance / deposit in
    if Qltb balance_ratio (2 # 10)
    then penalise 15 "most_funds_withdrawn" st
    else if Qltb balance_ratio (5 # 10)
    then penalise 5 "significant_withdrawal" st
    else st
  else st.

(** Check 5: account activity status. *)
Definition check_active (is_active : bool) (st : Z * list string)
  : Z * list string :=
  if negb is_active then penalise 10 "inactive_account" st else st.

(** Check 6: small initial deposit. *)
Definition check_deposit (deposit : Q) (st : Z * list string)
  : Z * list string :=
  if Qltb deposit 200 then penalise 10 "minimal_deposit" st else st.

Definition calculate_client_quality_score (client : Client)
  : Clocked Quality :=
  let st := (100%Z, []) in
  let trades := trades client in
  let deposit := initial_deposit client in
  let balance := current_balance client in
  let is_active := get (is_active client) true in
  let num_trades := length trades in
  let st := check_trade_count num_trades st in
  let st := check_volume_ratio trades deposit st in
  run! st := check_withdrawal (withdrawal_date client) (signup_date client)
                              st in
  let st := check_balance_ratio deposit balance st in
  let st := check_active is_active st in
  let st := check_deposit deposit st in
  let score := fst st in
  ret {| q_client_id := client_id client;
         quality_score := Z.max 0 score;
         is_suspicious := (score <? 50)%Z;
         flags := snd st;
         metrics := {| num_trades := num_trades;
                       m_initial_deposit := deposit;
                       m_current_balance := balance;
                       m_is_active := is_active |} |}.

(** The sentences of the evidence string, in the order they are joined. *)
Inductive abuse_part : Type :=
  | NoTradingActivity
  | OnlyTrades (n : nat)
  | WithdrawnWithin3Days
  | WithdrawnFirstWeek
  | PercentWithdrawn (pct : Q)
  | SmallDeposit (deposit : Q)
  | NowInactive
  | MultipleIndicators.

Definition generate_abuse_evidence (client : Client) (quality : Quality)
  : list abuse_part :=
  let flags := flags quality in
  let parts :=
    (if has_flag "no_trading_activity" flags then [NoTradingActivity]
     else if has_flag "minimal_trading" flags
     then [OnlyTrades (num_trades (metrics quality))] else [])
    ++ (if has_flag "immediate_withdrawal" flags then [WithdrawnWithin3Days]
        else if has_flag "quick_withdrawal" flags
        then [WithdrawnFirstWeek] else [])
    ++ (if has_flag "most_funds_withdrawn" flags
        then [PercentWithdrawn
                ((1 - m_current_balance (metrics quality)
                      / pymax 1 (m_initial_deposit (metrics quality)))
                 * 100)]
        else [])
    ++ (if has_flag "minimal_deposit" flags
        then [SmallDeposit (m_initial_deposit (metrics quality))] else [])
    ++ (if has_flag "inactive_account" flags then [NowInactive] else []) in
  match parts with
  | [] => [MultipleIndicators]
  | _ => parts
  end.

Record SuspiciousClient : Type := {
  sc_client_id : string;
  sc_client_name : string;
  sc_partner_id : string;
  sc_quality_score : Z;
  sc_flags : list string;
  sc_metrics : Metrics;
  sc_evidence_summary : list abuse_part
}.

(** The body of the loop of [detect_bonus_abuse_pattern]: the entry that
    a client contributes, if any. *)
Definition assess_client (client : Client)
  : Clocked (list SuspiciousClient) :=
  run! quality := calculate_client_quality_score client in
  if is_suspicious quality then
    ret [{| sc_client_id := client_id client;
            sc_client_name := get (name client) "Unknown";
            sc_partner_id := referred_by client;
            sc_quality_score := quality_score quality;
            sc_flags := flags quality;
            sc_metrics := metrics quality;
            sc_evidence_summary :=
              generate_abuse_evidence client quality |}]
  else ret [].

Definition detect_bonus_abuse_pattern (clients : list Client)
  (threshold_score : Z) : Clocked (list SuspiciousClient) :=
  run! entries := map_clocked assess_client clients in
  ret (sort_by sc_quality_score Z.leb (concat entries)).

Record PartnerEvidence : Type := {
  pe_total : nat;
  pe_suspicious_count : nat;
  pe_conversion_rate : Q;
  pe_inactive : option nat;
  pe_low_avg_deposit : option Q
}.

(** [sum(1 for x in xs if pred(x))]. *)
Definition count_if {A} (pred : A -> bool) (xs : list A) : nat :=
  length (List.filter pred xs).

Definition generate_partner_evidence (partner : Partner)
  (clients : list Client) (suspicious_count : nat) (conversion_rate : Q)
  : PartnerEvidence :=
  let total := length clients in
  let inactive_count :=
    count_if (fun c => negb (get (is_active c) true)) clients in
  let deposits := map initial_deposit clients in
  let avg_deposit :=
    match deposits with
    | [] => 0
    | _ => Qsum deposits / Qlen deposits
    end in
  {| pe_total := total;
     pe_suspicious_count := suspicious_count;
     pe_conversion_rate := conversion_rate;
     pe_inactive :=
       if Qltb (5 # 10) (inject_Z (Z.of_nat inactive_count) / Qlen clients)
       then Some inactive_count else None;
     pe_low_avg_deposit :=
       if Qltb avg_deposit 300 then Some avg_deposit else None |}.

Record PartnerFinding : Type := {
  pf_partner_id : string;
  pf_partner_name : string;
  pf_partner_type : string;
  total_referrals : nat;
  suspicious_referrals : nat;
  suspicious_ratio : Q;
  avg_client_quality : Q;
  conversion_rate : Q;
  estimated_fraud_value : Q;
  pf_evidence_summary : PartnerEvidence
}.

(** The body of [for partner in partners]: the entry that a partner
    contributes, if any. *)
Definition assess_partner (partner_clients : list (string * list Client))
  (partner : Partner) : Clocked (list PartnerFinding) :=
  let referred_clients := dict_get (partner_id partner) [] partner_clients in
  match referred_clients with
  | [] => ret []                                   (* continue *)
  | _ =>
    run! quality_scores :=
      map_clocked calculate_client_quality_score referred_clients in
    let suspicious_count := count_if is_suspicious quality_scores in
    let avg_quality :=
      inject_Z (fold_left Z.add (map quality_score quality_scores) 0%Z)
      / Qlen quality_scores in
    let active_count :=
      count_if (fun c => get (is_active c) false) referred_clients in
    let conversion_rate :=
      inject_Z (Z.of_nat active_count) / Qlen referred_clients in
    let ratio :=
      inject_Z (Z.of_nat suspicious_count) / Qlen referred_clients in
    if Qltb (3 # 10) ratio || Qltb avg_quality 50
       || Qltb conversion_rate (25 # 100) then
      run! again :=
        map_clocked calculate_client_quality_score referred_clients in
      let suspicious_deposits :=
        map (fun cq => initial_deposit (fst cq))
            (List.filter (fun cq => is_suspicious (snd cq))
                         (combine referred_clients again)) in
      ret [{| pf_partner_id := partner_id partner;
              pf_partner_name := get (p_name partner) "Unknown";
              pf_partner_type := get (p_type partner) "unknown";
              total_referrals := length referred_clients;
              suspicious_referrals := suspicious_count;
              suspicious_ratio := round_ndigits ratio 3;
              avg_client_quality := round_ndigits avg_quality 1;
              conversion_rate := round_ndigits conversion_rate 3;
              estimated_fraud_value :=
                round_ndigits (Qsum suspicious_deposits * (15 # 100)) 2;
              pf_evidence_summary :=
                generate_partner_evidence partner referred_clients
                                          suspicious_count
                                          conversion_rate |}]
    else ret []
  end.

Definition analyze_partner_referral_quality (partners : list Partner)
  (clients : list Client) : Clocked (list PartnerFinding) :=
  let partner_clients := group_by_partner clients in
  run! entries := map_clocked (assess_partner partner_clients) partners in
  ret (sort_by suspicious_ratio Qgeb (concat entries)).

Record Report : Type := {
  total_suspicious_clients : nat;
  total_suspicious_partners : nat;
  total_estimated_fraud_value : Q;
  suspicious_clients : list SuspiciousClient;
  suspicious_partners : list PartnerFinding
}.

Definition detect_bonus_abuse (clients : list Client)
  (partners : list Partner) : Clocked Report :=
  run! found := detect_bonus_abuse_pattern clients 50 in
  run! partner_analysis :=
    analyze_partner_referral_quality partners clients in
  ret {| total_suspicious_clients := length found;
         total_suspicious_partners := length partner_analysis;
         total_estimated_fraud_value :=
           Qsum (map estimated_fraud_value partner_analysis);
         suspicious_clients := take 50 found;
         suspicious_partners := partner_analysis |}.

End WithClock.

(** A run starts with no reading of the clock made. *)
Definition run {A} (m : Clocked A) : A := fst (m 0%nat).

End BonusAbuse.

(* ================================================================== *)
(** * The penalty table of the specification *)
(* ================================================================== *)

(** The quality score as the specification words it: one penalty per metric,
    the first matching band of each metric only, summed and subtracted from
    100, then clamped at 0. *)
Module PenaltyTable.
Import BonusAbuse.

Definition trade_count_penalty (c : Client) : Z :=
  match length (trades c) with
  | O => 40
  | S n => if (n <? 4)%nat then 25 else if (n <? 9)%nat then 10 else 0
  end.

Definition volume_ratio_penalty (c : Client) : Z :=
  match trades c with
  | [] => 0
  | _ :: _ =>
    if Qltb 0 (initial_deposit c) then
      let volume_ratio := Qsum (map volume (trades c)) / initial_deposit c in
      if Qltb volume_ratio (1 # 10) then 20
      else if Qltb volume_ratio (5 # 10) then 10 else 0
    else 0
  end.

(** The whole days from signup to withdrawal, for a record that has both
    dates.  A date that cannot be parsed takes the record out of this
    time-sensitive check, as the specification's error handling says; the
    table knows no clock. *)
Definition days_to_withdrawal (c : Client) : option Z :=
  match withdrawal_date c, signup_date c with
  | Some (Parsed wd), Some (Parsed sd) =>
      Some (days (instant wd - instant sd))
  | _, _ => None
  end.

Definition withdrawal_penalty (days_to_withdrawal : option Z) : Z :=
  match days_to_withdrawal with
  | Some d => if (d <=? 3)%Z then 30 else if (d <=? 7)%Z then 15 else 0
  | None => 0
  end.

Definition balance_ratio_penalty (c : Client) : Z :=
  if Qltb 0 (initial_deposit c) then
    let balance_ratio := current_balance c / initial_deposit c in
    if Qltb balance_ratio (2 # 10) then 15
    else if Qltb balance_ratio (5 # 10) then 5 else 0
  else 0.

Definition inactive_penalty (c : Client) : Z :=
  match is_active c with
  | Some false => 10
  | _ => 0
  end.

Definition deposit_penalty (c : Client) : Z :=
  if Qltb (initial_deposit c) 200 then 10 else 0.

Definition total_penalty (c : Client) : Z :=
  (trade_count_penalty c + volume_ratio_penalty c
   + withdrawal_penalty (days_to_withdrawal c)
   + balance_ratio_penalty c + inactive_penalty c + deposit_penalty c)%Z.

Definition table_score (c : Client) : Z := Z.max 0 (100 - total_penalty c).

End PenaltyTable.

(** What the code subtracts: the penalties of the table, with the day count
    that [calculate_client_quality_score] itself arrives at. *)
Module ScoreTrace.
Import BonusAbuse PenaltyTable.

(** The value of [days_to_withdrawal] in check 3, when the check gets that
    far: both dates are truthy and the two parsed values can be subtracted.
    [n] readings of the clock have been made before. *)
Definition days_read (now : nat -> Z) (c : Client) (n : nat) : option Z :=
  match withdrawal_date c, signup_date c with
  | Some wd, Some sd =>
      if truthy (Some wd) && truthy (Some sd) then
        let '(signup, n1) := parse_timestamp now sd n in
        let '(withdrawal, _) := parse_timestamp now wd n1 in
        match dt_sub withdrawal signup with
        | Ok delta => Some (days delta)
        | Raise _ => None
        end
      else None
  | _, _ => None
  end.

Definition penalties (now : nat -> Z) (c : Client) (n : nat) : Z :=
  (trade_count_penalty c + volume_ratio_penalty c
   + withdrawal_penalty (days_read now c n)
   + balance_ratio_penalty c + inactive_penalty c + deposit_penalty c)%Z.

End ScoreTrace.

(* ================================================================== *)
(** * Mirror trading: invariants of the loops *)
(* ================================================================== *)

Module MirrorInvariants.
Import MirrorTrading.

(** What the inner loop knows of its candidate. *)
Definition candidate_ok (trades2 : list Trade) (used_indices : gset nat)
  (best : Best) : Prop :=
  match best_match best with
  | Some t2 =>
      (0 <= best_idx best)%Z
      /\ (Z.to_nat (best_idx best) ∉ used_indices)
      /\ trades2 !! Z.to_nat (best_idx best) = Some t2
  | None => True
  end.

(** The positions in [trades2] of the trades matched so far, in the order
    of the matches. *)
Definition matched_at (trades2 : list Trade) (idxs : list nat)
  (matches : list Match) : Prop :=
  Forall2 (fun i m => trades2 !! i = Some (m_trade2 m)) idxs matches.

Definition matching_inv (trades2 : list Trade) (k : nat)
  (state : list Match * gset nat) : Prop :=
  (length (fst state) <= k)%nat
  /\ exists idxs : list nat,
       NoDup idxs
       /\ matched_at trades2 idxs (fst state)
       /\ forall i, i ∈ snd state <-> i ∈ idxs.

Definition square (n : nat) (m : matrix) : Prop :=
  length m = n /\ Forall (fun row => length row = n) m.

Definition symmetric (m : matrix) : Prop :=
  forall a b, cell m a b = cell m b a.

Definition unit_cells (m : matrix) : Prop :=
  forall a b, 0 <= cell m a b <= 1.

(** The three facts that the construction maintains. *)
Definition matrix_inv (n : nat) (m : matrix) : Prop :=
  square n m /\ symmetric m /\ unit_cells m.

(** A later member [j] was admitted against the earlier member [k]. *)
Definition admitted (m : matrix) (min_mirror_ratio : Q) (k j : nat) : Prop :=
  min_mirror_ratio <= cell m j k.

Definition active_groups (clients : list Client)
  : list (string * list Client) :=
  group_by_partner (filter (fun c => (10 <= length (trades c))%nat) clients).

(** [g] was made from a cluster grown over the matrix of one partner's
    clients. *)
Definition grown_from (min_mirror_ratio : Q)
  (partner_clients : list (string * list Client)) (g : Finding) : Prop :=
  exists (partner_id : string) (partner_client_list : list Client)
         (m : matrix) (clustered : gset nat) (i : nat),
    In (partner_id, partner_client_list) partner_clients
    /\ build_matrix partner_client_list = Ok m
    /\ (i < length partner_client_list)%nat
    /\ make_group partner_id partner_client_list m
         (grow_cluster m min_mirror_ratio clustered i
                       (length partner_client_list))
       = Ok g.

(** A trade the comparator accepts: positive volume, and a timestamp that
    parses, with ([z = true]) or without a UTC offset. *)
Definition well_formed (z : bool) (t : Trade) : Prop :=
  0 < volume t /\ exists d, t_timestamp t = Parsed d /\ aware d = z.

(** A client record the mirror detector processes to the end: well-formed
    trades, and a signup date that, if it parses, is of the same kind. *)
Definition tidy (z : bool) (c : Client) : Prop :=
  Forall (well_formed z) (trades c)
  /\ match signup_date c with
     | Some (Parsed d) => aware d = z
     | _ => True
     end.

End MirrorInvariants.

(* ================================================================== *)
(** * The package: its entry points, and the orders of its lists *)
(* ================================================================== *)

Module Package.

(** Ascending quality score, and descending suspicious ratio. *)
Definition by_score (a b : BonusAbuse.SuspiciousClient) : Prop :=
  (BonusAbuse.sc_quality_score a <= BonusAbuse.sc_quality_score b)%Z.

Definition by_ratio_desc (a b : BonusAbuse.PartnerFinding) : Prop :=
  BonusAbuse.suspicious_ratio b <= BonusAbuse.suspicious_ratio a.

Definition unparseable (ts : timestamp) : bool :=
  match ts with Parsed _ => false | Unparseable _ => true end.

(** The quality score of [c] parses a date that does not parse, and so
    reads the clock. *)
Definition reads_clock (c : Client) : bool :=
  match withdrawal_date c, signup_date c with
  | Some wd, Some sd =>
      truthy (Some wd) && truthy (Some sd) && (unparseable wd || unparseable sd)
  | _, _ => false
  end.

(** Where both dates of [c] parse, they are of one kind (both with or both
    without a UTC offset): the data model's comparable timestamps. *)
Definition comparable_dates (c : Client) : bool :=
  match withdrawal_date c, signup_date c with
  | Some (Parsed wd), Some (Parsed sd) => Bool.eqb (aware wd) (aware sd)
  | _, _ => true
  end.

(** [set_order] is an order of iteration: it lists each element of the set
    once. *)
Definition set_iteration (set_order : list string -> list string) : Prop :=
  forall l : list string,
    NoDup (set_order l) /\ forall x, x ∈ set_order l <-> x ∈ l.

(** What the four functions exported by [algorithms/__init__.py] return on
    one snapshot, in a run whose clock is [now] and whose sets of strings
    are iterated in [set_order]. *)
Record Reports : Type := {
  opposite_schemes : result (list OppositeTrading.Finding);
  opposite_network : result OppositeTrading.NetworkReport;
  mirror_report : result MirrorTrading.Report;
  bonus_report : BonusAbuse.Report
}.

Definition run_detectors (now : nat -> Z)
  (set_order : list string -> list string) (clients : list Client)
  (partners : list Partner) : Reports :=
  {| opposite_schemes :=
       OppositeTrading.detect_opposite_trading
         set_order clients OppositeTrading.default_threshold;
     opposite_network :=
       OppositeTrading.analyze_partner_network set_order partners clients;
     mirror_report := MirrorTrading.detect_mirror_trading clients;
     bonus_report :=
       BonusAbuse.run (BonusAbuse.detect_bonus_abuse now clients partners) |}.

(** Two findings that differ at most in the order in which the evidence
    lists the instruments. *)
Definition same_evidence (e1 e2 : OppositeTrading.Evidence) : Prop :=
  OppositeTrading.ev_num_pairs e1 = OppositeTrading.ev_num_pairs e2
  /\ OppositeTrading.ev_name_a e1 = OppositeTrading.ev_name_a e2
  /\ OppositeTrading.ev_name_b e1 = OppositeTrading.ev_name_b e2
  /\ OppositeTrading.ev_timing e1 = OppositeTrading.ev_timing e2
  /\ OppositeTrading.ev_inverse_pnl e1 = OppositeTrading.ev_inverse_pnl e2
  /\ Permutation (OppositeTrading.ev_instruments e1)
                 (OppositeTrading.ev_instruments e2).

Definition same_finding (f1 f2 : OppositeTrading.Finding) : Prop :=
  OppositeTrading.scheme_type f1 = OppositeTrading.scheme_type f2
  /\ OppositeTrading.partner_a f1 = OppositeTrading.partner_a f2
  /\ OppositeTrading.partner_b f1 = OppositeTrading.partner_b f2
  /\ OppositeTrading.client_a f1 = OppositeTrading.client_a f2
  /\ OppositeTrading.client_b f1 = OppositeTrading.client_b f2
  /\ OppositeTrading.client_a_name f1 = OppositeTrading.client_a_name f2
  /\ OppositeTrading.client_b_name f1 = OppositeTrading.client_b_name f2
  /\ OppositeTrading.confidence_score f1
     = OppositeTrading.confidence_score f2
  /\ OppositeTrading.timing_correlation f1
     = OppositeTrading.timing_correlation f2
  /\ OppositeTrading.opposite_trade_ratio f1
     = OppositeTrading.opposite_trade_ratio f2
  /\ OppositeTrading.pnl_correlation f1 = OppositeTrading.pnl_correlation f2
  /\ OppositeTrading.num_opposite_pairs f1
     = OppositeTrading.num_opposite_pairs f2
  /\ OppositeTrading.total_trades_analyzed f1
     = OppositeTrading.total_trades_analyzed f2
  /\ OppositeTrading.estimated_fraud_value f1
     = OppositeTrading.estimated_fraud_value f2
  /\ OppositeTrading.top_opposite_pairs f1
     = OppositeTrading.top_opposite_pairs f2
  /\ same_evidence (OppositeTrading.evidence_summary f1)
                   (OppositeTrading.evidence_summary f2).

(** Two outcomes of a run: the same exception, or results that [same]
    relates. *)
Definition same_outcome {A} (same : A -> A -> Prop) (r1 r2 : result A)
  : Prop :=
  match r1, r2 with
  | Ok a1, Ok a2 => same a1 a2
  | Raise e1, Raise e2 => e1 = e2
  | _, _ => False
  end.

Definition same_network (r1 r2 : OppositeTrading.NetworkReport) : Prop :=
  OppositeTrading.total_schemes_detected r1
  = OppositeTrading.total_schemes_detected r2
  /\ OppositeTrading.total_estimated_fraud_value r1
     = OppositeTrading.total_estimated_fraud_value r2
  /\ OppositeTrading.partner_involvement r1
     = OppositeTrading.partner_involvement r2
  /\ Forall2 same_finding (OppositeTrading.report_schemes r1)
                          (OppositeTrading.report_schemes r2).

(** The same reports, finding by finding and in the same order, but for
    the order of the instruments in the evidence of the opposite-trading
    findings. *)
Definition same_reports (r1 r2 : Reports) : Prop :=
  same_outcome (Forall2 same_finding) (opposite_schemes r1)
               (opposite_schemes r2)
  /\ same_outcome same_network (opposite_network r1) (opposite_network r2)
  /\ mirror_report r1 = mirror_report r2
  /\ bonus_report r1 = bonus_report r2.

End Package.

(* ================================================================== *)
(** * Sample snapshots *)
(* ================================================================== *)

(** Concrete records on which the detectors are run below. *)
Module Samples.

Definition day : Z := 86400000000.

(** A naive datetime, [seconds] after the epoch. *)
Definition naive_at (seconds : Z) : timestamp :=
  Parsed {| instant := seconds * 1000000; aware := false |}.

(** An EUR/USD trade of volume 1. *)
Definition eurusd (id client : string) (ts : timestamp) (dir : string)
  (pnl : Q) : Trade :=
  {| trade_id := id; t_client_id := client; t_timestamp := ts;
     instrument := "EUR/USD"; direction := dir; volume := 1;
     price := 11 # 10; profit_loss := pnl |}.

(** An active client with deposit and balance 1000 and no recorded dates. *)
Definition client_with (id partner : string) (ts : list Trade) : Client :=
  {| client_id := id; name := None; referred_by := partner;
     signup_date := None; initial_deposit := 1000; current_balance := 1000;
     is_active := Some true; withdrawal_date := None; trades := ts |}.

(** The client of the specification's worked example: no trades, inactive,
    deposit 150, balance 20, withdrawal two days after signup. *)
Definition example_client : Client :=
  {| client_id := "C-1"; name := Some "Example"; referred_by := "P-1";
     signup_date := Some (Parsed {| instant := 0; aware := false |});
     initial_deposit := 150; current_balance := 20;
     is_active := Some false;
     withdrawal_date :=
       Some (Parsed {| instant := 2 * 86400000000; aware := false |});
     trades := [] |}.

Definition sample_trade : Trade :=
  {| trade_id := "T-1"; t_client_id := "C-1";
     t_timestamp := Parsed {| instant := 1700000000000000; aware := false |};
     instrument := "EUR/USD"; direction := "BUY";
     volume := 25 # 10; price := 11 # 10; profit_loss := 40 |}.

(** The opposite-trading scenario of the specification: one trade each, same
    instrument, opposite directions, two minutes apart, +100 and -100. *)
Definition buyer : Client :=
  client_with "A" "P1" [eurusd "T1" "A" (naive_at 0) "BUY" 100].

Definition seller : Client :=
  client_with "B" "P2" [eurusd "T2" "B" (naive_at 120) "SELL" (-100)].

(** A counterparty that sells three times within three minutes of the
    buyer's one trade. *)
Definition triple_seller : Client :=
  client_with "B" "P2"
    [eurusd "T2" "B" (naive_at 60) "SELL" (-30);
     eurusd "T3" "B" (naive_at 120) "SELL" (-30);
     eurusd "T4" "B" (naive_at 180) "SELL" (-40)].

(** A counterparty whose only trade carries a timestamp that does not parse. *)
Definition garbled_seller : Client :=
  client_with "B" "P2"
    [eurusd "T2" "B" (Unparseable "not-a-date") "SELL" (-100)].

(** Ten hourly purchases, the first one stamped [first]. *)
Definition ten_trades (client : string) (first : timestamp) : list Trade :=
  eurusd "T0" client first "BUY" 1
  :: map (fun i => eurusd "T" client (naive_at (Z.of_nat i * 3600)) "BUY" 1)
         (seq 1 9).

(** Three clients of one partner placing the same ten trades; the first
    trade of the second client is stamped [stamp]. *)
Definition lockstep_group (stamp : timestamp) : list Client :=
  [client_with "A" "P1" (ten_trades "A" (naive_at 0));
   client_with "B" "P1" (ten_trades "B" stamp);
   client_with "C" "P1" (ten_trades "C" (naive_at 0))].

(** A client in good standing (ten trades of volume 100 on a deposit of
    1000, balance intact, no withdrawal) whose record carries the given
    [is_active] field. *)
Definition good_standing (activity : option bool) : Client :=
  {| client_id := "A"; name := Some "Alice"; referred_by := "P1";
     signup_date := Some (naive_at 0);
     initial_deposit := 1000; current_balance := 1000;
     is_active := activity; withdrawal_date := None;
     trades := map (fun i =>
                      {| trade_id := "T"; t_client_id := "A";
                         t_timestamp := naive_at (Z.of_nat i * 3600);
                         instrument := "EUR/USD"; direction := "BUY";
                         volume := 100; price := 11 # 10; profit_loss := 5 |})
                   (seq 0 10) |}.

Definition sole_partner : Partner :=
  {| partner_id := "P1"; p_name := Some "Partner One";
     p_type := Some "master" |}.

(** A client without trades whose signup date does not parse and who
    withdrew on day 100. *)
Definition undated_signup : Client :=
  {| client_id := "A"; name := Some "Alice"; referred_by := "P1";
     signup_date := Some (Unparseable "last tuesday");
     initial_deposit := 1000; current_balance := 1000;
     is_active := Some true;
     withdrawal_date :=
       Some (Parsed {| instant := 100 * day; aware := false |});
     trades := [] |}.

(** Two runs: one started on day 70, one on day 99. *)
Definition clock_day_70 : nat -> Z := fun _ => (70 * day)%Z.
Definition clock_day_99 : nat -> Z := fun _ => (99 * day)%Z.

(** [k] partners, each with one referred client that never traded. *)
Definition idle_client (i : nat) : Client :=
  {| client_id := "C" +:+ pretty i; name := None;
     referred_by := "P" +:+ pretty i;
     signup_date := None; initial_deposit := 100; current_balance := 0;
     is_active := Some false; withdrawal_date := None; trades := [] |}.

Definition idle_partner (i : nat) : Partner :=
  {| partner_id := "P" +:+ pretty i; p_name := None; p_type := None |}.

(** Two orders in which a run may iterate a set of strings: each element at
    its last insertion, and the reverse of that. *)
Definition insertion_order (l : list string) : list string := remove_dups l.

Definition reverse_order (l : list string) : list string :=
  reverse (remove_dups l).

(** A GBP/USD trade of volume 1. *)
Definition gbpusd (id client : string) (ts : timestamp) (dir : string)
  (pnl : Q) : Trade :=
  {| trade_id := id; t_client_id := client; t_timestamp := ts;
     instrument := "GBP/USD"; direction := dir; volume := 1;
     price := 13 # 10; profit_loss := pnl |}.

(** Two clients of different partners that take opposite sides on two
    instruments, a minute apart. *)
Definition two_market_buyer : Client :=
  client_with "A" "P1"
    [eurusd "T1" "A" (naive_at 0) "BUY" 100;
     gbpusd "T2" "A" (naive_at 0) "BUY" 50].

Definition two_market_seller : Client :=
  client_with "B" "P2"
    [eurusd "T3" "B" (naive_at 60) "SELL" (-100);
     gbpusd "T4" "B" (naive_at 60) "SELL" (-50)].

(** What the detector reports on the lockstep group. *)
Definition lockstep_findings : list MirrorTrading.Finding :=
  match MirrorTrading.detect_mirror_group (lockstep_group (naive_at 0)) 3
                                          (1 # 2) with
  | Ok found => found
  | Raise _ => []
  end.

End Samples.

(* ================================================================== *)
(** * Statements about the detectors *)
(* ================================================================== *)

(** The clients of [clients] referred by partner [k], in their order. *)
Definition referred_to (k : string) (clients : list Client) : list Client :=
  List.filter (fun c => String.eqb (referred_by c) k) clients.

(** ** Opposite trading *)

Module OppositeInvariants.
Import OppositeTrading.

(** What the accumulator [(correlations, count)] of the timing loop
    satisfies. *)
Definition timing_inv (acc : Q * nat) : Prop :=
  0 <= fst acc <= inject_Z (Z.of_nat (snd acc)).

(** What [detect_opposite_directions] records of a pair. *)
Definition opposite_of (time_window_minutes : Z) (t1 t2 : Trade)
  (p : OppositePair) : Prop :=
  op_trade1 p = t1 /\ op_trade2 p = t2
  /\ op_instrument p = instrument t1
  /\ instrument t1 = instrument t2
  /\ direction t1 <> direction t2
  /\ (exists d1 d2 : datetime,
        t_timestamp t1 = Parsed d1 /\ t_timestamp t2 = Parsed d2
        /\ abs_seconds d1 d2 = Ok (time_diff_seconds p))
  /\ 0 <= time_diff_seconds p
  /\ time_diff_seconds p / 60 <= inject_Z time_window_minutes
  /\ volume_similarity p
     == pymin (volume t1) (volume t2) / pymax (volume t1) (volume t2).

(** [p] records two trades, one of each list. *)
Definition recorded (time_window_minutes : Z) (trades1 trades2 : list Trade)
  (p : OppositePair) : Prop :=
  exists t1 t2, In t1 trades1 /\ In t2 trades2
                /\ opposite_of time_window_minutes t1 t2 p.

(** The condition under which a pair of trades is recorded. *)
Definition offsetting (time_window_minutes : Z) (t1 t2 : Trade) : Prop :=
  instrument t1 = instrument t2
  /\ direction t1 <> direction t2
  /\ exists (d1 d2 : datetime) (secs : Q),
       t_timestamp t1 = Parsed d1 /\ t_timestamp t2 = Parsed d2
       /\ abs_seconds d1 d2 = Ok secs
       /\ secs / 60 <= inject_Z time_window_minutes.

(** [p] is the record of [t1] and [t2]. *)
Definition pairs_up (t1 t2 : Trade) (p : OppositePair) : Prop :=
  op_trade1 p = t1 /\ op_trade2 p = t2.

(** A bound on profits and losses under which no square of a deviation
    from the mean is out of the range of a double. *)
Definition pnl_bound : Q := inject_Z (10 ^ 150).

(** [f] is the finding made for the clients [client1] of [partner1] and
    [client2] of [partner2]. *)
Definition made_for (threshold : Q) (partner1 partner2 : string)
  (client1 client2 : Client) (f : Finding) : Prop :=
  exists (timing_corr pnl_corr : Q) (opposite_pairs : list OppositePair),
    calculate_timing_correlation (trades client1) (trades client2) 10
    = Ok timing_corr
    /\ detect_opposite_directions (trades client1) (trades client2) 10
       = Ok opposite_pairs
    /\ calculate_pnl_correlation (trades client1) (trades client2)
       = Ok pnl_corr
    /\ trades client1 <> [] /\ trades client2 <> []
    /\ let opposite_ratio :=
         Qlen opposite_pairs
         / inject_Z (Z.of_nat (Nat.min (length (trades client1))
                                       (length (trades client2)))) in
       let suspicion_score := suspicion timing_corr opposite_ratio pnl_corr in
       threshold <= suspicion_score
       /\ partner_a f = partner1 /\ partner_b f = partner2
       /\ client_a f = client_id client1 /\ client_b f = client_id client2
       /\ confidence_score f = round_ndigits suspicion_score 3
       /\ timing_correlation f = round_ndigits timing_corr 3
       /\ opposite_trade_ratio f = round_ndigits opposite_ratio 3
       /\ pnl_correlation f = round_ndigits pnl_corr 3
       /\ num_opposite_pairs f = length opposite_pairs
       /\ total_trades_analyzed f
          = (length (trades client1) + length (trades client2))%nat
       /\ estimated_fraud_value f
          = round_ndigits
              ((Qabs (Qsum (map profit_loss (trades client1)))
                + Qabs (Qsum (map profit_loss (trades client2)))) * (1 # 2)) 2
       /\ top_opposite_pairs f = take 5 opposite_pairs.

(** [f] was made for two clients drawn from the groups of two different
    partners. *)
Definition across (threshold : Q) (groups : list (string * list Client))
  (f : Finding) : Prop :=
  exists p1 cs1 p2 cs2 c1 c2,
    In (p1, cs1) groups /\ In (p2, cs2) groups /\ p1 <> p2
    /\ In c1 cs1 /\ In c2 cs2 /\ made_for threshold p1 p2 c1 c2 f.

(** [f] reports two clients of the snapshot that different partners
    referred. *)
Definition reports_pair (threshold : Q) (clients : list Client)
  (f : Finding) : Prop :=
  exists c1 c2,
    In c1 clients /\ In c2 clients
    /\ referred_by c1 <> referred_by c2
    /\ made_for threshold (referred_by c1) (referred_by c2) c1 c2 f.

(** Descending confidence. *)
Definition by_confidence_desc (a b : Finding) : Prop :=
  confidence_score b <= confidence_score a.

(** [sum(info["schemes"] for info in partner_involvement.values())]. *)
Definition schemes_total (d : list (string * Involvement)) : nat :=
  foldr Nat.add 0%nat (map (fun kv => schemes (snd kv)) d).

(** A partner is involved through at least one client, and through no more
    clients than schemes. *)
Definition involved_ok (i : Involvement) : Prop :=
  (1 <= size (inv_clients i) <= schemes i)%nat.

End OppositeInvariants.

(** ** Mirror trading *)

Module MirrorCertificates.
Import MirrorTrading MirrorInvariants.

(** The three components that do not look at the clock. *)
Definition static_score (trade1 trade2 : Trade) (vol_ratio : Q) : Q :=
  let score := 0 in
  let score := if String.eqb (instrument trade1) (instrument trade2)
               then score + 1 else score in
  let score := if String.eqb (direction trade1) (direction trade2)
               then score + 1 else score in
  if Qgeb vol_ratio (8 # 10) then score + 1
  else if Qgeb vol_ratio (5 # 10) then score + (1 # 2)
  else score.

(** The trade at position [j] of [trades2] scores [q] against [t1]. *)
Definition scores (time_window_minutes : Z) (trades2 : list Trade)
  (t1 : Trade) (j : nat) (q : Q) : Prop :=
  exists t2, trades2 !! j = Some t2
             /\ calculate_trade_similarity t1 t2 time_window_minutes = Ok q.

(** What the inner loop of [find_matching_trades] has established when it
    reaches position [idx]. *)
Definition scanned (time_window_minutes : Z) (min_similarity : Q)
  (trades2 : list Trade) (used_indices : gset nat) (t1 : Trade)
  (idx : nat) (best : Best) : Prop :=
  min_similarity <= best_similarity best
  /\ (forall j, (j < idx)%nat -> (j < length trades2)%nat ->
                (j ∉ used_indices) ->
                exists q, scores time_window_minutes trades2 t1 j q
                          /\ q <= best_similarity best)
  /\ match best_match best with
     | None => best_similarity best = min_similarity
     | Some t2 =>
         exists i : nat,
           best_idx best = Z.of_nat i /\ (i < idx)%nat /\ (i ∉ used_indices)
           /\ trades2 !! i = Some t2
           /\ calculate_trade_similarity t1 t2 time_window_minutes
              = Ok (best_similarity best)
           /\ min_similarity < best_similarity best
           /\ forall j, (j < i)%nat -> (j ∉ used_indices) ->
                        exists q, scores time_window_minutes trades2 t1 j q
                                  /\ q < best_similarity best
     end.

(** What a match record certifies. *)
Definition certified (time_window_minutes : Z) (min_similarity : Q)
  (trades2 : list Trade) (m : Match) : Prop :=
  In (m_trade2 m) trades2
  /\ calculate_trade_similarity (m_trade1 m) (m_trade2 m) time_window_minutes
     = Ok (similarity m)
  /\ min_similarity < similarity m
  /\ similarity m <= 1
  /\ m_instrument m = instrument (m_trade1 m)
  /\ m_direction m = direction (m_trade1 m).

(** [r] is the match ratio of the trades of client [a] against those of
    client [b], in this order. *)
Definition compared (partner_client_list : list Client) (a b : nat) (r : Q)
  : Prop :=
  exists (ca cb : Client) (matches : list Match),
    partner_client_list !! a = Some ca
    /\ partner_client_list !! b = Some cb
    /\ find_matching_trades (trades ca) (trades cb) default_window
                            default_min_similarity = Ok matches
    /\ r = match_ratio_of matches (trades ca) (trades cb).

(** The pair [(a, b)] has been compared when the loops stand at [(i, j)]. *)
Definition reached (i j a b : nat) : Prop :=
  (a < i)%nat \/ (a = i /\ (b < j)%nat).

(** What the two loops that fill the matrix maintain. *)
Definition cells_inv (partner_client_list : list Client) (i j : nat)
  (m : matrix) : Prop :=
  square (length partner_client_list) m
  /\ (forall a, cell m a a = 0)
  /\ forall a b, (a < b < length partner_client_list)%nat ->
       (reached i j a b ->
        compared partner_client_list a b (cell m a b)
        /\ cell m b a = cell m a b)
       /\ (~ reached i j a b -> cell m a b = 0 /\ cell m b a = 0).

(** [sum(g["group_size"] for g in groups)]. *)
Definition clients_in (groups : list Finding) : nat :=
  foldr Nat.add 0%nat (map group_size groups).

(** Descending confidence. *)
Definition by_group_confidence_desc (a b : Finding) : Prop :=
  confidence_score b <= confidence_score a.

(** What the fields of a reported group say of its size. *)
Definition sized (min_group_size : nat) (g : Finding) : Prop :=
  (min_group_size <= group_size g)%nat
  /\ (1 <= group_size g)%nat
  /\ length (client_ids g) = group_size g
  /\ length (client_names g) = group_size g
  /\ ev_accounts (evidence_summary g) = group_size g
  /\ ev_total_trades (evidence_summary g) = total_trades g
  /\ (10 * group_size g <= total_trades g)%nat
  /\ (length (common_instruments g) <= 3)%nat.

(** What the loop over [range(n)] maintains: the groups made so far, after
    [groups0], use each position of [partner_client_list] at most once. *)
Definition cluster_inv (min_group_size : nat)
  (partner_client_list : list Client) (groups0 : list Finding)
  (state : list Finding * gset nat) : Prop :=
  exists new : list Finding,
    fst state = groups0 ++ new
    /\ Forall (sized min_group_size) new
    /\ clients_in new = size (snd state)
    /\ forall a, a ∈ snd state -> (a < length partner_client_list)%nat.

(** The number of clients in a grouping. *)
Definition grouped (d : list (string * list Client)) : nat :=
  foldr Nat.add 0%nat (map (fun kv => length (snd kv)) d).

(** The signup dates that parse, as [generate_mirror_evidence] collects
    them. *)
Definition signups (clients : list Client) : list datetime :=
  flat_map (fun c =>
              match parse_timestamp (get (signup_date c) (Unparseable "")) with
              | Ok d => [d]
              | Raise _ => []
              end) clients.

End MirrorCertificates.

(** ** Bonus abuse *)

Module FlagTable.
Import BonusAbuse.

(** The penalty that goes with each flag: the pairs
    [score -= p; flags.append(flag)] of [calculate_client_quality_score]. *)
Definition flag_penalty (flag : string) : Z :=
  if String.eqb flag "no_trading_activity" then 40
  else if String.eqb flag "minimal_trading" then 25
  else if String.eqb flag "low_trading_volume" then 10
  else if String.eqb flag "very_low_volume_ratio" then 20
  else if String.eqb flag "low_volume_ratio" then 10
  else if String.eqb flag "immediate_withdrawal" then 30
  else if String.eqb flag "quick_withdrawal" then 15
  else if String.eqb flag "most_funds_withdrawn" then 15
  else if String.eqb flag "significant_withdrawal" then 5
  else if String.eqb flag "inactive_account" then 10
  else if String.eqb flag "minimal_deposit" then 10
  else 0.

Definition penalty_of_flags (flags : list string) : Z :=
  foldr Z.add 0%Z (map flag_penalty flags).

(** What one check can do to the state: a penalty and the flags appended. *)
Definition outcome : Type := Z * list string.

Definition trade_count_outcomes : list outcome :=
  [(40%Z, ["no_trading_activity"]); (25%Z, ["minimal_trading"]);
   (10%Z, ["low_trading_volume"]); (0%Z, [])].

Definition volume_ratio_outcomes : list outcome :=
  [(20%Z, ["very_low_volume_ratio"]); (10%Z, ["low_volume_ratio"]); (0%Z, [])].

Definition withdrawal_outcomes : list outcome :=
  [(30%Z, ["immediate_withdrawal"]); (15%Z, ["quick_withdrawal"]); (0%Z, [])].

Definition balance_ratio_outcomes : list outcome :=
  [(15%Z, ["most_funds_withdrawn"]); (5%Z, ["significant_withdrawal"]);
   (0%Z, [])].

Definition active_outcomes : list outcome :=
  [(10%Z, ["inactive_account"]); (0%Z, [])].

Definition deposit_outcomes : list outcome :=
  [(10%Z, ["minimal_deposit"]); (0%Z, [])].

(** One check after another. *)
Definition both (first second : list outcome) : list outcome :=
  flat_map (fun a => map (fun b => ((fst a + fst b)%Z, snd a ++ snd b)) second)
           first.

Definition outcomes : list outcome :=
  both trade_count_outcomes
    (both volume_ratio_outcomes
       (both withdrawal_outcomes
          (both balance_ratio_outcomes
             (both active_outcomes deposit_outcomes)))).

(** No sentence of [generate_abuse_evidence] belongs to any of [flags]. *)
Definition silent (flags : list string) : bool :=
  negb (has_flag "no_trading_activity" flags
        || has_flag "minimal_trading" flags
        || has_flag "immediate_withdrawal" flags
        || has_flag "quick_withdrawal" flags
        || has_flag "most_funds_withdrawn" flags
        || has_flag "minimal_deposit" flags
        || has_flag "inactive_account" flags).

(** [f] subtracts the penalty of one of [opts] and appends its flags. *)
Definition acts (opts : list outcome)
  (st st' : Z * list string) : Prop :=
  exists o, In o opts /\ st' = ((fst st - fst o)%Z, snd st ++ snd o).

(** What holds of every row, by enumeration. *)
Definition row_ok (o : outcome) : bool :=
  (penalty_of_flags (snd o) =? fst o)%Z
  && bool_decide (NoDup (snd o))
  && forallb (fun f => (0 <? flag_penalty f)%Z) (snd o)
  && (length (snd o) <=? 6)%nat
  && implb (100 - fst o <? 50)%Z (negb (silent (snd o))).

End FlagTable.

Module BonusInvariants.
Import BonusAbuse Package.

(** The clients that a run which reads no clock lists. *)
Definition low_quality (now : nat -> Z) (c : Client) : bool :=
  (quality_score (run (calculate_client_quality_score now c)) <? 50)%Z.

(** What the fields of a partner's entry say of the snapshot. *)
Definition partner_entry_ok (partners : list Partner) (clients : list Client)
  (f : PartnerFinding) : Prop :=
  (exists p, In p partners /\ pf_partner_id f = partner_id p
             /\ pf_partner_name f = get (p_name p) "Unknown"
             /\ pf_partner_type f = get (p_type p) "unknown")
  /\ total_referrals f = length (referred_to (pf_partner_id f) clients)
  /\ (1 <= total_referrals f)%nat
  /\ (suspicious_referrals f <= total_referrals f)%nat
  /\ 0 <= suspicious_ratio f <= 1
  /\ 0 <= avg_client_quality f <= 100
  /\ 0 <= conversion_rate f <= 1
  /\ pe_total (pf_evidence_summary f) = total_referrals f
  /\ pe_suspicious_count (pf_evidence_summary f) = suspicious_referrals f.

End BonusInvariants.

(** ** Runs on the sample snapshots *)

Module SampleRuns.
Import Samples.

(** What a run returned, or [default] if it raised. *)
Definition returned {A} (default : A) (r : result A) : A :=
  match r with Ok a => a | Raise _ => default end.

(** The trades of the buyer against those of the counterparty that sells
    three times. *)
Definition sample_timing : Q :=
  returned 0 (OppositeTrading.calculate_timing_correlation
                (trades buyer) (trades triple_seller) 10).

Definition sample_pairs : list OppositeTrading.OppositePair :=
  returned [] (OppositeTrading.detect_opposite_directions
                 (trades buyer) (trades triple_seller) 10).

Definition sample_schemes : list OppositeTrading.Finding :=
  returned [] (OppositeTrading.detect_opposite_trading
                 insertion_order [buyer; triple_seller] (5 # 10)).

(** The first client of the lockstep group matched against the second. *)
Definition sample_matches : list MirrorTrading.Match :=
  returned [] (MirrorTrading.find_matching_trades
                 (ten_trades "A" (naive_at 0)) (ten_trades "B" (naive_at 0))
                 5 (7 # 10)).

Definition sample_step : list MirrorTrading.Match * gset nat :=
  returned ([], ∅)
           (MirrorTrading.match_step 5 (7 # 10) (ten_trades "B" (naive_at 0))
              ([], ∅) (eurusd "T0" "A" (naive_at 0) "BUY" 1)).

Definition sample_matrix : list (list Q) :=
  returned [] (MirrorTrading.build_matrix (lockstep_group (naive_at 0))).

End SampleRuns.

(* ================================================================== *)
(** * Facts about the prelude *)
(* ================================================================== *)

Lemma Qltb_lt (x y : Q) : Qltb x y = true <-> x < y.
Proof.
  unfold Qltb. rewrite negb_true_iff.
  destruct (Qle_bool y x) eqn:E.
  - apply Qle_bool_iff in E. split; [discriminate | intros H; lra].
  - split; [intros _ | reflexivity].
    destruct (Qlt_le_dec x y) as [H | H]; [exact H |].
    apply Qle_bool_iff in H. congruence.
Qed.

Lemma Qltb_ge (x y : Q) : Qltb x y = false <-> y <= x.
Proof.
  unfold Qltb. rewrite negb_false_iff. apply Qle_bool_iff.
Qed.

Lemma Qgeb_ge (x y : Q) : Qgeb x y = true <-> y <= x.
Proof. apply Qle_bool_iff. Qed.

Lemma Qeq_bool_false (x y : Q) : ~ x == y -> Qeq_bool x y = false.
Proof.
  intros H. destruct (Qeq_bool x y) eqn:E; [| reflexivity].
  apply Qeq_bool_iff in E. contradiction.
Qed.

Lemma pydiv_ok (x y : Q) : ~ y == 0 -> pydiv x y = Ok (x / y).
Proof. intros H. unfold pydiv. now rewrite Qeq_bool_false. Qed.

(** ** Sorting *)

Section SortFacts.
Context {A K : Type} (key : A -> K) (leb : K -> K -> bool).

Lemma insert_by_perm (x : A) (l : list A) :
  Permutation (insert_by key leb x l) (x :: l).
Proof.
  induction l as [| y l IH]; simpl; [reflexivity |].
  destruct (leb (key x) (key y)); [reflexivity |].
  rewrite IH. apply perm_swap.
Qed.

Lemma sort_by_perm (l : list A) : Permutation (sort_by key leb l) l.
Proof.
  induction l as [| x l IH]; simpl; [reflexivity |].
  rewrite insert_by_perm. now apply perm_skip.
Qed.

Lemma sort_by_length (l : list A) : length (sort_by key leb l) = length l.
Proof. apply Permutation_length, sort_by_perm. Qed.

Hypothesis leb_total : forall a b, leb a b = false -> leb b a = true.

Lemma insert_by_hd (x a : A) (l : list A) :
  ordered key leb a x -> HdRel (ordered key leb) a l ->
  HdRel (ordered key leb) a (insert_by key leb x l).
Proof.
  intros Hax Hl. destruct l as [| y l]; simpl; [now constructor |].
  destruct (leb (key x) (key y)); constructor; [exact Hax |].
  now inversion Hl.
Qed.

Lemma insert_by_sorted (x : A) (l : list A) :
  Sorted (ordered key leb) l ->
  Sorted (ordered key leb) (insert_by key leb x l).
Proof.
  induction 1 as [| y l Hs IH Hhd]; simpl.
  - repeat constructor.
  - destruct (leb (key x) (key y)) eqn:E.
    + constructor; [now constructor | now constructor].
    + constructor; [exact IH |].
      apply insert_by_hd; [| exact Hhd]. now apply leb_total.
Qed.

Lemma sort_by_sorted (l : list A) :
  Sorted (ordered key leb) (sort_by key leb l).
Proof.
  induction l as [| x l IH]; simpl; [constructor |].
  now apply insert_by_sorted.
Qed.

End SortFacts.

Lemma Sorted_take {A} (R : A -> A -> Prop) (k : nat) (l : list A) :
  Sorted R l -> Sorted R (take k l).
Proof.
  intros H. revert k. induction H as [| x l Hs IH Hhd]; intros [| k]; simpl;
    try constructor.
  - apply IH.
  - destruct Hhd; destruct k; simpl; now constructor.
Qed.

Lemma StronglySorted_split {A} (R : A -> A -> Prop) (l1 l2 : list A) :
  StronglySorted R (l1 ++ l2) ->
  forall a b, In a l1 -> In b l2 -> R a b.
Proof.
  induction l1 as [| x l1 IH]; simpl; intros H a b Ha Hb; [contradiction |].
  inversion H as [| ? ? Hs Hall]; subst.
  destruct Ha as [<- | Ha].
  - rewrite List.Forall_forall in Hall. apply Hall, in_or_app. now right.
  - now apply IH.
Qed.

Lemma Zleb_total (a b : Z) : (a <=? b)%Z = false -> (b <=? a)%Z = true.
Proof. rewrite Z.leb_gt, Z.leb_le. lia. Qed.

Lemma Qgeb_total (a b : Q) : Qgeb a b = false -> Qgeb b a = true.
Proof.
  unfold Qgeb. intros H. apply Qle_bool_iff.
  destruct (Qlt_le_dec a b) as [Hlt | Hle]; [lra |].
  apply Qle_bool_iff in Hle. congruence.
Qed.


Lemma Sorted_weaken {A} (R R' : A -> A -> Prop) (l : list A) :
  (forall a b, R a b -> R' a b) -> Sorted R l -> Sorted R' l.
Proof.
  intros HR. induction 1 as [| x l Hs IH Hhd]; constructor; [exact IH |].
  destruct Hhd; constructor. now apply HR.
Qed.

(** ** Grouping *)

Lemma dict_upd_values {V} (P : V -> Prop) (k : string) (dflt : V)
  (f : V -> V) (d : list (string * V)) :
  P (f dflt) -> (forall v, P v -> P (f v)) ->
  Forall (fun kv => P (snd kv)) d ->
  Forall (fun kv => P (snd kv)) (dict_upd k dflt f d).
Proof.
  intros Hd Hf. induction 1 as [| [k' v] d Hv Hall IH]; simpl.
  - repeat constructor. exact Hd.
  - destruct (String.eqb k k'); constructor; simpl; auto.
Qed.

Lemma dict_get_value {V} (P : V -> Prop) (k : string) (dflt : V)
  (d : list (string * V)) :
  P dflt -> Forall (fun kv => P (snd kv)) d -> P (dict_get k dflt d).
Proof.
  intros Hd. induction 1 as [| [k' v] d Hv Hall IH]; simpl; [exact Hd |].
  destruct (String.eqb k k'); auto.
Qed.

Lemma group_by_partner_members (P : Client -> Prop) (clients : list Client) :
  Forall P clients ->
  Forall (fun kv => Forall P (snd kv)) (group_by_partner clients).
Proof.
  unfold group_by_partner.
  assert (forall d,
            Forall (fun kv : string * list Client => Forall P (snd kv)) d ->
            Forall P clients ->
            Forall (fun kv => Forall P (snd kv))
                   (fold_left (fun d c => dict_append (referred_by c) c d)
                              clients d)) as H.
  { induction clients as [| c clients IH]; intros d Hd Hall; simpl;
      [exact Hd |].
    inversion Hall; subst. apply IH; [| assumption].
    unfold dict_append. apply dict_upd_values; [| | exact Hd].
    - repeat constructor. assumption.
    - intros v Hv. apply Forall_app. split; [exact Hv |].
      repeat constructor. assumption. }
  intros Hall. apply H; [constructor | exact Hall].
Qed.

(** ** Loops *)

Lemma for_each_inv {A S} (P : S -> Prop) (body : S -> A -> result S)
  (l : list A) :
  (forall s x s', In x l -> P s -> body s x = Ok s' -> P s') ->
  forall s s', P s -> for_each body l s = Ok s' -> P s'.
Proof.
  induction l as [| x l IH]; intros Hbody s s' Hs H; simpl in H.
  - now injection H as <-.
  - destruct (body s x) as [s1 |] eqn:E; [| discriminate].
    cbn [rbind] in H. eapply IH; [| | exact H].
    + intros. eapply Hbody; eauto. now right.
    + eapply Hbody; eauto. now left.
Qed.

(** An invariant that counts the iterations. *)
Lemma for_each_count {A S} (P : nat -> S -> Prop) (body : S -> A -> result S)
  (l : list A) :
  (forall k s x s', P k s -> body s x = Ok s' -> P (Datatypes.S k) s') ->
  forall k s s', P k s -> for_each body l s = Ok s' -> P (k + length l)%nat s'.
Proof.
  intros Hbody. induction l as [| x l IH]; intros k s s' Hs H; simpl in H.
  - injection H as <-. now rewrite Nat.add_0_r.
  - destruct (body s x) as [s1 |] eqn:E; [| discriminate].
    cbn [rbind] in H. cbn [length].
    replace (k + Datatypes.S (length l))%nat
      with (Datatypes.S k + length l)%nat by lia.
    eapply IH; [| exact H]. eapply Hbody; eauto.
Qed.

Lemma for_each_returns {A S} (P : S -> Prop) (body : S -> A -> result S)
  (l : list A) :
  (forall s x, In x l -> P s -> exists s', body s x = Ok s' /\ P s') ->
  forall s, P s -> exists s', for_each body l s = Ok s' /\ P s'.
Proof.
  induction l as [| x l IH]; intros Hbody s Hs; cbn [for_each]; [eauto |].
  destruct (Hbody s x (or_introl eq_refl) Hs) as [s1 [-> Hs1]]. cbn [rbind].
  apply IH; [| exact Hs1]. intros s0 y Hy. apply Hbody. now right.
Qed.

(** ** Rounding *)

Lemma round_half_even_bounds (y : Q) (N : Z) :
  0 <= y <= inject_Z N -> (0 <= round_half_even y <= N)%Z.
Proof.
  intros [H0 HN]. unfold round_half_even.
  assert (0 <= Qfloor y)%Z as Hf0
    by (change 0%Z with (Qfloor 0); now apply Qfloor_resp_le).
  assert (Qfloor y <= N)%Z as HfN
    by (rewrite <- (Qfloor_Z N); now apply Qfloor_resp_le).
  pose proof (Qfloor_le y) as Hfl.
  destruct (Qltb (y - inject_Z (Qfloor y)) (1 # 2)) eqn:E1; [lia |].
  apply Qltb_ge in E1.
  assert (Qfloor y < N)%Z as Hlt.
  { destruct (Z_lt_le_dec (Qfloor y) N) as [Hlt | Hge]; [exact Hlt |].
    rewrite Zle_Qle in Hge. lra. }
  destruct (Qltb (1 # 2) (y - inject_Z (Qfloor y))); [lia |].
  destruct (Z.even (Qfloor y)); lia.
Qed.

Lemma round_ndigits_unit (x : Q) (ndigits : nat) :
  0 <= x <= 1 -> 0 <= round_ndigits x ndigits <= 1.
Proof.
  intros [H0 H1]. unfold round_ndigits.
  set (N := (10 ^ Z.of_nat ndigits)%Z).
  assert (0 < N)%Z as HN by (apply Z.pow_pos_nonneg; lia).
  assert (0 < inject_Z N) as HNq
    by (change 0 with (inject_Z 0); now rewrite <- Zlt_Qlt).
  destruct (round_half_even_bounds (x * inject_Z N) N) as [Hr0 Hr1].
  { split; [apply Qmult_le_0_compat; lra |]. nra. }
  rewrite Zle_Qle in Hr0, Hr1. change (inject_Z 0) with 0 in Hr0.
  split.
  - apply Qle_shift_div_l; [exact HNq | lra].
  - apply Qle_shift_div_r; [exact HNq | lra].
Qed.

(** ** Sums *)

Lemma Qlen_cons {A} (x : A) (l : list A) : Qlen (x :: l) == 1 + Qlen l.
Proof.
  unfold Qlen. cbn [length]. rewrite Nat2Z.inj_succ, <- Z.add_1_l.
  now rewrite inject_Z_plus.
Qed.

Lemma fold_Qplus_unit (l : list Q) :
  Forall (fun x => 0 <= x <= 1) l ->
  forall a, a <= fold_left Qplus l a <= a + Qlen l.
Proof.
  induction 1 as [| x l Hx Hall IH]; intros a; cbn [fold_left].
  - unfold Qlen. change (inject_Z (Z.of_nat (length (@nil Q)))) with 0. lra.
  - specialize (IH (a + x)). rewrite Qlen_cons. lra.
Qed.

Lemma Qsum_unit (l : list Q) :
  Forall (fun x => 0 <= x <= 1) l -> 0 <= Qsum l <= Qlen l.
Proof.
  intros H. pose proof (fold_Qplus_unit l H 0) as Hs. unfold Qsum. lra.
Qed.

(* ================================================================== *)
(** * Bonus abuse: the quality score *)
(* ================================================================== *)

Module QualityScoreFacts.
Import BonusAbuse PenaltyTable ScoreTrace Package Samples.

Section Checks.
Variable now : nat -> Z.

Lemma check_trade_count_score (c : Client) st :
  fst (check_trade_count (length (trades c)) st)
  = (fst st - trade_count_penalty c)%Z.
Proof.
  unfold check_trade_count, trade_count_penalty.
  destruct (length (trades c)) as [| k]; simpl; [reflexivity |].
  destruct k as [| [| [| [| k]]]]; simpl; try reflexivity.
  destruct k as [| [| [| [| [| k]]]]]; simpl; try reflexivity.
  lia.
Qed.

Lemma check_volume_ratio_score (c : Client) st :
  fst (check_volume_ratio (trades c) (initial_deposit c) st)
  = (fst st - volume_ratio_penalty c)%Z.
Proof.
  unfold check_volume_ratio, volume_ratio_penalty.
  destruct (trades c); simpl; [lia |].
  unfold penalise.
  repeat (case_match; simpl; try lia).
Qed.

Lemma check_withdrawal_score (c : Client) st n :
  fst (fst (check_withdrawal now (withdrawal_date c) (signup_date c) st n))
  = (fst st - withdrawal_penalty (days_read now c n))%Z.
Proof.
  unfold check_withdrawal, days_read, withdrawal_penalty.
  destruct (withdrawal_date c) as [wd |], (signup_date c) as [sd |];
    unfold ret; try (cbn [fst]; lia).
  destruct (truthy (Some wd) && truthy (Some sd)); [| cbn [fst]; lia].
  unfold cbind.
  destruct (parse_timestamp now sd n) as [signup n1].
  destruct (parse_timestamp now wd n1) as [withdrawal n2].
  destruct (dt_sub withdrawal signup); unfold penalise; [| cbn [fst]; lia].
  repeat (case_match; cbn [fst]; try lia).
Qed.

Lemma check_balance_ratio_score (c : Client) st :
  fst (check_balance_ratio (initial_deposit c) (current_balance c) st)
  = (fst st - balance_ratio_penalty c)%Z.
Proof.
  unfold check_balance_ratio, balance_ratio_penalty, penalise.
  repeat (case_match; simpl; try lia).
Qed.

Lemma check_active_score (c : Client) st :
  fst (check_active (get (is_active c) true) st)
  = (fst st - inactive_penalty c)%Z.
Proof.
  unfold check_active, inactive_penalty.
  destruct (is_active c) as [[|] |]; simpl; lia.
Qed.

Lemma check_deposit_score (c : Client) st :
  fst (check_deposit (initial_deposit c) st)
  = (fst st - deposit_penalty c)%Z.
Proof.
  unfold check_deposit, deposit_penalty, penalise.
  case_match; simpl; lia.
Qed.

(** The unclamped score that [calculate_client_quality_score] reaches. *)
Lemma raw_score (c : Client) (n : nat) :
  let q := fst (calculate_client_quality_score now c n) in
  quality_score q = Z.max 0 (100 - penalties now c n)
  /\ is_suspicious q = (100 - penalties now c n <? 50)%Z.
Proof.
  unfold calculate_client_quality_score, cbind, penalties.
  pose proof (check_withdrawal_score c
                (check_volume_ratio (trades c) (initial_deposit c)
                   (check_trade_count (length (trades c)) (100%Z, [])))
                n) as Hw.
  destruct (check_withdrawal now _ _ _ n) as [st n'].
  unfold ret. cbn [fst snd quality_score is_suspicious].
  rewrite check_deposit_score, check_active_score,
    check_balance_ratio_score.
  cbn [fst] in Hw. rewrite Hw.
  rewrite check_volume_ratio_score, check_trade_count_score.
  cbn [fst].
  split; f_equal; lia.
Qed.

Lemma penalties_nonneg (c : Client) (n : nat) :
  (0 <= penalties now c n)%Z.
Proof.
  unfold penalties, trade_count_penalty, volume_ratio_penalty,
    withdrawal_penalty, balance_ratio_penalty, inactive_penalty,
    deposit_penalty.
  repeat (case_match; try lia).
Qed.

(** On a record whose dates parse where the score reads them, and are of
    one kind, the code arrives at the day count of the table. *)
Lemma days_read_table (c : Client) (n : nat) :
  reads_clock c = false -> comparable_dates c = true ->
  days_read now c n = days_to_withdrawal c.
Proof.
  unfold reads_clock, comparable_dates, days_read, days_to_withdrawal.
  destruct (withdrawal_date c) as [[wd | w] |], (signup_date c) as [[sd | s] |];
    try reflexivity.
  - intros _ Hk. cbn [truthy andb parse_timestamp ret].
    unfold dt_sub. now rewrite Hk.
  - cbn [truthy andb unparseable orb]. rewrite Bool.andb_true_r.
    intros H _. now rewrite H.
  - cbn [truthy andb unparseable orb]. rewrite !Bool.andb_true_r.
    intros H _. now rewrite H.
  - cbn [unparseable orb]. rewrite Bool.andb_true_r.
    intros H _. now rewrite H.
Qed.

Lemma penalties_table (c : Client) (n : nat) :
  reads_clock c = false -> comparable_dates c = true ->
  penalties now c n = total_penalty c.
Proof.
  intros Hr Hk. unfold penalties, total_penalty.
  now rewrite days_read_table.
Qed.
End Checks.




End QualityScoreFacts.

(* ================================================================== *)
(** * Mirror trading: the similarity of two trades *)
(* ================================================================== *)

Module SimilarityFacts.
Import MirrorTrading Samples.

Lemma pymin_same (v : Q) : pymin v v = v.
Proof.
  unfold pymin. now replace (Qltb v v) with false
    by (symmetry; apply Qltb_ge, Qle_refl).
Qed.

Lemma pymax_same (v : Q) : pymax v v = v.
Proof.
  unfold pymax. now replace (Qltb v v) with false
    by (symmetry; apply Qltb_ge, Qle_refl).
Qed.

Lemma inject_Z_nonzero (w : Z) : (w <> 0)%Z -> ~ inject_Z w == 0.
Proof.
  intros Hw H. apply Hw. unfold Qeq in H. simpl in H. lia.
Qed.

(** C9: a trade with positive volume and a parseable timestamp, compared
    with an identical copy of itself over a positive window (the default
    is 5 minutes), has similarity exactly 1. *)
Theorem self_similarity_is_one :
  forall (t : Trade) (d : datetime) (time_window_minutes : Z),
    0 < volume t ->
    t_timestamp t = Parsed d ->
    (0 < time_window_minutes)%Z ->
    exists s : Q,
      calculate_trade_similarity t t time_window_minutes = Ok s /\ s == 1.
Proof.
  intros t d w Hv Ht Hw.
  unfold calculate_trade_similarity.
  rewrite !String.eqb_refl, pymin_same, pymax_same.
  rewrite pydiv_ok by lra. cbn [rbind].
  assert (volume t / volume t == 1) as Hone by (field; lra).
  assert (Qgeb (volume t / volume t) (8 # 10) = true) as ->
    by (apply Qgeb_ge; rewrite Hone; discriminate).
  rewrite Ht. cbn [parse_timestamp rbind].
  unfold dt_sub. rewrite Bool.eqb_reflx, Z.sub_diag. cbn [rbind].
  assert (Qabs (total_seconds 0) / 60 == 0) as Hzero by reflexivity.
  assert (Qle_bool (Qabs (total_seconds 0) / 60) (inject_Z w) = true) as ->.
  { apply Qle_bool_iff. rewrite Hzero.
    change 0 with (inject_Z 0). rewrite <- Zle_Qle. lia. }
  rewrite pydiv_ok by (apply inject_Z_nonzero; lia). cbn [rbind].
  eexists. split; [reflexivity |].
  rewrite Hzero. field. apply inject_Z_nonzero. lia.
Qed.

Lemma self_similarity_is_one_witness :
  exists s : Q,
    calculate_trade_similarity sample_trade sample_trade default_window
    = Ok s /\ s == 1.
Proof.
  apply (self_similarity_is_one sample_trade
           {| instant := 1700000000000000; aware := false |} default_window);
    reflexivity.
Defined.

End SimilarityFacts.

(* ================================================================== *)
(** * Opposite trading: runs on the sample snapshots *)
(* ================================================================== *)

Module OppositeRuns.
Import OppositeTrading Samples.

(** C1 (defect in the code): the buyer's single trade is paired with each of
    the three sales of the counterparty, so three opposite pairs are divided
    by [min(1, 3) = 1]; the reported finding has opposite_trade_ratio 3 and
    confidence_score 0.3 * 0.8 + 0.4 * 3 = 1.44, which is not in [0, 1];
    so in every run, whatever the order in which it iterates sets. *)
Theorem opposite_confidence_above_one :
  forall set_order : list string -> list string,
  exists f : Finding,
    detect_opposite_trading set_order [buyer; triple_seller]
                            default_threshold = Ok [f]
    /\ num_opposite_pairs f = 3%nat
    /\ timing_correlation f == 8 # 10
    /\ pnl_correlation f == 0
    /\ opposite_trade_ratio f == 3
    /\ confidence_score f == 144 # 100
    /\ ~ confidence_score f <= 1.
Proof.
  intros set_order. eexists. split; [vm_compute; reflexivity |].
  repeat split; try reflexivity.
  vm_compute. intros H. apply H. reflexivity.
Qed.

(** C4, as stated, fails: with one trade on each side the profit-and-loss
    correlation of the scenario is not -1. *)
Lemma scenario_pnl_correlation_not_minus_one :
  ~ (exists r : Q,
       calculate_pnl_correlation (trades buyer) (trades seller) = Ok r
       /\ r == - (1)).
Proof.
  intros [r [H Hr]]. vm_compute in H. injection H as <-. discriminate Hr.
Qed.

End OppositeRuns.

(* ================================================================== *)
(** * Timestamps that do not parse *)
(* ================================================================== *)

Module ParseFailureRuns.
Import Samples.

(** C2 (defect in the code): a trade timestamp that does not parse aborts
    the opposite-trading and the mirror-trading runs with [ValueError]
    (the same snapshots with a parseable stamp are processed), and in the
    bonus-abuse run a signup date that does not parse is replaced by the
    current time and still takes part in the withdrawal-speed check; only
    the evidence of the mirror detector skips such a date and still counts
    the account. *)
Theorem unparseable_timestamp_not_soft :
  forall set_order : list string -> list string,
  OppositeTrading.detect_opposite_trading set_order [buyer; garbled_seller]
    OppositeTrading.default_threshold = Raise ValueError
  /\ OppositeTrading.analyze_partner_network set_order []
       [buyer; garbled_seller]
     = Raise ValueError
  /\ MirrorTrading.detect_mirror_trading
       (lockstep_group (Unparseable "not-a-date")) = Raise ValueError
  /\ (exists r, MirrorTrading.detect_mirror_trading
                  (lockstep_group (naive_at 0)) = Ok r
                /\ MirrorTrading.total_groups_detected r = 1%nat)
  /\ map BonusAbuse.sc_flags
         (BonusAbuse.suspicious_clients
            (BonusAbuse.run
               (BonusAbuse.detect_bonus_abuse clock_day_99 [undated_signup]
                                              [sole_partner])))
     = [["no_trading_activity"; "immediate_withdrawal"]]
  /\ MirrorTrading.generate_mirror_evidence [undated_signup; example_client]
                                            []
     = Ok {| MirrorTrading.ev_accounts := 2;
             MirrorTrading.ev_total_trades := 0;
             MirrorTrading.ev_instruments := [];
             MirrorTrading.ev_signup_within_days := None |}.
Proof.
  intros set_order.
  split; [vm_compute; reflexivity |].
  split; [vm_compute; reflexivity |].
  split; [vm_compute; reflexivity |].
  split; [eexists; split; vm_compute; reflexivity |].
  split; vm_compute; reflexivity.
Qed.

End ParseFailureRuns.

(* ================================================================== *)
(** * Bonus abuse: runs on the sample snapshots *)
(* ================================================================== *)

Module BonusRuns.
Import BonusAbuse Samples.

(** C7 (defect in the code): for a client in good standing whose record has
    no [is_active] field, the quality score and the partner evidence take
    the account as active, while the conversion rate of the partner rollup
    takes it as inactive: the rate is 0 and the partner is flagged, although
    the same record with [is_active] set to true leaves the partner
    unflagged. *)
Theorem missing_is_active_read_two_ways :
  forall now : nat -> Z,
    m_is_active
      (metrics (run (calculate_client_quality_score now (good_standing None))))
    = true
    /\ run (analyze_partner_referral_quality now [sole_partner]
                                             [good_standing (Some true)]) = []
    /\ exists f : PartnerFinding,
         run (analyze_partner_referral_quality now [sole_partner]
                                               [good_standing None]) = [f]
         /\ suspicious_referrals f = 0%nat
         /\ avg_client_quality f == 100
         /\ conversion_rate f == 0
         /\ pe_inactive (pf_evidence_summary f) = None.
Proof.
  intros now.
  split; [vm_compute; reflexivity |].
  split; [vm_compute; reflexivity |].
  eexists. split; [vm_compute; reflexivity |].
  repeat split; reflexivity.
Qed.

(** The same snapshot, run on day 70 and on day 99, gives two different
    bonus-abuse reports. *)
Lemma bonus_report_depends_on_clock :
  run (detect_bonus_abuse clock_day_70 [undated_signup] [sole_partner])
  <> run (detect_bonus_abuse clock_day_99 [undated_signup] [sole_partner]).
Proof.
  intros H. apply (f_equal total_suspicious_clients) in H.
  vm_compute in H. discriminate H.
Qed.

End BonusRuns.


(* ================================================================== *)
(** * Bonus abuse: the lists of the report *)
(* ================================================================== *)

Module BonusReportFacts.
Import BonusAbuse Package Samples.


Lemma sorted_by_score (l : list SuspiciousClient) :
  Sorted by_score (sort_by sc_quality_score Z.leb l).
Proof.
  apply Sorted_weaken with (R := ordered sc_quality_score Z.leb).
  - intros a b. unfold ordered, by_score. apply Z.leb_le.
  - apply sort_by_sorted, Zleb_total.
Qed.

Lemma sorted_by_ratio (l : list PartnerFinding) :
  Sorted by_ratio_desc (sort_by suspicious_ratio Qgeb l).
Proof.
  apply Sorted_weaken with (R := ordered suspicious_ratio Qgeb).
  - intros a b. unfold ordered, by_ratio_desc. apply Qgeb_ge.
  - apply sort_by_sorted, Qgeb_total.
Qed.

Lemma assess_client_suspicious now (c : Client) (n : nat) :
  Forall (fun a => (sc_quality_score a < 50)%Z) (fst (assess_client now c n)).
Proof.
  unfold assess_client, cbind.
  pose proof (QualityScoreFacts.raw_score now c n) as [Hs Hf].
  destruct (calculate_client_quality_score now c n) as [q n']. cbn [fst] in *.
  destruct (is_suspicious q); unfold ret; cbn [fst]; constructor;
    [| constructor].
  cbn [sc_quality_score]. symmetry in Hf. apply Z.ltb_lt in Hf. lia.
Qed.

Lemma map_clocked_suspicious now (clients : list Client) (n : nat) :
  Forall (fun a => (sc_quality_score a < 50)%Z)
         (concat (fst (map_clocked (assess_client now) clients n))).
Proof.
  revert n. induction clients as [| c clients IH]; intros n; simpl;
    [constructor |].
  unfold cbind.
  pose proof (assess_client_suspicious now c n) as Hc.
  destruct (assess_client now c n) as [es n1]. cbn [fst] in Hc.
  specialize (IH n1).
  destruct (map_clocked (assess_client now) clients n1) as [ess n2].
  unfold ret. cbn [fst concat] in *.
  apply Forall_app. now split.
Qed.


End BonusReportFacts.


(* ================================================================== *)
(** * Determinism *)
(* ================================================================== *)

Module DeterminismFacts.
Import BonusAbuse Package Samples.

Section TwoClocks.
Variables now1 now2 : nat -> Z.

Lemma map_clocked_ext {A B} (f g : A -> Clocked B) (l : list A) :
  Forall (fun x => forall n, f x n = g x n) l ->
  forall n, map_clocked f l n = map_clocked g l n.
Proof.
  induction 1 as [| x l Hx Hall IH]; intros n; simpl; [reflexivity |].
  unfold cbind. rewrite Hx. destruct (g x n) as [y n1].
  rewrite IH. reflexivity.
Qed.

Lemma quality_same_clock (c : Client) :
  reads_clock c = false ->
  forall n, calculate_client_quality_score now1 c n
            = calculate_client_quality_score now2 c n.
Proof.
  intros Hc n. unfold calculate_client_quality_score, cbind.
  assert (forall st,
            check_withdrawal now1 (withdrawal_date c) (signup_date c) st n
            = check_withdrawal now2 (withdrawal_date c) (signup_date c) st n)
    as ->; [| reflexivity].
  intros st. unfold check_withdrawal, reads_clock in *.
  destruct (withdrawal_date c) as [wd |], (signup_date c) as [sd |];
    try reflexivity.
  destruct (truthy (Some wd) && truthy (Some sd)); [| reflexivity].
  destruct wd, sd; try discriminate Hc. reflexivity.
Qed.

Lemma assess_client_same_clock (c : Client) :
  reads_clock c = false ->
  forall n, assess_client now1 c n = assess_client now2 c n.
Proof.
  intros Hc n. unfold assess_client, cbind.
  now rewrite (quality_same_clock c Hc).
Qed.

Lemma assess_partner_same_clock (groups : list (string * list Client))
  (p : Partner) :
  Forall (fun kv => Forall (fun c => reads_clock c = false) (snd kv)) groups ->
  forall n, assess_partner now1 groups p n = assess_partner now2 groups p n.
Proof.
  intros Hg n. unfold assess_partner.
  assert (Forall (fun c => reads_clock c = false)
                 (dict_get (partner_id p) [] groups)) as Hr
    by (apply dict_get_value; [constructor | exact Hg]).
  destruct (dict_get (partner_id p) [] groups) as [| c0 cs] eqn:E;
    [reflexivity |].
  assert (forall n,
            map_clocked (calculate_client_quality_score now1) (c0 :: cs) n
            = map_clocked (calculate_client_quality_score now2) (c0 :: cs) n)
    as Hq.
  { apply map_clocked_ext. eapply List.Forall_impl; [| exact Hr].
    intros c Hc. now apply quality_same_clock. }
  unfold cbind. rewrite Hq.
  destruct (map_clocked (calculate_client_quality_score now2) (c0 :: cs) n)
    as [qs n1].
  destruct (_ || _); [| reflexivity].
  rewrite Hq. reflexivity.
Qed.

Lemma bonus_same_clock (clients : list Client) (partners : list Partner) :
  Forall (fun c => reads_clock c = false) clients ->
  run (detect_bonus_abuse now1 clients partners)
  = run (detect_bonus_abuse now2 clients partners).
Proof.
  intros Hc.
  unfold run, detect_bonus_abuse, detect_bonus_abuse_pattern,
    analyze_partner_referral_quality, cbind.
  rewrite (map_clocked_ext (assess_client now1) (assess_client now2)).
  2:{ eapply List.Forall_impl; [| exact Hc].
      intros c H. now apply assess_client_same_clock. }
  destruct (map_clocked (assess_client now2) clients 0%nat) as [entries n1].
  unfold ret. cbv beta iota.
  rewrite (map_clocked_ext (assess_partner now1 (group_by_partner clients))
                           (assess_partner now2 (group_by_partner clients))).
  2:{ apply Forall_forall. intros p _.
      apply assess_partner_same_clock.
      now apply group_by_partner_members. }
  reflexivity.
Qed.
End TwoClocks.

(** ** Two orders of iteration *)

Lemma for_each_same {A S} (P : S -> S -> Prop)
  (body1 body2 : S -> A -> result S) (l : list A) :
  (forall s1 s2 x, P s1 s2 -> same_outcome P (body1 s1 x) (body2 s2 x)) ->
  forall s1 s2, P s1 s2 ->
    same_outcome P (for_each body1 l s1) (for_each body2 l s2).
Proof.
  intros Hbody. induction l as [| x l IH]; intros s1 s2 Hs; cbn [for_each];
    [exact Hs |].
  specialize (Hbody s1 s2 x Hs).
  destruct (body1 s1 x) as [t1 | e1], (body2 s2 x) as [t2 | e2];
    cbn in Hbody; try contradiction; cbn [rbind].
  - now apply IH.
  - exact Hbody.
Qed.

Section SortSame.
Context {A K : Type} (key : A -> K) (leb : K -> K -> bool).
Variable same : A -> A -> Prop.
Hypothesis same_key : forall a b, same a b -> key a = key b.

Lemma insert_by_same (x y : A) (l1 l2 : list A) :
  same x y -> Forall2 same l1 l2 ->
  Forall2 same (insert_by key leb x l1) (insert_by key leb y l2).
Proof.
  intros Hxy. induction 1 as [| a b l1 l2 Hab Hl IH]; cbn [insert_by].
  - repeat constructor. exact Hxy.
  - rewrite (same_key _ _ Hxy), (same_key _ _ Hab).
    destruct (leb (key y) (key b)); repeat constructor; assumption.
Qed.

Lemma sort_by_same (l1 l2 : list A) :
  Forall2 same l1 l2 ->
  Forall2 same (sort_by key leb l1) (sort_by key leb l2).
Proof.
  induction 1 as [| a b l1 l2 Hab Hl IH]; cbn [sort_by]; [constructor |].
  now apply insert_by_same.
Qed.
End SortSame.

Section TwoOrders.
Import OppositeTrading.
Variables order1 order2 : list string -> list string.
Hypothesis iteration1 : set_iteration order1.
Hypothesis iteration2 : set_iteration order2.

Lemma orders_permuted (l : list string) : Permutation (order1 l) (order2 l).
Proof.
  destruct (iteration1 l) as [Hnd1 Hin1], (iteration2 l) as [Hnd2 Hin2].
  apply NoDup_Permutation; [exact Hnd1 | exact Hnd2 |].
  intros x. now rewrite Hin1, Hin2.
Qed.

Lemma evidence_same (client1 client2 : Client)
  (opposite_pairs : list OppositePair) (timing_corr pnl_corr : Q) :
  same_evidence
    (generate_evidence_summary order1 client1 client2 opposite_pairs
                               timing_corr pnl_corr)
    (generate_evidence_summary order2 client1 client2 opposite_pairs
                               timing_corr pnl_corr).
Proof.
  unfold same_evidence, generate_evidence_summary.
  cbn [ev_num_pairs ev_name_a ev_name_b ev_timing ev_inverse_pnl
       ev_instruments].
  repeat (split; [reflexivity |]).
  destruct opposite_pairs; [constructor | apply orders_permuted].
Qed.

Lemma compare_clients_same (threshold : Q) (partner1 partner2 : string)
  (client1 client2 : Client) (acc1 acc2 : list Finding) :
  Forall2 same_finding acc1 acc2 ->
  same_outcome (Forall2 same_finding)
    (compare_clients order1 threshold partner1 partner2 client1 acc1 client2)
    (compare_clients order2 threshold partner1 partner2 client1 acc2 client2).
Proof.
  intros Hacc. unfold compare_clients.
  destruct (trades client2) as [| t2 ts2]; [exact Hacc |].
  destruct (calculate_timing_correlation _ _ 10) as [timing_corr | e];
    [| reflexivity].
  cbn [rbind].
  destruct (detect_opposite_directions _ _ 10) as [opposite_pairs | e];
    [| reflexivity].
  cbn [rbind].
  destruct (calculate_pnl_correlation _ _) as [pnl_corr | e]; [| reflexivity].
  cbn [rbind]. cbv zeta.
  destruct (Qgeb _ threshold); [| exact Hacc].
  cbn [same_outcome]. apply Forall2_app; [exact Hacc |].
  constructor; [| constructor]. unfold same_finding.
  cbn [scheme_type partner_a partner_b client_a client_b client_a_name
       client_b_name confidence_score timing_correlation
       opposite_trade_ratio pnl_correlation num_opposite_pairs
       total_trades_analyzed estimated_fraud_value top_opposite_pairs
       evidence_summary].
  repeat (split; [reflexivity |]). apply evidence_same.
Qed.

Lemma compare_groups_same (threshold : Q) (partner1 : string)
  (clients1 : list Client) (group2 : string * list Client)
  (acc1 acc2 : list Finding) :
  Forall2 same_finding acc1 acc2 ->
  same_outcome (Forall2 same_finding)
    (compare_groups order1 threshold partner1 clients1 acc1 group2)
    (compare_groups order2 threshold partner1 clients1 acc2 group2).
Proof.
  destruct group2 as [partner2 clients2]. unfold compare_groups.
  apply for_each_same. intros s1 s2 client1 Hs.
  destruct (trades client1); [exact Hs |].
  apply for_each_same; [| exact Hs].
  intros t1 t2 client2. apply compare_clients_same.
Qed.

Lemma scan_partners_same (threshold : Q)
  (groups : list (string * list Client)) :
  forall acc1 acc2 : list Finding,
    Forall2 same_finding acc1 acc2 ->
    same_outcome (Forall2 same_finding)
      (scan_partners order1 threshold groups acc1)
      (scan_partners order2 threshold groups acc2).
Proof.
  induction groups as [| [partner1 clients1] later IH]; intros acc1 acc2 Hacc;
    cbn [scan_partners]; [exact Hacc |].
  pose proof (for_each_same (Forall2 same_finding)
                (compare_groups order1 threshold partner1 clients1)
                (compare_groups order2 threshold partner1 clients1) later
                (fun s1 s2 g => compare_groups_same threshold partner1
                                  clients1 g s1 s2)
                acc1 acc2 Hacc) as Hrow.
  destruct (for_each (compare_groups order1 _ _ _) later acc1) as [r1 | e1],
    (for_each (compare_groups order2 _ _ _) later acc2) as [r2 | e2];
    cbn in Hrow; try contradiction; cbn [rbind].
  - now apply IH.
  - exact Hrow.
Qed.

Lemma detect_opposite_trading_same (clients : list Client) (threshold : Q) :
  same_outcome (Forall2 same_finding)
    (detect_opposite_trading order1 clients threshold)
    (detect_opposite_trading order2 clients threshold).
Proof.
  unfold detect_opposite_trading.
  pose proof (scan_partners_same threshold (group_by_partner clients) [] []
                (List.Forall2_nil _)) as H.
  destruct (scan_partners order1 _ _ []) as [r1 | e1],
    (scan_partners order2 _ _ []) as [r2 | e2];
    cbn in H; try contradiction; cbn [rbind same_outcome]; [| exact H].
  apply sort_by_same; [| exact H].
  intros a b Hab. apply Hab.
Qed.

Lemma involvement_same (found1 found2 : list Finding) :
  Forall2 same_finding found1 found2 ->
  forall d : list (string * Involvement),
    fold_left (fun d scheme =>
                 let d := dict_upd (partner_a scheme) no_involvement
                            (involve (estimated_fraud_value scheme)
                                     (client_a scheme)) d in
                 dict_upd (partner_b scheme) no_involvement
                   (involve (estimated_fraud_value scheme)
                            (client_b scheme)) d)
              found1 d
    = fold_left (fun d scheme =>
                   let d := dict_upd (partner_a scheme) no_involvement
                              (involve (estimated_fraud_value scheme)
                                       (client_a scheme)) d in
                   dict_upd (partner_b scheme) no_involvement
                     (involve (estimated_fraud_value scheme)
                              (client_b scheme)) d)
                found2 d.
Proof.
  induction 1 as [| f1 f2 l1 l2 Hf Hl IH]; intros d; cbn [fold_left];
    [reflexivity |].
  destruct Hf as (_ & Ha & Hb & Hca & Hcb & _ & _ & _ & _ & _ & _ & _ & _
                  & Hv & _).
  cbv zeta. rewrite Ha, Hb, Hca, Hcb, Hv. apply IH.
Qed.

Lemma fraud_values_same (found1 found2 : list Finding) :
  Forall2 same_finding found1 found2 ->
  map estimated_fraud_value found1 = map estimated_fraud_value found2.
Proof.
  induction 1 as [| f1 f2 l1 l2 Hf Hl IH]; cbn [map]; [reflexivity |].
  destruct Hf as (_ & _ & _ & _ & _ & _ & _ & _ & _ & _ & _ & _ & _
                  & Hv & _).
  now rewrite Hv, IH.
Qed.

Lemma analyze_partner_network_same (partners : list Partner)
  (clients : list Client) :
  same_outcome same_network
    (analyze_partner_network order1 partners clients)
    (analyze_partner_network order2 partners clients).
Proof.
  unfold analyze_partner_network.
  pose proof (detect_opposite_trading_same clients default_threshold) as H.
  destruct (detect_opposite_trading order1 _ _) as [found1 | e1],
    (detect_opposite_trading order2 _ _) as [found2 | e2];
    cbn in H; try contradiction; cbn [rbind same_outcome]; [| exact H].
  unfold same_network.
  cbn [total_schemes_detected total_estimated_fraud_value
       partner_involvement report_schemes].
  split; [now apply Forall2_length in H |].
  split; [now rewrite (fraud_values_same _ _ H) |].
  split; [now rewrite (involvement_same _ _ H) | exact H].
Qed.
End TwoOrders.


Lemma insertion_order_iterates : set_iteration insertion_order.
Proof.
  intros l. split; [apply NoDup_remove_dups | apply elem_of_remove_dups].
Qed.

Lemma reverse_order_iterates : set_iteration reverse_order.
Proof.
  intros l. unfold reverse_order. split.
  - rewrite reverse_Permutation. apply NoDup_remove_dups.
  - intros x. rewrite elem_of_reverse. apply elem_of_remove_dups.
Qed.



End DeterminismFacts.


(* ================================================================== *)
(** * Opposite trading: the two-trade scenario *)
(* ================================================================== *)

Module OppositeScenario.
Import OppositeTrading Samples.

Section Scenario.
Variable set_order : list string -> list string.
Variables (cA cB : Client) (tA tB : Trade) (dA dB : datetime).
Hypothesis partners_differ : referred_by cA <> referred_by cB.
Hypothesis one_trade_A : trades cA = [tA].
Hypothesis one_trade_B : trades cB = [tB].
Hypothesis same_instrument : instrument tA = instrument tB.
Hypothesis opposite_directions : direction tA <> direction tB.
Hypothesis volume_A : volume tA == 1.
Hypothesis volume_B : volume tB == 1.
Hypothesis stamp_A : t_timestamp tA = Parsed dA.
Hypothesis stamp_B : t_timestamp tB = Parsed dB.
Hypothesis same_zone : aware dA = aware dB.
Hypothesis two_minutes : Z.abs (instant dA - instant dB) = 120000000%Z.

Lemma scenario_gap : abs_seconds dA dB = Ok (120000000 # 1000000).
Proof.
  unfold abs_seconds, dt_sub. rewrite same_zone, Bool.eqb_reflx. cbn [rbind].
  destruct (Z.abs_eq_or_opp (instant dA - instant dB)) as [H | H];
    rewrite H in two_minutes.
  - rewrite two_minutes. reflexivity.
  - replace (instant dA - instant dB)%Z with (-120000000)%Z by lia.
    reflexivity.
Qed.

Lemma scenario_timing :
  calculate_timing_correlation [tA] [tB] 10
  = Ok (pymin 1 ((0 + (1 - ((120000000 # 1000000) / 60) / inject_Z 10))
                 / inject_Z (Z.of_nat 1))).
Proof.
  unfold calculate_timing_correlation, for_each, timing_step.
  rewrite stamp_A, stamp_B. cbn [parse_timestamp rbind].
  rewrite same_instrument, String.eqb_refl, scenario_gap. cbn [rbind].
  reflexivity.
Qed.

Lemma scenario_pairs :
  exists p, detect_opposite_directions [tA] [tB] 10 = Ok [p].
Proof.
  unfold detect_opposite_directions, for_each, opposite_step.
  rewrite stamp_A, stamp_B. cbn [parse_timestamp rbind].
  rewrite same_instrument, String.eqb_refl.
  apply String.eqb_neq in opposite_directions. rewrite opposite_directions.
  cbn [negb andb]. rewrite scenario_gap. cbn [rbind].
  change (Qle_bool ((120000000 # 1000000) / 60) (inject_Z 10)) with true.
  cbv iota. rewrite pydiv_ok.
  - cbn [rbind app]. eexists. reflexivity.
  - unfold pymax. destruct (Qltb (volume tA) (volume tB)); lra.
Qed.

Lemma scenario_pnl : calculate_pnl_correlation [tA] [tB] = Ok 0.
Proof. reflexivity. Qed.

(** C4, amended: two clients of different partners, one trade each on the
    same instrument, in opposite directions, with volume 1, two minutes
    apart: there is one opposite pair, so opposite_ratio is 1; the
    profit-and-loss correlation is 0, because either side has fewer than two
    trades, and contributes nothing; the timing correlation is 0.8 and
    contributes 0.24; the score is 0.64, which reaches the threshold 0.6, and
    the pair is the one finding reported, in every run. *)
Theorem opposite_scenario_reported :
  exists f : Finding,
    detect_opposite_trading set_order [cA; cB] default_threshold = Ok [f]
    /\ client_a f = client_id cA
    /\ client_b f = client_id cB
    /\ num_opposite_pairs f = 1%nat
    /\ opposite_trade_ratio f == 1
    /\ pnl_correlation f == 0
    /\ timing_correlation f == 8 # 10
    /\ confidence_score f == 64 # 100
    /\ default_threshold <= confidence_score f.
Proof.
  destruct scenario_pairs as [p Hp].
  unfold detect_opposite_trading, group_by_partner. cbn [fold_left].
  unfold dict_append. cbn [dict_upd].
  assert (String.eqb (referred_by cB) (referred_by cA) = false) as ->
    by (apply String.eqb_neq; congruence).
  cbn [app scan_partners for_each compare_groups rbind].
  rewrite one_trade_A. cbn [for_each].
  unfold compare_clients. rewrite one_trade_A, one_trade_B.
  rewrite scenario_timing, Hp, scenario_pnl. cbn [rbind length Nat.min].
  eexists. split; [reflexivity |].
  repeat split; try reflexivity. discriminate.
Qed.
End Scenario.

Lemma opposite_scenario_reported_witness :
  exists f : Finding,
    detect_opposite_trading insertion_order [buyer; seller] default_threshold
    = Ok [f]
    /\ client_a f = "A"%string
    /\ client_b f = "B"%string
    /\ num_opposite_pairs f = 1%nat
    /\ opposite_trade_ratio f == 1
    /\ pnl_correlation f == 0
    /\ timing_correlation f == 8 # 10
    /\ confidence_score f == 64 # 100
    /\ default_threshold <= confidence_score f.
Proof.
  apply (opposite_scenario_reported insertion_order buyer seller
           (eurusd "T1" "A" (naive_at 0) "BUY" 100)
           (eurusd "T2" "B" (naive_at 120) "SELL" (-100))
           {| instant := 0; aware := false |}
           {| instant := 120000000; aware := false |});
    try reflexivity; discriminate.
Defined.

End OppositeScenario.


(* ================================================================== *)
(** * Mirror trading: matching, matrix and clusters *)
(* ================================================================== *)

Module MirrorFacts.
Import MirrorTrading MirrorInvariants Samples.

Section Matching.
Variables (time_window_minutes : Z) (min_similarity : Q).
Variable trades2 : list Trade.

Lemma scan_candidates_ok (used_indices : gset nat) (t1 : Trade)
  (rest : list Trade) :
  forall (idx : nat) (best best' : Best),
    (forall k t, rest !! k = Some t -> trades2 !! (idx + k)%nat = Some t) ->
    candidate_ok trades2 used_indices best ->
    scan_candidates time_window_minutes used_indices t1 idx rest best
    = Ok best' ->
    candidate_ok trades2 used_indices best'.
Proof.
  induction rest as [| t2 rest IH]; intros idx best best' Hpos Hbest H;
    simpl in H.
  - now injection H as <-.
  - assert (forall k t, rest !! k = Some t ->
                        trades2 !! (Datatypes.S idx + k)%nat = Some t) as Hrest.
    { intros k t Hk. specialize (Hpos (Datatypes.S k) t Hk).
      now replace (Datatypes.S idx + k)%nat
        with (idx + Datatypes.S k)%nat by lia. }
    destruct (bool_decide (idx ∈ used_indices)) eqn:Eu.
    + eapply IH; eauto.
    + destruct (calculate_trade_similarity t1 t2 time_window_minutes)
        as [sim |]; [| discriminate].
      cbn [rbind] in H. eapply IH; [exact Hrest | | exact H].
      destruct (Qltb (best_similarity best) sim); [| exact Hbest].
      unfold candidate_ok. cbn [best_match best_idx].
      rewrite Nat2Z.id. split; [lia |]. split.
      * now apply bool_decide_eq_false in Eu.
      * specialize (Hpos 0%nat t2 eq_refl). now rewrite Nat.add_0_r in Hpos.
Qed.

Lemma match_step_inv (k : nat) (state state' : list Match * gset nat)
  (t1 : Trade) :
  matching_inv trades2 k state ->
  match_step time_window_minutes min_similarity trades2 state t1 = Ok state' ->
  matching_inv trades2 (S k) state'.
Proof.
  destruct state as [matches used]. intros [Hlen [idxs [Hnd [Hat Hused]]]] H.
  cbn [fst snd] in *.
  assert (matching_inv trades2 (S k) (matches, used)) as Hsame.
  { split; [cbn [fst]; lia |]. exists idxs. auto. }
  unfold match_step in H.
  destruct (scan_candidates _ _ _ _ _ _) as [best |] eqn:Es; [| discriminate].
  cbn [rbind] in H.
  apply scan_candidates_ok in Es; [| intros k0 t Hk; exact Hk | exact I].
  unfold candidate_ok in Es.
  destruct (best_match best) as [t2 |]; [| now injection H as <-].
  destruct Es as [Hpos [Hfresh Hat2]].
  destruct (0 <=? best_idx best)%Z; [| now injection H as <-].
  injection H as <-. split; cbn [fst snd].
  - rewrite length_app. cbn [length]. lia.
  - exists (idxs ++ [Z.to_nat (best_idx best)]). split; [| split].
    + apply NoDup_app. split; [exact Hnd |]. split.
      * intros i Hi Hi'. apply list_elem_of_singleton in Hi'. subst i.
        apply Hfresh, Hused, Hi.
      * apply NoDup_singleton.
    + apply Forall2_app; [exact Hat |]. repeat constructor. exact Hat2.
    + intros i. rewrite elem_of_union, elem_of_singleton, elem_of_app,
        list_elem_of_singleton, Hused. reflexivity.
Qed.

Lemma matching_loop_inv (trades1 : list Trade)
  (state : list Match * gset nat) :
  matching_loop trades1 trades2 time_window_minutes min_similarity = Ok state ->
  matching_inv trades2 (length trades1) state.
Proof.
  intros H. unfold matching_loop in H.
  apply (for_each_count (matching_inv trades2)) with (k := 0%nat) in H;
    [exact H | |].
  - intros k s x s'. apply match_step_inv.
  - split; [cbn; lia |]. exists []. split; [constructor |].
    split; [constructor |]. intros i. set_solver.
Qed.

Lemma matched_at_bound (idxs : list nat) (matches : list Match) :
  NoDup idxs -> matched_at trades2 idxs matches ->
  (length matches <= length trades2)%nat.
Proof.
  intros Hnd Hat. rewrite <- (Forall2_length _ _ _ Hat).
  assert (incl idxs (seq 0 (length trades2))) as Hincl.
  { intros i Hi. apply in_seq. split; [lia |]. cbn.
    apply list_elem_of_In, list_elem_of_lookup in Hi. destruct Hi as [p Hp].
    destruct (Forall2_lookup_l _ _ _ _ _ Hat Hp) as [m [_ Hm]].
    eapply lookup_lt_Some, Hm. }
  apply NoDup_incl_length in Hincl; [| now apply NoDup_ListNoDup].
  now rewrite length_seq in Hincl.
Qed.
End Matching.

Lemma find_matching_trades_bounds (trades1 trades2 : list Trade) (w : Z)
  (s : Q) (matches : list Match) :
  find_matching_trades trades1 trades2 w s = Ok matches ->
  (exists idxs : list nat, NoDup idxs /\ matched_at trades2 idxs matches)
  /\ (length matches <= Nat.min (length trades1) (length trades2))%nat.
Proof.
  unfold find_matching_trades. intros H.
  destruct (matching_loop trades1 trades2 w s) as [state |] eqn:E;
    [| discriminate].
  injection H as <-.
  apply matching_loop_inv in E. destruct E as [Hlen [idxs [Hnd [Hat _]]]].
  split; [now exists idxs |].
  pose proof (matched_at_bound trades2 idxs _ Hnd Hat). lia.
Qed.

Lemma Qlen_le {A B} (l : list A) (l' : list B) :
  (length l <= length l')%nat -> Qlen l <= Qlen l'.
Proof. intros H. unfold Qlen. rewrite <- Zle_Qle. lia. Qed.

Lemma match_ratio_unit (matches : list Match) (trades1 trades2 : list Trade) :
  (length matches <= Nat.min (length trades1) (length trades2))%nat ->
  0 <= match_ratio_of matches trades1 trades2 <= 1.
Proof.
  intros H. unfold match_ratio_of.
  destruct (0 <? Nat.min (length trades1) (length trades2))%nat eqn:E;
    [| lra].
  apply Nat.ltb_lt in E.
  set (m := Nat.min (length trades1) (length trades2)) in *.
  assert (0 < inject_Z (Z.of_nat m)) as Hm
    by (change 0 with (inject_Z 0); rewrite <- Zlt_Qlt; lia).
  assert (0 <= Qlen matches <= inject_Z (Z.of_nat m)) as [H0 H1].
  { unfold Qlen. change 0 with (inject_Z 0). rewrite <- !Zle_Qle. lia. }
  split.
  - apply Qle_shift_div_l; [exact Hm | lra].
  - apply Qle_shift_div_r; [exact Hm | lra].
Qed.

(** ** The similarity matrix *)

Lemma cell_zeros (n a b : nat) : cell (replicate n (replicate n 0)) a b = 0.
Proof.
  unfold cell. destruct (_ !! a) as [row |] eqn:E; [| reflexivity].
  apply lookup_replicate in E as [-> _].
  destruct (_ !! b) as [x |] eqn:E'; [| reflexivity].
  now apply lookup_replicate in E' as [-> _].
Qed.

Lemma square_zeros (n : nat) : square n (replicate n (replicate n 0)).
Proof.
  split; [apply length_replicate |].
  apply Forall_replicate, length_replicate.
Qed.

Lemma set_cell_square (n : nat) (m : matrix) (i j : nat) (x : Q) :
  square n m -> square n (set_cell m i j x).
Proof.
  intros [Hlen Hrows]. unfold set_cell.
  destruct (m !! i) as [row |] eqn:E; [| now split].
  split; [now rewrite length_insert |].
  apply Forall_insert; [exact Hrows |].
  rewrite length_insert.
  rewrite List.Forall_forall in Hrows. apply Hrows.
  apply list_elem_of_In, list_elem_of_lookup. eauto.
Qed.

Lemma cell_set_cell (n : nat) (m : matrix) (i j : nat) (x : Q) (a b : nat) :
  square n m -> (i < n)%nat -> (j < n)%nat ->
  cell (set_cell m i j x) a b
  = if decide (a = i /\ b = j) then x else cell m a b.
Proof.
  intros [Hlen Hrows] Hi Hj. unfold set_cell.
  destruct (m !! i) as [row |] eqn:E.
  2:{ apply lookup_ge_None in E. lia. }
  assert (length row = n) as Hrow.
  { rewrite List.Forall_forall in Hrows. apply Hrows.
    apply list_elem_of_In, list_elem_of_lookup. eauto. }
  unfold cell. destruct (decide (a = i)) as [-> | Hne].
  - rewrite list_lookup_insert_eq by lia. rewrite E.
    destruct (decide (b = j)) as [-> | Hne'].
    + rewrite list_lookup_insert_eq by lia.
      now rewrite decide_True by auto.
    + rewrite list_lookup_insert_ne by auto.
      now rewrite decide_False by tauto.
  - rewrite list_lookup_insert_ne by auto.
    now rewrite decide_False by tauto.
Qed.

Lemma fill_cell_inv (partner_client_list : list Client) (i j : nat)
  (m m' : matrix) :
  let n := length partner_client_list in
  (i < n)%nat -> (j < n)%nat -> i <> j ->
  matrix_inv n m ->
  fill_cell partner_client_list i m j = Ok m' ->
  matrix_inv n m'.
Proof.
  intros n Hi Hj Hij [Hsq [Hsym Hunit]] H. unfold fill_cell in H.
  destruct (trades_at partner_client_list i) as [trades1 |]; [| discriminate].
  destruct (trades_at partner_client_list j) as [trades2 |]; [| discriminate].
  cbn [rbind] in H.
  destruct (find_matching_trades trades1 trades2 default_window
                                 default_min_similarity)
    as [matches |] eqn:E; [| discriminate].
  cbn [rbind] in H. injection H as <-.
  apply find_matching_trades_bounds in E as [_ Hlen].
  pose proof (match_ratio_unit matches trades1 trades2 Hlen) as Hr.
  set (r := match_ratio_of matches trades1 trades2) in *.
  assert (square n (set_cell m i j r)) as Hsq1 by now apply set_cell_square.
  assert (forall a b,
            cell (set_cell (set_cell m i j r) j i r) a b
            = if decide (a = j /\ b = i) then r
              else if decide (a = i /\ b = j) then r else cell m a b) as Hcell.
  { intros a b. rewrite (cell_set_cell n) by assumption.
    destruct (decide (a = j /\ b = i)); [reflexivity |].
    now apply (cell_set_cell n). }
  split; [now apply set_cell_square |]. split.
  - intros a b. rewrite !Hcell.
    repeat case_decide; try reflexivity; try (exfalso; lia). apply Hsym.
  - intros a b. rewrite Hcell. repeat case_decide; auto.
Qed.

Lemma build_matrix_inv (partner_client_list : list Client) (m : matrix) :
  build_matrix partner_client_list = Ok m ->
  matrix_inv (length partner_client_list) m.
Proof.
  unfold build_matrix. set (n := length partner_client_list).
  apply for_each_inv.
  - intros m0 i m1 Hi Hm0. apply for_each_inv; [| exact Hm0].
    intros m2 j m3 Hj Hm2. unfold range_from in Hj.
    apply in_seq in Hi. apply in_seq in Hj.
    apply fill_cell_inv; [lia | lia | lia | exact Hm2].
  - split; [apply square_zeros |]. split.
    + intros a b. now rewrite !cell_zeros.
    + intros a b. rewrite cell_zeros. lra.
Qed.

(** ** Clusters *)

Lemma cluster_pairs_length (cluster : list nat) :
  (2 * Z.of_nat (length (cluster_pairs cluster))
   = Z.of_nat (length cluster) * (Z.of_nat (length cluster) - 1))%Z.
Proof.
  induction cluster as [| a rest IH]; [reflexivity |].
  cbn [cluster_pairs length]. rewrite length_app, length_map. lia.
Qed.

Lemma cluster_pairs_count (cluster : list nat) :
  Qlen (cluster_pairs cluster) == pair_count cluster.
Proof.
  pose proof (cluster_pairs_length cluster) as H.
  unfold pair_count, Qlen.
  set (p := Z.of_nat (length (cluster_pairs cluster))) in *.
  set (k := Z.of_nat (length cluster)) in *.
  assert (2 * inject_Z p == inject_Z k * (inject_Z k - 1)) as Hq.
  { change 2 with (inject_Z 2). change 1 with (inject_Z 1).
    unfold Qminus. rewrite <- inject_Z_opp, <- inject_Z_plus, <- !inject_Z_mult.
    now rewrite H. }
  rewrite <- Hq. field.
Qed.

Lemma cluster_confidence_unit (m : matrix) (cluster : list nat) :
  unit_cells m -> 0 <= cluster_confidence m cluster <= 1.
Proof.
  intros Hm. unfold cluster_confidence. apply round_ndigits_unit.
  assert (0 <= pair_sum m cluster <= pair_count cluster) as [Hs0 Hs1].
  { rewrite <- cluster_pairs_count. unfold pair_sum.
    set (cells := map (fun p => cell m (fst p) (snd p))
                      (cluster_pairs cluster)).
    assert (Qlen (cluster_pairs cluster) = Qlen cells) as ->
      by (unfold Qlen, cells; now rewrite length_map).
    apply Qsum_unit.
    apply List.Forall_map, List.Forall_forall. intros p _. apply Hm. }
  assert (1 <= pymax 1 (pair_count cluster)
          /\ pair_count cluster <= pymax 1 (pair_count cluster)) as [Hd1 Hd2].
  { unfold pymax. destruct (Qltb 1 (pair_count cluster)) eqn:E.
    - apply Qltb_lt in E. lra.
    - apply Qltb_ge in E. lra. }
  split.
  - apply Qle_shift_div_l; lra.
  - apply Qle_shift_div_r; lra.
Qed.

Lemma ordpairs_snoc {A} (R : A -> A -> Prop) (l : list A) (x : A) :
  ForallOrdPairs R l -> Forall (fun k => R k x) l ->
  ForallOrdPairs R (l ++ [x]).
Proof.
  induction 1 as [| a l Ha Hl IH]; intros Hx; cbn [app].
  - repeat constructor.
  - inversion Hx; subst. constructor; [| now apply IH].
    apply Forall_app. split; [exact Ha | now repeat constructor].
Qed.

Section Growth.
Variables (m : matrix) (min_mirror_ratio : Q) (clustered : gset nat).

Lemma grow_step_pairs (cluster : list nat) (j : nat) :
  ForallOrdPairs (admitted m min_mirror_ratio) cluster ->
  ForallOrdPairs (admitted m min_mirror_ratio)
                 (grow_step m min_mirror_ratio clustered cluster j).
Proof.
  intros H. unfold grow_step.
  destruct (bool_decide (j ∈ clustered)); [exact H |].
  destruct (forallb _ cluster) eqn:E; [| exact H].
  apply ordpairs_snoc; [exact H |].
  apply List.Forall_forall. intros k Hk.
  rewrite forallb_forall in E. apply Qgeb_ge, E, Hk.
Qed.

Lemma grow_step_sublist (cluster seen : list nat) (j : nat) :
  sublist cluster seen ->
  sublist (grow_step m min_mirror_ratio clustered cluster j) (seen ++ [j]).
Proof.
  intros H. unfold grow_step.
  destruct (bool_decide (j ∈ clustered)); [now apply sublist_inserts_r |].
  destruct (forallb _ cluster); [| now apply sublist_inserts_r].
  now apply sublist_app.
Qed.

Lemma grow_fold (todo : list nat) :
  forall cluster seen : list nat,
    ForallOrdPairs (admitted m min_mirror_ratio) cluster ->
    sublist cluster seen ->
    let grown := fold_left (grow_step m min_mirror_ratio clustered) todo
                           cluster in
    ForallOrdPairs (admitted m min_mirror_ratio) grown
    /\ sublist grown (seen ++ todo).
Proof.
  induction todo as [| j todo IH]; intros cluster seen Hp Hs; cbn [fold_left].
  - now rewrite app_nil_r.
  - replace (seen ++ j :: todo) with ((seen ++ [j]) ++ todo)
      by now rewrite <- app_assoc.
    apply IH; [now apply grow_step_pairs | now apply grow_step_sublist].
Qed.

Lemma grow_cluster_spec (i n : nat) :
  let cluster := grow_cluster m min_mirror_ratio clustered i n in
  ForallOrdPairs (admitted m min_mirror_ratio) cluster
  /\ sublist cluster (i :: range_from i n).
Proof.
  unfold grow_cluster. apply (grow_fold (range_from i n) [i] [i]).
  - repeat constructor.
  - reflexivity.
Qed.

Lemma grow_cluster_NoDup (i n : nat) :
  NoDup (grow_cluster m min_mirror_ratio clustered i n).
Proof.
  eapply sublist_NoDup; [| apply (proj2 (grow_cluster_spec i n))].
  unfold range_from.
  change (i :: seq (S i) (n - S i)) with (seq i (S (n - S i))).
  apply NoDup_seq.
Qed.

Lemma grow_cluster_range (i n : nat) :
  (i < n)%nat ->
  Forall (fun a => (a < n)%nat) (grow_cluster m min_mirror_ratio clustered i n).
Proof.
  intros Hi. apply List.Forall_forall. intros a Ha.
  apply list_elem_of_In in Ha.
  eapply elem_of_sublist in Ha; [| apply (proj2 (grow_cluster_spec i n))].
  apply list_elem_of_In in Ha. unfold range_from in Ha.
  destruct Ha as [<- | Ha]; [exact Hi |]. apply in_seq in Ha. lia.
Qed.

Lemma grow_cluster_valid (i n : nat) :
  symmetric m ->
  forall a b : nat,
    In a (grow_cluster m min_mirror_ratio clustered i n) ->
    In b (grow_cluster m min_mirror_ratio clustered i n) ->
    a <> b -> min_mirror_ratio <= cell m a b.
Proof.
  intros Hsym a b Ha Hb Hab.
  destruct (grow_cluster_spec i n) as [Hp _].
  destruct (ForallOrdPairs_In Hp a b Ha Hb) as [H | [H | H]];
    [contradiction | | exact H].
  unfold admitted in H. now rewrite Hsym.
Qed.
End Growth.

(** ** Where a reported group comes from *)

Lemma make_group_fields (partner_id : string)
  (partner_client_list : list Client) (m : matrix) (cluster : list nat)
  (g : Finding) :
  make_group partner_id partner_client_list m cluster = Ok g ->
  f_partner_id g = partner_id
  /\ group_size g = length cluster
  /\ client_ids g = map client_id (members partner_client_list cluster)
  /\ confidence_score g = cluster_confidence m cluster.
Proof.
  unfold make_group. intros H.
  destruct (generate_mirror_evidence _ _) as [evidence |]; [| discriminate].
  injection H as <-. repeat split.
Qed.

Section Provenance.
Variables (min_group_size : nat) (min_mirror_ratio : Q).
Variable partner_clients : list (string * list Client).

Lemma cluster_step_from (partner_id : string)
  (partner_client_list : list Client) (m : matrix)
  (state state' : list Finding * gset nat) (i : nat) :
  In (partner_id, partner_client_list) partner_clients ->
  build_matrix partner_client_list = Ok m ->
  (i < length partner_client_list)%nat ->
  Forall (grown_from min_mirror_ratio partner_clients) (fst state) ->
  cluster_step partner_id partner_client_list m min_group_size
               min_mirror_ratio state i = Ok state' ->
  Forall (grown_from min_mirror_ratio partner_clients) (fst state').
Proof.
  intros Hin Hm Hi Hst H. destruct state as [groups clustered].
  unfold cluster_step in H. cbn [fst] in Hst.
  destruct (bool_decide (i ∈ clustered)); [now injection H as <- |].
  destruct (min_group_size <=? _)%nat; [| now injection H as <-].
  destruct (make_group _ _ _ _) as [g |] eqn:Eg; [| discriminate].
  injection H as <-. cbn [fst]. apply Forall_app. split; [exact Hst |].
  repeat constructor.
  exists partner_id, partner_client_list, m, clustered, i. auto.
Qed.

Lemma partner_step_from (groups groups' : list Finding)
  (entry : string * list Client) :
  In entry partner_clients ->
  Forall (grown_from min_mirror_ratio partner_clients) groups ->
  partner_step min_group_size min_mirror_ratio groups entry = Ok groups' ->
  Forall (grown_from min_mirror_ratio partner_clients) groups'.
Proof.
  destruct entry as [partner_id partner_client_list]. intros Hin Hg H.
  unfold partner_step in H.
  destruct (length partner_client_list <? min_group_size)%nat;
    [now injection H as <- |].
  destruct (build_matrix partner_client_list) as [m |] eqn:Em; [| discriminate].
  cbn [rbind] in H.
  destruct (for_each _ _ _) as [state |] eqn:Es; [| discriminate].
  injection H as <-.
  revert Es.
  apply (for_each_inv
           (fun s => Forall (grown_from min_mirror_ratio partner_clients)
                            (fst s))); [| exact Hg].
  intros s i s' Hi Hs. apply in_seq in Hi.
  apply cluster_step_from; [exact Hin | exact Em | lia | exact Hs].
Qed.
End Provenance.

Lemma detect_mirror_group_from (clients : list Client) (min_group_size : nat)
  (min_mirror_ratio : Q) (groups : list Finding) :
  detect_mirror_group clients min_group_size min_mirror_ratio = Ok groups ->
  Forall (grown_from min_mirror_ratio (active_groups clients)) groups.
Proof.
  unfold detect_mirror_group. fold (active_groups clients). intros H.
  destruct (for_each _ _ _) as [found |] eqn:E; [| discriminate].
  injection H as <-.
  eapply Permutation_Forall; [symmetry; apply sort_by_perm |].
  revert E. apply for_each_inv; [| constructor].
  intros s entry s' Hin Hs. now apply partner_step_from.
Qed.

(** ** The matching returns *)

Section Returns.
Variables (z : bool) (time_window_minutes : Z).
Hypothesis positive_window : (0 < time_window_minutes)%Z.

Lemma similarity_returns (t1 t2 : Trade) :
  well_formed z t1 -> well_formed z t2 ->
  exists q, calculate_trade_similarity t1 t2 time_window_minutes = Ok q.
Proof.
  intros [Hv1 [d1 [Hd1 Hz1]]] [Hv2 [d2 [Hd2 Hz2]]].
  unfold calculate_trade_similarity.
  rewrite pydiv_ok.
  2:{ unfold pymax. destruct (Qltb (volume t1) (volume t2)); lra. }
  cbn [rbind]. rewrite Hd1, Hd2. cbn [parse_timestamp rbind].
  unfold dt_sub. rewrite Hz1, Hz2, Bool.eqb_reflx. cbn [rbind].
  destruct (Qle_bool _ _); [| eauto].
  rewrite pydiv_ok; [cbn [rbind]; eauto |].
  intros H. unfold Qeq in H. simpl in H. lia.
Qed.

Lemma scan_candidates_returns (used_indices : gset nat) (t1 : Trade)
  (rest : list Trade) :
  well_formed z t1 -> Forall (well_formed z) rest ->
  forall idx best,
    exists best',
      scan_candidates time_window_minutes used_indices t1 idx rest best
      = Ok best'.
Proof.
  intros H1. induction 1 as [| t2 rest H2 Hrest IH]; intros idx best;
    cbn [scan_candidates]; [eauto |].
  destruct (bool_decide (idx ∈ used_indices)); [apply IH |].
  destruct (similarity_returns t1 t2 H1 H2) as [q ->]. cbn [rbind]. apply IH.
Qed.

Lemma matching_loop_returns (min_similarity : Q)
  (trades1 trades2 : list Trade) :
  Forall (well_formed z) trades1 -> Forall (well_formed z) trades2 ->
  exists state,
    matching_loop trades1 trades2 time_window_minutes min_similarity = Ok state.
Proof.
  intros H1 H2. unfold matching_loop.
  generalize (@nil Match, @empty (gset nat) _).
  induction H1 as [| t1 trades1 Ht1 Hrest IH]; intros state; cbn [for_each];
    [eauto |].
  destruct state as [matches used]. unfold match_step at 1.
  destruct (scan_candidates_returns used t1 trades2 Ht1 H2 0%nat
              {| best_match := None; best_similarity := min_similarity;
                 best_idx := -1 |}) as [best ->].
  cbn [rbind].
  destruct (best_match best); [destruct (0 <=? best_idx best)%Z |];
    cbn [rbind]; apply IH.
Qed.
End Returns.

(** ** The detector returns *)

Section Tidy.
Variable z : bool.

Lemma find_matching_trades_returns (trades1 trades2 : list Trade) :
  Forall (well_formed z) trades1 -> Forall (well_formed z) trades2 ->
  exists matches,
    find_matching_trades trades1 trades2 default_window default_min_similarity
    = Ok matches.
Proof.
  intros H1 H2. unfold find_matching_trades.
  destruct (matching_loop_returns z default_window eq_refl
              default_min_similarity trades1 trades2 H1 H2) as [state ->].
  cbn [rbind]. eauto.
Qed.

Lemma fill_cell_returns (partner_client_list : list Client) (i j : nat)
  (m : matrix) :
  Forall (tidy z) partner_client_list ->
  (i < length partner_client_list)%nat ->
  (j < length partner_client_list)%nat ->
  exists m', fill_cell partner_client_list i m j = Ok m'.
Proof.
  intros Hall Hi Hj. unfold fill_cell, trades_at.
  destruct (lookup_lt_is_Some_2 partner_client_list i Hi) as [ci Hci].
  destruct (lookup_lt_is_Some_2 partner_client_list j Hj) as [cj Hcj].
  rewrite Hci, Hcj. cbn [rbind].
  rewrite List.Forall_forall in Hall.
  destruct (find_matching_trades_returns (trades ci) (trades cj)) as [ms ->].
  - apply Hall, list_elem_of_In, list_elem_of_lookup. eauto.
  - apply Hall, list_elem_of_In, list_elem_of_lookup. eauto.
  - cbn [rbind]. eauto.
Qed.

Lemma build_matrix_returns (partner_client_list : list Client) :
  Forall (tidy z) partner_client_list ->
  exists m, build_matrix partner_client_list = Ok m.
Proof.
  intros Hall. unfold build_matrix.
  destruct (for_each_returns (fun _ => True)
              (fun m i => for_each (fill_cell partner_client_list i)
                            (range_from i (length partner_client_list)) m)
              (seq 0 (length partner_client_list))) with
    (s := replicate (length partner_client_list)
                    (replicate (length partner_client_list) 0))
    as [m [Hm _]]; [| exact I | eauto].
  intros m i Hi _. apply in_seq in Hi.
  apply (for_each_returns (fun _ => True)); [| exact I].
  intros m' j Hj _. unfold range_from in Hj. apply in_seq in Hj.
  destruct (fill_cell_returns partner_client_list i j m' Hall) as [m'' ->];
    [lia | lia | eauto].
Qed.

Lemma extreme_returns (better : Z -> Z -> bool) (others : list datetime) :
  Forall (fun d => aware d = z) others ->
  forall first, aware first = z ->
    exists d, extreme better first others = Ok d /\ aware d = z.
Proof.
  unfold extreme.
  induction 1 as [| d others Hd Hall IH]; intros first Hf; cbn [for_each];
    [eauto |].
  rewrite Hf, Hd, Bool.eqb_reflx. cbn [rbind].
  apply IH. now destruct (better _ _).
Qed.

Lemma signup_dates_kind (clients : list Client) :
  Forall (tidy z) clients ->
  Forall (fun d => aware d = z)
         (flat_map (fun c =>
                      match parse_timestamp
                              (get (signup_date c) (Unparseable "")) with
                      | Ok d => [d]
                      | Raise _ => []
                      end) clients).
Proof.
  induction 1 as [| c clients [_ Hc] Hall IH]; cbn [flat_map]; [constructor |].
  apply Forall_app. split; [| exact IH].
  destruct (signup_date c) as [[d |] |]; cbn; repeat constructor. exact Hc.
Qed.

Lemma generate_mirror_evidence_returns (clients : list Client)
  (top_instruments : list (string * nat)) :
  Forall (tidy z) clients ->
  exists e, generate_mirror_evidence clients top_instruments = Ok e.
Proof.
  intros Hall. unfold generate_mirror_evidence.
  pose proof (signup_dates_kind clients Hall) as Hk.
  destruct (flat_map _ clients) as [| d0 [| d1 rest]]; cbn [rbind]; eauto.
  apply List.Forall_cons_iff in Hk as [H0 Hrest].
  destruct (extreme_returns Z.gtb (d1 :: rest) Hrest d0 H0) as [hi [-> Hhi]].
  destruct (extreme_returns Z.ltb (d1 :: rest) Hrest d0 H0) as [lo [-> Hlo]].
  cbn [rbind]. unfold dt_sub. rewrite Hhi, Hlo, Bool.eqb_reflx.
  cbn [rbind]. eauto.
Qed.

Lemma members_tidy (partner_client_list : list Client) (cluster : list nat) :
  Forall (tidy z) partner_client_list ->
  Forall (tidy z) (members partner_client_list cluster).
Proof.
  intros Hall. unfold members. apply List.Forall_flat_map.
  apply List.Forall_forall. intros idx _.
  destruct (partner_client_list !! idx) as [c |] eqn:E; [| constructor].
  constructor; [| constructor]. rewrite List.Forall_forall in Hall.
  apply Hall, list_elem_of_In, list_elem_of_lookup. eauto.
Qed.

Lemma make_group_returns (partner_id : string)
  (partner_client_list : list Client) (m : matrix) (cluster : list nat) :
  Forall (tidy z) partner_client_list ->
  exists g, make_group partner_id partner_client_list m cluster = Ok g.
Proof.
  intros Hall. unfold make_group.
  destruct (generate_mirror_evidence_returns
              (members partner_client_list cluster)
              (take 3 (sort_by (fun x : string * nat => (- Z.of_nat (snd x))%Z)
                         Z.leb
                         (fold_left
                            (fun d t => dict_upd (instrument t) 0%nat S d)
                            (flat_map trades
                               (members partner_client_list cluster)) []))))
    as [e ->]; [now apply members_tidy |].
  cbn [rbind]. eauto.
Qed.

Lemma partner_step_returns (min_group_size : nat) (min_mirror_ratio : Q)
  (groups : list Finding) (entry : string * list Client) :
  Forall (tidy z) (snd entry) ->
  exists groups',
    partner_step min_group_size min_mirror_ratio groups entry = Ok groups'.
Proof.
  destruct entry as [partner_id partner_client_list]. cbn [snd]. intros Hall.
  unfold partner_step.
  destruct (length partner_client_list <? min_group_size)%nat; [eauto |].
  destruct (build_matrix_returns partner_client_list Hall) as [m ->].
  cbn [rbind].
  destruct (for_each_returns (fun _ => True)
              (cluster_step partner_id partner_client_list m min_group_size
                            min_mirror_ratio)
              (seq 0 (length partner_client_list)))
    with (s := (groups, @empty (gset nat) _))
    as [state [-> _]]; [| exact I | cbn [rbind]; eauto].
  intros [gs clustered] i _ _. unfold cluster_step.
  destruct (bool_decide (i ∈ clustered)); [eauto |].
  destruct (min_group_size <=? _)%nat; [| eauto].
  destruct (make_group_returns partner_id partner_client_list m
              (grow_cluster m min_mirror_ratio clustered i
                            (length partner_client_list)) Hall) as [g ->].
  cbn [rbind]. eauto.
Qed.

Lemma detect_mirror_group_returns (clients : list Client)
  (min_group_size : nat) (min_mirror_ratio : Q) :
  Forall (tidy z) clients ->
  exists groups,
    detect_mirror_group clients min_group_size min_mirror_ratio = Ok groups.
Proof.
  intros Hall. unfold detect_mirror_group.
  assert (Forall (fun kv => Forall (tidy z) (snd kv))
                 (group_by_partner
                    (filter (fun c => (10 <= length (trades c))%nat) clients)))
    as Hg.
  { apply group_by_partner_members. rewrite List.Forall_forall in *.
    intros c Hc. apply Hall.
    apply list_elem_of_In, list_elem_of_filter in Hc as [_ Hc].
    now apply list_elem_of_In. }
  destruct (for_each_returns (fun _ => True)
              (partner_step min_group_size min_mirror_ratio)
              (group_by_partner
                 (filter (fun c => (10 <= length (trades c))%nat) clients)))
    with (s := @nil Finding) as [groups [-> _]];
    [| exact I | cbn [rbind]; eauto].
  intros gs entry Hin _. rewrite List.Forall_forall in Hg.
  destruct (partner_step_returns min_group_size min_mirror_ratio gs entry
              (Hg entry Hin)) as [gs' ->]. eauto.
Qed.
End Tidy.

(** C5: every group that the mirror-trading detector returns was made from
    a cluster of distinct clients of one partner group, and in the
    similarity matrix built for that group the similarity of every member
    to every other member is at least [min_mirror_ratio] (0.5 by default);
    and on a snapshot of tidy records the detector does return. *)
Theorem mirror_clusters_are_cliques :
  (forall (z : bool) (clients : list Client) (min_group_size : nat)
          (min_mirror_ratio : Q),
      Forall (tidy z) clients ->
      exists groups : list Finding,
        detect_mirror_group clients min_group_size min_mirror_ratio = Ok groups)
  /\ forall (clients : list Client) (min_group_size : nat)
            (min_mirror_ratio : Q) (groups : list Finding),
      detect_mirror_group clients min_group_size min_mirror_ratio = Ok groups ->
      forall g : Finding, In g groups ->
        exists (partner_client_list : list Client) (similarity_matrix : matrix)
               (cluster : list nat),
          In (f_partner_id g, partner_client_list) (active_groups clients)
          /\ build_matrix partner_client_list = Ok similarity_matrix
          /\ NoDup cluster
          /\ Forall (fun a => (a < length partner_client_list)%nat) cluster
          /\ client_ids g = map client_id (members partner_client_list cluster)
          /\ group_size g = length cluster
          /\ forall a b : nat,
               In a cluster -> In b cluster -> a <> b ->
               min_mirror_ratio <= cell similarity_matrix a b.
Proof.
  split; [intros z; apply detect_mirror_group_returns |].
  intros clients min_group_size min_mirror_ratio groups H g Hg.
  apply detect_mirror_group_from in H.
  rewrite List.Forall_forall in H.
  destruct (H g Hg) as [pid [L [m [clustered [i [Hin [Hm [Hi Hmake]]]]]]]].
  apply make_group_fields in Hmake as [Hpid [Hsize [Hids _]]].
  exists L, m, (grow_cluster m min_mirror_ratio clustered i (length L)).
  rewrite Hpid. split; [exact Hin |]. split; [exact Hm |].
  split; [apply grow_cluster_NoDup |].
  split; [now apply grow_cluster_range |].
  split; [exact Hids |]. split; [exact Hsize |].
  apply grow_cluster_valid. now apply build_matrix_inv in Hm as [_ [Hsym _]].
Qed.

Lemma mirror_clusters_are_cliques_witness :
  lockstep_findings <> []
  /\ forall g : Finding, In g lockstep_findings ->
      exists (partner_client_list : list Client) (similarity_matrix : matrix)
             (cluster : list nat),
        In (f_partner_id g, partner_client_list)
           (active_groups (lockstep_group (naive_at 0)))
        /\ build_matrix partner_client_list = Ok similarity_matrix
        /\ NoDup cluster
        /\ Forall (fun a => (a < length partner_client_list)%nat) cluster
        /\ client_ids g = map client_id (members partner_client_list cluster)
        /\ group_size g = length cluster
        /\ forall a b : nat,
             In a cluster -> In b cluster -> a <> b ->
             1 # 2 <= cell similarity_matrix a b.
Proof.
  split; [vm_compute; discriminate |].
  apply (proj2 mirror_clusters_are_cliques
           (lockstep_group (naive_at 0)) 3%nat (1 # 2)).
  vm_compute. reflexivity.
Defined.

(** C10: the greedy matching pairs each matched trade of the second list
    with a position of its own (the matched positions are pairwise
    distinct), so the number of matches is at most the length of the
    shorter list and the match ratio lies in [0, 1]; on well-formed trades
    the matching returns; hence every cell of a similarity matrix lies in
    [0, 1], and so does the confidence score of every reported group. *)
Theorem matching_is_one_to_one_and_scores_bounded :
  (forall (trades1 trades2 : list Trade) (time_window_minutes : Z)
          (min_similarity : Q) (matches : list Match),
      find_matching_trades trades1 trades2 time_window_minutes min_similarity
      = Ok matches ->
      (exists idxs : list nat, NoDup idxs /\ matched_at trades2 idxs matches)
      /\ (length matches <= Nat.min (length trades1) (length trades2))%nat
      /\ 0 <= match_ratio_of matches trades1 trades2 <= 1)
  /\ (forall (z : bool) (trades1 trades2 : list Trade),
        Forall (well_formed z) trades1 -> Forall (well_formed z) trades2 ->
        exists matches : list Match,
          find_matching_trades trades1 trades2 default_window
                               default_min_similarity = Ok matches)
  /\ (forall (partner_client_list : list Client) (similarity_matrix : matrix),
        build_matrix partner_client_list = Ok similarity_matrix ->
        forall i j : nat, 0 <= cell similarity_matrix i j <= 1)
  /\ (forall (clients : list Client) (min_group_size : nat)
             (min_mirror_ratio : Q) (groups : list Finding),
        detect_mirror_group clients min_group_size min_mirror_ratio
        = Ok groups ->
        Forall (fun g => 0 <= confidence_score g <= 1) groups).
Proof.
  split; [| split; [| split]].
  - intros trades1 trades2 w s matches H.
    destruct (find_matching_trades_bounds _ _ _ _ _ H) as [Hidx Hlen].
    split; [exact Hidx |]. split; [exact Hlen |].
    now apply match_ratio_unit.
  - intros z. apply find_matching_trades_returns.
  - intros L m H. now apply build_matrix_inv in H as [_ [_ Hunit]].
  - intros clients min_group_size min_mirror_ratio groups H.
    apply detect_mirror_group_from in H.
    eapply List.Forall_impl; [| exact H].
    intros g [pid [L [m [clustered [i [_ [Hm [_ Hmake]]]]]]]].
    apply make_group_fields in Hmake as [_ [_ [_ ->]]].
    apply cluster_confidence_unit.
    now apply build_matrix_inv in Hm as [_ [_ Hunit]].
Qed.

Lemma matching_is_one_to_one_and_scores_bounded_witness :
  lockstep_findings <> []
  /\ Forall (fun g => 0 <= confidence_score g <= 1) lockstep_findings.
Proof.
  split; [vm_compute; discriminate |].
  apply (proj2 (proj2 (proj2 matching_is_one_to_one_and_scores_bounded))
           (lockstep_group (naive_at 0)) 3%nat (1 # 2)).
  vm_compute. reflexivity.
Defined.

End MirrorFacts.

(* ================================================================== *)
(** * More facts about the prelude *)
(* ================================================================== *)

(** ** Dictionaries *)

Section Dict.
Context {V : Type}.
Implicit Types (d : list (string * V)) (k : string) (f : V -> V).

Lemma dict_get_upd k k' (dflt : V) f d :
  dict_get k' dflt (dict_upd k dflt f d)
  = if String.eqb k' k then f (dict_get k dflt d) else dict_get k' dflt d.
Proof.
  induction d as [| [k0 v] d IH]; cbn [dict_upd dict_get].
  - destruct (String.eqb_spec k' k); reflexivity.
  - destruct (String.eqb_spec k k0) as [-> | Hk]; cbn [dict_get].
    + destruct (String.eqb_spec k' k0); reflexivity.
    + destruct (String.eqb_spec k' k0) as [-> | Hk'].
      * destruct (String.eqb_spec k0 k); [congruence | reflexivity].
      * exact IH.
Qed.

Lemma dict_upd_keys k (dflt : V) f d :
  map fst (dict_upd k dflt f d)
  = if bool_decide (k ∈ map fst d) then map fst d else map fst d ++ [k].
Proof.
  induction d as [| [k0 v] d IH]; cbn [dict_upd map fst].
  - rewrite bool_decide_eq_false_2; [reflexivity | apply not_elem_of_nil].
  - destruct (String.eqb_spec k k0) as [-> | Hk].
    + rewrite bool_decide_eq_true_2 by apply list_elem_of_here. reflexivity.
    + cbn [map fst]. rewrite IH. case_bool_decide as B.
      * rewrite bool_decide_eq_true_2 by now apply list_elem_of_further.
        reflexivity.
      * rewrite bool_decide_eq_false_2; [reflexivity |].
        intros H. apply elem_of_cons in H as [H | H];
          [congruence | contradiction].
Qed.

Lemma dict_upd_NoDup k (dflt : V) f d :
  NoDup (map fst d) -> NoDup (map fst (dict_upd k dflt f d)).
Proof.
  intros H. rewrite dict_upd_keys. case_bool_decide as B; [exact H |].
  apply NoDup_app. split; [exact H |]. split; [| apply NoDup_singleton].
  intros k' Hk' Hk''. apply list_elem_of_singleton in Hk''. now subst k'.
Qed.

Lemma dict_upd_key_iff k k' (dflt : V) f d :
  k' ∈ map fst (dict_upd k dflt f d) <-> k' ∈ map fst d \/ k' = k.
Proof.
  rewrite dict_upd_keys. case_bool_decide as B.
  - split; [now left |]. intros [H | ->]; assumption.
  - rewrite elem_of_app, list_elem_of_singleton. reflexivity.
Qed.

(** With distinct keys, an entry is what [get] returns. *)
Lemma dict_get_entry (dflt : V) d k v :
  NoDup (map fst d) -> In (k, v) d -> dict_get k dflt d = v.
Proof.
  induction d as [| [k0 v0] d IH]; intros Hnd Hin; [contradiction |].
  cbn [map fst] in Hnd. apply NoDup_cons in Hnd as [Hk0 Hnd].
  cbn [dict_get]. destruct Hin as [E | Hin].
  - injection E as -> ->. now rewrite String.eqb_refl.
  - destruct (String.eqb_spec k k0) as [-> | _]; [| now apply IH].
    exfalso. apply Hk0. apply list_elem_of_In.
    change k0 with (fst (k0, v)). now apply in_map.
Qed.
End Dict.

(** ** Grouping by partner *)

Lemma group_fold_get (k : string) (clients : list Client) :
  forall d,
    dict_get k [] (fold_left (fun d c => dict_append (referred_by c) c d)
                             clients d)
    = dict_get k [] d ++ referred_to k clients.
Proof.
  induction clients as [| c clients IH]; intros d; cbn [fold_left].
  - unfold referred_to. cbn. now rewrite app_nil_r.
  - rewrite IH. unfold dict_append. rewrite dict_get_upd.
    unfold referred_to. cbn [List.filter].
    rewrite (String.eqb_sym k).
    destruct (String.eqb_spec (referred_by c) k) as [-> | _];
      [now rewrite <- app_assoc | reflexivity].
Qed.

Lemma group_fold_keys (clients : list Client) :
  forall d,
    NoDup (map fst d) ->
    let d' := fold_left (fun d c => dict_append (referred_by c) c d)
                        clients d in
    NoDup (map fst d')
    /\ forall k, k ∈ map fst d'
                 <-> k ∈ map fst d
                     \/ exists c, In c clients /\ referred_by c = k.
Proof.
  induction clients as [| c clients IH]; intros d Hnd; cbn [fold_left].
  - split; [exact Hnd |]. intros k. split; [now left |].
    intros [H | [c [[] _]]]. exact H.
  - destruct (IH (dict_append (referred_by c) c d)) as [Hnd' Hk].
    { now apply dict_upd_NoDup. }
    split; [exact Hnd' |]. intros k. rewrite Hk. unfold dict_append.
    rewrite dict_upd_key_iff. split.
    + intros [[H | ->] | [c' [Hc' E]]]; [now left | |].
      * right. exists c. split; [now left | reflexivity].
      * right. exists c'. split; [now right | exact E].
    + intros [H | [c' [[<- | Hc'] E]]]; [now left; left | |].
      * left. right. now symmetry.
      * right. now exists c'.
Qed.

Lemma group_by_partner_spec :
  forall clients : list Client,
  NoDup (map fst (group_by_partner clients))
  /\ (forall k, k ∈ map fst (group_by_partner clients)
                <-> exists c, In c clients /\ referred_by c = k)
  /\ (forall k, dict_get k [] (group_by_partner clients)
                = referred_to k clients)
  /\ (forall k vs, In (k, vs) (group_by_partner clients) ->
                   vs = referred_to k clients /\ vs <> []).
Proof.
  intros clients.
  destruct (group_fold_keys clients [] NoDup_nil_2) as [Hnd Hk].
  fold (group_by_partner clients) in Hnd, Hk.
  assert (forall k, dict_get k [] (group_by_partner clients)
                    = referred_to k clients) as Hget
    by (intros k; apply (group_fold_get k clients [])).
  split; [exact Hnd |]. split.
  { intros k. rewrite Hk. split; [| now right].
    intros [H | H]; [| exact H]. now apply not_elem_of_nil in H. }
  split; [exact Hget |].
  intros k vs Hin.
  assert (vs = referred_to k clients) as ->
    by (rewrite <- Hget; symmetry; now apply dict_get_entry).
  split; [reflexivity |].
  assert (k ∈ map fst (group_by_partner clients)) as Hkin.
  { apply list_elem_of_In. change k with (fst (k, referred_to k clients)).
    now apply in_map. }
  apply Hk in Hkin as [H | [c [Hc E]]]; [now apply not_elem_of_nil in H |].
  intros Hnil.
  assert (In c (referred_to k clients)) as Hc'.
  { apply List.filter_In. split; [exact Hc |]. now apply String.eqb_eq. }
  rewrite Hnil in Hc'. contradiction.
Qed.

(** X1: the grouping loop shared by the three detectors partitions the
    snapshot by [referred_by]: every partner id is a key once; the keys are
    the ids that some client carries; the group of a key holds exactly the
    clients referred by it, in the order of the snapshot; and no group is
    empty. *)
Theorem group_by_partner_partition :
  forall clients : list Client,
  NoDup (map fst (group_by_partner clients))
  /\ (forall k, k ∈ map fst (group_by_partner clients)
                <-> exists c, In c clients /\ referred_by c = k)
  /\ (forall k, dict_get k [] (group_by_partner clients)
                = referred_to k clients)
  /\ (forall k vs, In (k, vs) (group_by_partner clients) ->
                   vs = referred_to k clients /\ vs <> []).
Proof. exact group_by_partner_spec. Qed.

(** ** Rounding, continued *)

Lemma round_half_even_near (x : Q) :
  (Qfloor x <= round_half_even x <= Qfloor x + 1)%Z.
Proof.
  unfold round_half_even.
  repeat (match goal with |- context [if ?b then _ else _] => destruct b end);
    lia.
Qed.

Lemma round_half_even_mono (x y : Q) :
  x <= y -> (round_half_even x <= round_half_even y)%Z.
Proof.
  intros Hxy. pose proof (Qfloor_resp_le x y Hxy) as Hf.
  pose proof (round_half_even_near x) as Hx.
  pose proof (round_half_even_near y) as Hy.
  destruct (Z.eq_dec (Qfloor x) (Qfloor y)) as [E | NE]; [| lia].
  unfold round_half_even in *. rewrite <- E in *.
  destruct (Qltb (x - inject_Z (Qfloor x)) (1 # 2)) eqn:X1; [lia |].
  apply Qltb_ge in X1.
  assert (Qltb (y - inject_Z (Qfloor x)) (1 # 2) = false) as ->
    by (apply Qltb_ge; lra).
  destruct (Qltb (1 # 2) (x - inject_Z (Qfloor x))) eqn:X2.
  - apply Qltb_lt in X2.
    assert (Qltb (1 # 2) (y - inject_Z (Qfloor x)) = true) as ->
      by (apply Qltb_lt; lra).
    lia.
  - destruct (Qltb (1 # 2) (y - inject_Z (Qfloor x)));
      destruct (Z.even (Qfloor x)); lia.
Qed.

Lemma pow10_pos (n : nat) : 0 < inject_Z (10 ^ Z.of_nat n).
Proof.
  change 0 with (inject_Z 0). rewrite <- Zlt_Qlt.
  apply Z.pow_pos_nonneg; lia.
Qed.

Lemma round_ndigits_mono (x y : Q) (n : nat) :
  x <= y -> round_ndigits x n <= round_ndigits y n.
Proof.
  intros Hxy. unfold round_ndigits. pose proof (pow10_pos n) as Hp.
  assert (round_half_even (x * inject_Z (10 ^ Z.of_nat n))
          <= round_half_even (y * inject_Z (10 ^ Z.of_nat n)))%Z as H
    by (apply round_half_even_mono; nra).
  rewrite Zle_Qle in H.
  apply Qmult_le_compat_r; [exact H |].
  apply Qlt_le_weak, Qinv_lt_0_compat, Hp.
Qed.

Lemma round_ndigits_nonneg (x : Q) (n : nat) :
  0 <= x -> 0 <= round_ndigits x n.
Proof.
  intros H. apply (round_ndigits_mono 0 x n) in H.
  assert (round_ndigits 0 n == 0) as E.
  { unfold round_ndigits.
    assert (round_half_even (0 * inject_Z (10 ^ Z.of_nat n)) = 0%Z) as ->.
    { unfold round_half_even.
      assert (0 * inject_Z (10 ^ Z.of_nat n) == 0) as E0 by ring.
      rewrite (Qfloor_comp _ _ E0). reflexivity. }
    unfold Qdiv. ring. }
  now rewrite E in H.
Qed.

Lemma round_ndigits_range (x : Q) (N : Z) (n : nat) :
  0 <= x <= inject_Z N -> 0 <= round_ndigits x n <= inject_Z N.
Proof.
  intros [H0 H1]. split; [now apply round_ndigits_nonneg |].
  unfold round_ndigits. pose proof (pow10_pos n) as Hp.
  set (P := (10 ^ Z.of_nat n)%Z) in *.
  destruct (round_half_even_bounds (x * inject_Z P) (N * P)) as [_ Hr].
  { rewrite inject_Z_mult. split; [apply Qmult_le_0_compat; lra | nra]. }
  rewrite Zle_Qle, inject_Z_mult in Hr.
  apply Qle_shift_div_r; [exact Hp | exact Hr].
Qed.

(** ** Loops over a range *)

Lemma for_each_seq {S} (P : nat -> S -> Prop) (body : S -> nat -> result S)
  (len : nat) :
  forall start : nat,
    (forall k s s', (start <= k < start + len)%nat -> P k s ->
                    body s k = Ok s' -> P (Datatypes.S k) s') ->
    forall s s', P start s -> for_each body (seq start len) s = Ok s' ->
                 P (start + len)%nat s'.
Proof.
  induction len as [| len IH]; intros start Hbody s s' Hs H;
    cbn [seq for_each] in H.
  - injection H as <-. now rewrite Nat.add_0_r.
  - destruct (body s start) as [s1 |] eqn:E; [| discriminate].
    cbn [rbind] in H.
    replace (start + Datatypes.S len)%nat with (Datatypes.S start + len)%nat
      by lia.
    eapply IH; [| | exact H].
    + intros k t t' Hk. apply Hbody. lia.
    + eapply Hbody; [| exact Hs | exact E]. lia.
Qed.

(* ================================================================== *)
(** * Opposite trading: pairs, scores and findings *)
(* ================================================================== *)

Module OppositeFacts.
Import OppositeTrading OppositeInvariants Samples SampleRuns.

Lemma abs_seconds_nonneg (a b : datetime) (s : Q) :
  abs_seconds a b = Ok s -> 0 <= s.
Proof.
  unfold abs_seconds. destruct (dt_sub a b) as [z |]; [| discriminate].
  cbn [rbind]. intros H.
  assert (s = Qabs (total_seconds z)) as -> by congruence.
  apply Qabs_nonneg.
Qed.

Lemma pydiv_inv (x y q : Q) : pydiv x y = Ok q -> ~ y == 0 /\ q = x / y.
Proof.
  unfold pydiv. destruct (Qeq_bool y 0) eqn:E; [discriminate |].
  intros H. injection H as <-. split; [| reflexivity].
  intros Hy. apply Qeq_bool_iff in Hy. congruence.
Qed.

(** The share of a window that a gap inside it leaves. *)
Lemma decay_unit (d w q : Q) :
  0 <= d -> d <= w -> pydiv d w = Ok q -> 0 <= 1 - q <= 1.
Proof.
  intros Hd Hdw H. apply pydiv_inv in H as [Hw ->].
  assert (0 < w) as Hpos.
  { destruct (Qlt_le_dec 0 w) as [H | H]; [exact H |].
    exfalso. apply Hw. lra. }
  assert (0 <= d / w) by (apply Qle_shift_div_l; lra).
  assert (d / w <= 1) by (apply Qle_shift_div_r; lra).
  lra.
Qed.

Lemma timing_step_inv (w : Z) (t1_time : datetime) (t1 t2 : Trade)
  (acc acc' : Q * nat) :
  timing_inv acc -> timing_step w t1_time t1 acc t2 = Ok acc' ->
  timing_inv acc'.
Proof.
  destruct acc as [c n]. unfold timing_inv, timing_step. cbn [fst snd].
  intros Hacc H.
  destruct (parse_timestamp (t_timestamp t2)) as [t2_time |]; [| discriminate].
  cbn [rbind] in H.
  assert (inject_Z (Z.of_nat (S n)) == inject_Z (Z.of_nat n) + 1) as HS
    by (rewrite Nat2Z.inj_succ, <- Z.add_1_r, inject_Z_plus; reflexivity).
  destruct (String.eqb _ _); [| now injection H as <-].
  destruct (abs_seconds t1_time t2_time) as [secs |] eqn:Es; [| discriminate].
  cbn [rbind] in H. apply abs_seconds_nonneg in Es.
  destruct (Qle_bool (secs / 60) (inject_Z w)) eqn:Ew.
  - destruct (pydiv (secs / 60) (inject_Z w)) as [q |] eqn:Eq; [| discriminate].
    cbn [rbind] in H. injection H as <-. cbn [fst snd].
    apply Qle_bool_iff in Ew.
    apply decay_unit in Eq; [| apply Qle_shift_div_l; lra | exact Ew].
    rewrite HS. lra.
  - injection H as <-. cbn [fst snd]. rewrite HS. lra.
Qed.

Lemma timing_correlation_range :
  forall (trades1 trades2 : list Trade) (time_window_minutes : Z) (r : Q),
    calculate_timing_correlation trades1 trades2 time_window_minutes = Ok r ->
    0 <= r <= 1.
Proof.
  intros trades1 trades2 w r H. unfold calculate_timing_correlation in H.
  destruct trades1 as [| a trades1]; [injection H as <-; lra |].
  destruct trades2 as [| b trades2]; [injection H as <-; lra |].
  destruct (for_each _ (a :: trades1) (0, 0%nat)) as [[c n] |] eqn:E;
    [| discriminate].
  cbn [rbind] in H.
  assert (timing_inv (c, n)) as [Hc0 Hcn].
  { revert E. apply for_each_inv.
    2:{ unfold timing_inv. cbn [fst snd].
        change (inject_Z (Z.of_nat 0)) with 0. lra. }
    intros s t1 s' _ Hs Hbody.
    destruct (parse_timestamp (t_timestamp t1)) as [t1_time |];
      [| discriminate].
    cbn [rbind] in Hbody. revert Hbody. apply for_each_inv; [| exact Hs].
    intros s0 t2 s1 _. apply timing_step_inv. }
  cbn [fst snd] in Hc0, Hcn.
  destruct n as [| n]; injection H as <-; [lra |].
  set (N := inject_Z (Z.of_nat (S n))) in *.
  assert (0 < N) as HN
    by (unfold N; change 0 with (inject_Z 0); rewrite <- Zlt_Qlt; lia).
  assert (0 <= c / N) by (apply Qle_shift_div_l; lra).
  unfold pymin. destruct (Qltb (c / N) 1) eqn:B; [| lra].
  apply Qltb_lt in B. lra.
Qed.

(** X2: whenever [calculate_timing_correlation] returns, its result lies
    in [0, 1], for every two trade lists and every window. *)
Theorem timing_correlation_unit :
  forall (trades1 trades2 : list Trade) (time_window_minutes : Z) (r : Q),
    calculate_timing_correlation trades1 trades2 time_window_minutes = Ok r ->
    0 <= r <= 1.
Proof. exact timing_correlation_range. Qed.

Lemma timing_correlation_unit_witness : 0 <= sample_timing <= 1.
Proof.
  apply (timing_correlation_unit (trades buyer) (trades triple_seller) 10).
  vm_compute. reflexivity.
Defined.

Lemma parse_timestamp_inv (ts : timestamp) (d : datetime) :
  parse_timestamp ts = Ok d -> ts = Parsed d.
Proof. destruct ts; cbn; congruence. Qed.

Lemma opposite_step_inv (w : Z) (t1 t2 : Trade) (d1 : datetime)
  (pairs pairs' : list OppositePair) :
  t_timestamp t1 = Parsed d1 ->
  opposite_step w d1 t1 pairs t2 = Ok pairs' ->
  pairs' = pairs \/ exists p, pairs' = pairs ++ [p] /\ opposite_of w t1 t2 p.
Proof.
  intros Hd1 H. unfold opposite_step in H.
  destruct (parse_timestamp (t_timestamp t2)) as [d2 |] eqn:E2;
    [| discriminate].
  apply parse_timestamp_inv in E2. cbn [rbind] in H.
  destruct (String.eqb (instrument t1) (instrument t2)) eqn:Ei;
    [| cbn [andb] in H; injection H as <-; now left].
  apply String.eqb_eq in Ei.
  destruct (String.eqb (direction t1) (direction t2)) eqn:Ed;
    [cbn [negb andb] in H; injection H as <-; now left |].
  apply String.eqb_neq in Ed. cbn [negb andb] in H.
  destruct (abs_seconds d1 d2) as [secs |] eqn:Es; [| discriminate].
  cbn [rbind] in H.
  destruct (Qle_bool (secs / 60) (inject_Z w)) eqn:Ew;
    [| injection H as <-; now left].
  destruct (pydiv _ _) as [vs |] eqn:Ev; [| discriminate].
  cbn [rbind] in H. injection H as <-. right. eexists.
  split; [reflexivity |].
  apply pydiv_inv in Ev as [_ ->].
  unfold opposite_of. cbn.
  repeat split; try assumption; try reflexivity.
  - exists d1, d2. auto.
  - now apply abs_seconds_nonneg in Es.
  - now apply Qle_bool_iff.
Qed.

Lemma opposite_row (w : Z) (t1 : Trade) (d1 : datetime)
  (trades2 : list Trade) :
  t_timestamp t1 = Parsed d1 ->
  forall pairs pairs',
    for_each (opposite_step w d1 t1) trades2 pairs = Ok pairs' ->
    exists new,
      pairs' = pairs ++ new
      /\ (length new <= length trades2)%nat
      /\ Forall (fun p => exists t2, In t2 trades2 /\ opposite_of w t1 t2 p)
                new.
Proof.
  intros Hd1. induction trades2 as [| t2 trades2 IH]; intros pairs pairs' H;
    cbn [for_each] in H.
  - injection H as <-. exists []. rewrite app_nil_r. repeat split; auto.
  - destruct (opposite_step w d1 t1 pairs t2) as [mid |] eqn:E;
      [| discriminate].
    cbn [rbind] in H. apply IH in H as [new [-> [Hlen Hall]]].
    assert (Forall (fun p => exists t0, In t0 (t2 :: trades2)
                                        /\ opposite_of w t1 t0 p) new) as Hall'.
    { eapply List.Forall_impl; [| exact Hall].
      intros p [t0 [Hin Hp]]. exists t0. split; [now right | exact Hp]. }
    apply (opposite_step_inv w t1 t2 d1) in E as [-> | [p [-> Hp]]];
      [| | exact Hd1].
    + exists new. cbn [length]. repeat split; [lia | exact Hall'].
    + exists (p :: new). rewrite <- app_assoc. cbn [length app].
      repeat split; [lia |]. constructor; [| exact Hall'].
      exists t2. split; [now left | exact Hp].
Qed.

Lemma opposite_rows (w : Z) (trades2 : list Trade) (trades1 : list Trade) :
  forall pairs pairs',
    for_each (fun pairs t1 =>
                try! t1_time := parse_timestamp (t_timestamp t1) in
                for_each (opposite_step w t1_time t1) trades2 pairs)
             trades1 pairs = Ok pairs' ->
    exists new,
      pairs' = pairs ++ new
      /\ (length new <= length trades1 * length trades2)%nat
      /\ Forall (recorded w trades1 trades2) new.
Proof.
  induction trades1 as [| t1 trades1 IH]; intros pairs pairs' H;
    cbn [for_each] in H.
  - injection H as <-. exists []. rewrite app_nil_r. repeat split; auto.
  - destruct (parse_timestamp (t_timestamp t1)) as [d1 |] eqn:E1;
      [| discriminate].
    apply parse_timestamp_inv in E1. cbn [rbind] in H.
    destruct (for_each (opposite_step w d1 t1) trades2 pairs) as [mid |] eqn:E;
      [| discriminate].
    cbn [rbind] in H.
    apply (opposite_row w t1 d1 trades2 E1) in E as [row [-> [Hlen Hrow]]].
    apply IH in H as [new [-> [Hlen' Hall]]].
    exists (row ++ new). rewrite <- app_assoc. split; [reflexivity |].
    split; [rewrite length_app; cbn [length]; lia |].
    apply Forall_app. split.
    + eapply List.Forall_impl; [| exact Hrow].
      intros p [t2 [Hin Hp]]. exists t1, t2. split; [now left | auto].
    + eapply List.Forall_impl; [| exact Hall].
      intros p [t0 [t2 [Hin0 [Hin2 Hp]]]]. exists t0, t2.
      split; [now right | auto].
Qed.

(** X3: every pair that [detect_opposite_directions] returns records a
    trade of the first list and a trade of the second, on the same
    instrument, in different directions, both with timestamps that parse;
    [time_diff_seconds] is the absolute gap between them, which lies
    within the window, and [volume_similarity] is min/max of the two
    volumes; and there are at most [len(trades1) * len(trades2)] pairs. *)
Theorem opposite_pairs_sound :
  forall (trades1 trades2 : list Trade) (time_window_minutes : Z)
         (pairs : list OppositePair),
    detect_opposite_directions trades1 trades2 time_window_minutes = Ok pairs ->
    Forall (recorded time_window_minutes trades1 trades2) pairs
    /\ (length pairs <= length trades1 * length trades2)%nat.
Proof.
  intros trades1 trades2 w pairs H. unfold detect_opposite_directions in H.
  apply opposite_rows in H as [new [-> [Hlen Hall]]]. cbn [app]. auto.
Qed.

Lemma opposite_pairs_sound_witness :
  length sample_pairs = 3%nat
  /\ Forall (recorded 10 (trades buyer) (trades triple_seller)) sample_pairs
  /\ (length sample_pairs
      <= length (trades buyer) * length (trades triple_seller))%nat.
Proof.
  split; [vm_compute; reflexivity |].
  apply (opposite_pairs_sound (trades buyer) (trades triple_seller) 10).
  vm_compute. reflexivity.
Defined.

Lemma opposite_step_hit (w : Z) (t1 t2 : Trade) (d1 : datetime)
  (pairs pairs' : list OppositePair) :
  t_timestamp t1 = Parsed d1 -> offsetting w t1 t2 ->
  opposite_step w d1 t1 pairs t2 = Ok pairs' ->
  exists p, pairs' = pairs ++ [p] /\ pairs_up t1 t2 p.
Proof.
  intros Hd1 [Hi [Hd [d1' [d2 [secs [H1 [H2 [Hs Hw]]]]]]]] H.
  assert (d1' = d1) as -> by congruence.
  unfold opposite_step in H. rewrite H2 in H. cbn [parse_timestamp rbind] in H.
  rewrite Hi, String.eqb_refl in H.
  apply String.eqb_neq in Hd. rewrite Hd in H. cbn [negb andb] in H.
  rewrite Hs in H. cbn [rbind] in H.
  apply Qle_bool_iff in Hw. rewrite Hw in H.
  destruct (pydiv _ _) as [vs |]; [| discriminate].
  cbn [rbind] in H. injection H as <-. eexists. split; [reflexivity |].
  split; reflexivity.
Qed.

Lemma opposite_step_grows (w : Z) (t1 t2 : Trade) (d1 : datetime)
  (pairs pairs' : list OppositePair) :
  opposite_step w d1 t1 pairs t2 = Ok pairs' ->
  exists new, pairs' = pairs ++ new.
Proof.
  unfold opposite_step. intros H.
  destruct (parse_timestamp _); [| discriminate]. cbn [rbind] in H.
  destruct (_ && _).
  - destruct (abs_seconds _ _); [| discriminate]. cbn [rbind] in H.
    destruct (Qle_bool _ _).
    + destruct (pydiv _ _); [| discriminate]. cbn [rbind] in H.
      injection H as <-. eauto.
    + injection H as <-. exists []. now rewrite app_nil_r.
  - injection H as <-. exists []. now rewrite app_nil_r.
Qed.

Lemma opposite_row_grows (w : Z) (t1 : Trade) (d1 : datetime)
  (trades2 : list Trade) :
  forall pairs pairs',
    for_each (opposite_step w d1 t1) trades2 pairs = Ok pairs' ->
    exists new, pairs' = pairs ++ new.
Proof.
  induction trades2 as [| t2 trades2 IH]; intros pairs pairs' H;
    cbn [for_each] in H.
  - injection H as <-. exists []. now rewrite app_nil_r.
  - destruct (opposite_step w d1 t1 pairs t2) as [mid |] eqn:E;
      [| discriminate].
    cbn [rbind] in H. apply opposite_step_grows in E as [n1 ->].
    apply IH in H as [n2 ->]. exists (n1 ++ n2). now rewrite app_assoc.
Qed.

Lemma opposite_row_complete (w : Z) (t1 : Trade) (d1 : datetime)
  (trades2 : list Trade) :
  t_timestamp t1 = Parsed d1 ->
  forall pairs pairs',
    for_each (opposite_step w d1 t1) trades2 pairs = Ok pairs' ->
    forall t2, In t2 trades2 -> offsetting w t1 t2 ->
               exists p, In p pairs' /\ pairs_up t1 t2 p.
Proof.
  intros Hd1. induction trades2 as [| t0 trades2 IH];
    intros pairs pairs' H t2 Hin Hoff; [contradiction |].
  cbn [for_each] in H.
  destruct (opposite_step w d1 t1 pairs t0) as [mid |] eqn:E; [| discriminate].
  cbn [rbind] in H. destruct Hin as [-> | Hin].
  - apply (opposite_step_hit w t1 t2 d1) in E as [p [-> Hp]]; try assumption.
    apply opposite_row_grows in H as [new ->]. exists p.
    split; [| exact Hp]. apply in_or_app. left. apply in_or_app. right.
    now left.
  - eapply IH; eauto.
Qed.

(** X4: [detect_opposite_directions] misses nothing: when it returns, every
    trade of the first list and trade of the second on the same instrument,
    in different directions, at most the window apart, is among the pairs
    returned. *)
Theorem opposite_pairs_complete :
  forall (trades1 trades2 : list Trade) (time_window_minutes : Z)
         (pairs : list OppositePair),
    detect_opposite_directions trades1 trades2 time_window_minutes = Ok pairs ->
    forall t1 t2 : Trade,
      In t1 trades1 -> In t2 trades2 ->
      offsetting time_window_minutes t1 t2 ->
      exists p, In p pairs /\ pairs_up t1 t2 p.
Proof.
  intros trades1 trades2 w pairs. unfold detect_opposite_directions.
  generalize (@nil OppositePair) as acc.
  induction trades1 as [| t0 trades1 IH]; intros acc H t1 t2 H1 H2 Hoff;
    [contradiction |].
  cbn [for_each] in H.
  destruct (parse_timestamp (t_timestamp t0)) as [d0 |] eqn:E0;
    [| discriminate].
  apply parse_timestamp_inv in E0. cbn [rbind] in H.
  destruct (for_each (opposite_step w d0 t0) trades2 acc) as [mid |] eqn:E;
    [| discriminate].
  cbn [rbind] in H. destruct H1 as [-> | H1].
  - destruct (opposite_row_complete w t1 d0 trades2 E0 _ _ E t2 H2 Hoff)
      as [p [Hp Hup]].
    apply opposite_rows in H as [new [-> _]]. exists p.
    split; [apply in_or_app; now left | exact Hup].
  - eapply IH; eauto.
Qed.

Lemma opposite_pairs_complete_witness :
  exists p, In p sample_pairs
            /\ pairs_up (eurusd "T1" "A" (naive_at 0) "BUY" 100)
                        (eurusd "T3" "B" (naive_at 120) "SELL" (-30)) p.
Proof.
  apply (opposite_pairs_complete (trades buyer) (trades triple_seller) 10).
  - vm_compute. reflexivity.
  - left. reflexivity.
  - right. left. reflexivity.
  - split; [reflexivity |]. split; [discriminate |].
    eexists _, _, _. split; [reflexivity |]. split; [reflexivity |].
    split; [vm_compute; reflexivity | vm_compute; discriminate].
Defined.

Lemma Qlen_nonzero {A} (l : list A) : l <> [] -> ~ Qlen l == 0.
Proof.
  intros Hl H. destruct l as [| a l]; [contradiction |].
  unfold Qlen, Qeq in H. cbn in H. lia.
Qed.

Lemma sqrt_digits_eq (x y : Q) : x == y -> sqrt_digits x = sqrt_digits y.
Proof.
  intros H. unfold sqrt_digits. now rewrite (Qred_complete x y H).
Qed.

Lemma Qsqrt_eq (x y : Q) : x == y -> Qsqrt x = Qsqrt y.
Proof.
  intros H. unfold Qsqrt. rewrite (sqrt_digits_eq x y H).
  assert (x * inject_Z (100 ^ sqrt_digits y)
          == y * inject_Z (100 ^ sqrt_digits y)) as E
    by now rewrite H.
  now rewrite (Qfloor_comp _ _ E).
Qed.

Lemma sqrt_digits_enough (x : Q) :
  0 < x -> 1 <= x * inject_Z (100 ^ sqrt_digits x).
Proof.
  intros Hx. unfold sqrt_digits.
  apply Qle_trans
    with (Qred x * inject_Z (100 ^ (18 + Z.max 0
            (Z.log2 (Z.pos (Qden (Qred x))) + 1 - Z.log2 (Qnum (Qred x))))));
    [| apply Qle_lteq; right; apply Qmult_comp;
       [apply Qred_correct | reflexivity]].
  rewrite <- (Qred_correct x) in Hx.
  destruct (Qred x) as [n d]. cbn [Qnum Qden].
  assert (0 < n)%Z as Hn by (unfold Qlt in Hx; cbn in Hx; lia).
  set (j := Z.max 0 (Z.log2 (Z.pos d) + 1 - Z.log2 n)).
  assert (0 <= j)%Z as Hj by (subst j; lia).
  pose proof (Z.log2_nonneg n) as Hln.
  pose proof (Z.log2_nonneg (Z.pos d)) as Hld.
  destruct (Z.log2_spec n Hn) as [Hn1 _].
  destruct (Z.log2_spec (Z.pos d) ltac:(lia)) as [_ Hd2].
  assert (2 ^ (Z.log2 (Z.pos d) + 1) <= 2 ^ (Z.log2 n + j))%Z as Hp
    by (apply Z.pow_le_mono_r; subst j; lia).
  rewrite (Z.pow_add_r 2 (Z.log2 n) j) in Hp by lia.
  rewrite <- Z.add_1_r in Hd2.
  assert (2 ^ j <= 100 ^ (18 + j))%Z as Hq.
  { transitivity (100 ^ j)%Z.
    - apply Z.pow_le_mono_l. lia.
    - apply Z.pow_le_mono_r; lia. }
  assert (0 < 2 ^ j)%Z by (apply Z.pow_pos_nonneg; lia).
  unfold Qle, Qmult, inject_Z. cbn [Qnum Qden].
  rewrite Z.mul_1_l, Z.mul_1_r, Pos.mul_1_r.
  assert (2 ^ Z.log2 n * 2 ^ j <= n * 100 ^ (18 + j))%Z
    by (apply Z.mul_le_mono_nonneg; lia).
  lia.
Qed.

(** The root of a positive number is positive, however small the number. *)
Lemma Qsqrt_pos (x : Q) : 0 < x -> 0 < Qsqrt x.
Proof.
  intros Hx. pose proof (sqrt_digits_enough x Hx) as H.
  unfold Qsqrt.
  assert (1 <= Qfloor (x * inject_Z (100 ^ sqrt_digits x)))%Z as Hf.
  { exact (Qfloor_resp_le 1 _ H). }
  assert (0 < Z.sqrt (Qfloor (x * inject_Z (100 ^ sqrt_digits x))))%Z as Hs
    by (apply Z.sqrt_pos; lia).
  assert (0 < 10 ^ sqrt_digits x)%Z as Hp.
  { apply Z.pow_pos_nonneg; [lia |]. unfold sqrt_digits. lia. }
  apply Qlt_shift_div_l.
  - change 0 with (inject_Z 0). rewrite <- Zlt_Qlt. exact Hp.
  - rewrite Qmult_0_l. change 0 with (inject_Z 0). rewrite <- Zlt_Qlt.
    exact Hs.
Qed.

Lemma fold_Qplus_eq (l l' : list Q) :
  Forall2 Qeq l l' ->
  forall a a', a == a' -> fold_left Qplus l a == fold_left Qplus l' a'.
Proof.
  induction 1 as [| x y l l' Hxy Hall IH]; intros a a' Ha; cbn [fold_left];
    [exact Ha |].
  apply IH. now rewrite Ha, Hxy.
Qed.

Lemma products_swap (m1 m2 : Q) (p1 p2 : list Q) :
  Forall2 Qeq
    (map (fun '(a, b) => (a - m1) * (b - m2)) (combine p1 p2))
    (map (fun '(a, b) => (a - m2) * (b - m1)) (combine p2 p1)).
Proof.
  revert p2. induction p1 as [| a p1 IH]; intros [| b p2]; cbn;
    try constructor; [ring | apply IH].
Qed.

Lemma pysquare_raises (x : Q) (e : exn) :
  pysquare x = Raise e -> e = OverflowError.
Proof. unfold pysquare. destruct (Qle_bool _ _); congruence. Qed.

Lemma sum_of_raises {A} (f : A -> result Q) (xs : list A) (e : exn) :
  sum_of f xs = Raise e -> exists x, In x xs /\ f x = Raise e.
Proof.
  unfold sum_of. generalize 0 as total.
  induction xs as [| x xs IH]; intros total H; cbn [for_each] in H;
    [discriminate |].
  destruct (f x) as [y |] eqn:E; cbn [rbind] in H.
  - apply IH in H as [x' [Hin Hx']]. exists x'. split; [now right | exact Hx'].
  - injection H as <-. exists x. split; [now left | exact E].
Qed.

Lemma sum_of_returns {A} (f : A -> result Q) (xs : list A) :
  (forall x, In x xs -> exists y, f x = Ok y) ->
  exists r, sum_of f xs = Ok r.
Proof.
  unfold sum_of. generalize 0 as total.
  induction xs as [| x xs IH]; intros total H; cbn [for_each]; [eauto |].
  destruct (H x (or_introl eq_refl)) as [y ->]. cbn [rbind].
  apply IH. intros x' Hx'. apply H. now right.
Qed.

Lemma squares_raise (m : Q) (l : list Q) (e : exn) :
  sum_of (fun a => pysquare (a - m)) l = Raise e -> e = OverflowError.
Proof.
  intros H. apply sum_of_raises in H as [x [_ H]].
  now apply pysquare_raises in H.
Qed.

(** With two trades or more on either side the means are defined, and what
    is left to go wrong is a square. *)
Lemma pnl_unfold (trades1 trades2 : list Trade) :
  (2 <= length trades1)%nat -> (2 <= length trades2)%nat ->
  let n := Nat.min (length trades1) (length trades2) in
  let p1 := take n (map profit_loss trades1) in
  let p2 := take n (map profit_loss trades2) in
  let m1 := Qsum p1 / Qlen p1 in
  let m2 := Qsum p2 / Qlen p2 in
  p1 <> [] /\ p2 <> []
  /\ calculate_pnl_correlation trades1 trades2
     = try! var1 := sum_of (fun a => pysquare (a - m1)) p1 in
       try! var2 := sum_of (fun b => pysquare (b - m2)) p2 in
       if Qeq_bool (Qsqrt (var1 * var2)) 0 then Ok 0
       else Ok (Qsum (map (fun '(a, b) => (a - m1) * (b - m2))
                          (combine p1 p2))
                / Qsqrt (var1 * var2)).
Proof.
  intros H1 H2 n p1 p2 m1 m2.
  assert (p1 <> []) as Hp1.
  { intros H. apply (f_equal length) in H. unfold p1, n in H.
    rewrite length_take, length_map in H. cbn [length] in H. lia. }
  assert (p2 <> []) as Hp2.
  { intros H. apply (f_equal length) in H. unfold p2, n in H.
    rewrite length_take, length_map in H. cbn [length] in H. lia. }
  split; [exact Hp1 |]. split; [exact Hp2 |].
  unfold calculate_pnl_correlation.
  apply Nat.ltb_ge in H1, H2. rewrite H1, H2. cbn [orb].
  rewrite !length_map. fold n. fold p1. fold p2.
  rewrite !pydiv_ok by now apply Qlen_nonzero.
  reflexivity.
Qed.

Lemma fold_Qplus_bounded (B : Q) (p : list Q) :
  Forall (fun x => - B <= x <= B) p ->
  forall a, a - B * Qlen p <= fold_left Qplus p a <= a + B * Qlen p.
Proof.
  induction 1 as [| x p Hx Hall IH]; intros a; cbn [fold_left].
  - unfold Qlen. change (inject_Z (Z.of_nat (length (@nil Q)))) with 0. lra.
  - specialize (IH (a + x)). rewrite Qlen_cons. lra.
Qed.

Lemma mean_bounded (B : Q) (p : list Q) :
  Forall (fun x => - B <= x <= B) p -> p <> [] ->
  - B <= Qsum p / Qlen p <= B.
Proof.
  intros Hall Hp. pose proof (fold_Qplus_bounded B p Hall 0) as Hs.
  fold (Qsum p) in Hs.
  assert (0 < Qlen p) as Hlen.
  { destruct p as [| x p]; [contradiction |]. rewrite Qlen_cons.
    assert (0 <= Qlen p)
      by (unfold Qlen; change 0 with (inject_Z 0); rewrite <- Zle_Qle; lia).
    lra. }
  split.
  - apply Qle_shift_div_l; [exact Hlen | lra].
  - apply Qle_shift_div_r; [exact Hlen | lra].
Qed.

Lemma squares_return (m : Q) (p : list Q) :
  Forall (fun x => - pnl_bound <= x <= pnl_bound) p ->
  - pnl_bound <= m <= pnl_bound ->
  exists r, sum_of (fun a => pysquare (a - m)) p = Ok r.
Proof.
  intros Hall Hm. apply sum_of_returns. intros x Hx.
  rewrite List.Forall_forall in Hall. specialize (Hall x Hx).
  unfold pysquare.
  assert ((2 * pnl_bound) * (2 * pnl_bound) < float_overflow) as Hc
    by (vm_compute; reflexivity).
  assert (0 <= pnl_bound) as H0 by (vm_compute; discriminate).
  revert Hall Hm Hc H0. generalize pnl_bound float_overflow.
  intros B F Hall Hm Hc H0.
  destruct (Qle_bool F ((x - m) * (x - m))) eqn:E; [| eauto].
  exfalso. apply Qle_bool_iff in E. nra.
Qed.

Lemma bounded_pnl (trades : list Trade) (n : nat) :
  Forall (fun t => Qabs (profit_loss t) <= pnl_bound) trades ->
  Forall (fun x => - pnl_bound <= x <= pnl_bound)
         (take n (map profit_loss trades)).
Proof.
  intros H. apply Forall_take, List.Forall_map.
  eapply List.Forall_impl; [| exact H].
  intros t Ht. now apply Qabs_Qle_condition.
Qed.

(** X5: [calculate_pnl_correlation] never divides by zero: it returns, or
    it raises [OverflowError] at a square; it returns 0 when either side
    has fewer than two trades; and it returns whenever every profit or
    loss is at most 10^150 in absolute value. *)
Theorem pnl_correlation_guarded :
  forall trades1 trades2 : list Trade,
    match calculate_pnl_correlation trades1 trades2 with
    | Ok _ => True
    | Raise e => e = OverflowError
    end
    /\ ((length trades1 < 2)%nat \/ (length trades2 < 2)%nat ->
        calculate_pnl_correlation trades1 trades2 = Ok 0)
    /\ (Forall (fun t => Qabs (profit_loss t) <= pnl_bound) trades1 ->
        Forall (fun t => Qabs (profit_loss t) <= pnl_bound) trades2 ->
        exists r : Q, calculate_pnl_correlation trades1 trades2 = Ok r).
Proof.
  intros trades1 trades2.
  destruct (Nat.lt_ge_cases (length trades1) 2) as [H1 | H1].
  { assert (calculate_pnl_correlation trades1 trades2 = Ok 0) as E.
    { unfold calculate_pnl_correlation.
      apply Nat.ltb_lt in H1. now rewrite H1. }
    rewrite E. split; [exact I |]. split; eauto. }
  destruct (Nat.lt_ge_cases (length trades2) 2) as [H2 | H2].
  { assert (calculate_pnl_correlation trades1 trades2 = Ok 0) as E.
    { unfold calculate_pnl_correlation.
      apply Nat.ltb_lt in H2. rewrite H2. now rewrite orb_true_r. }
    rewrite E. split; [exact I |]. split; eauto. }
  destruct (pnl_unfold trades1 trades2 H1 H2) as [Hp1 [Hp2 E]].
  cbv zeta in Hp1, Hp2, E. rewrite E. clear E.
  set (n := Nat.min (length trades1) (length trades2)) in *.
  set (p1 := take n (map profit_loss trades1)) in *.
  set (p2 := take n (map profit_loss trades2)) in *.
  split; [| split].
  - destruct (sum_of _ p1) as [v1 | e] eqn:E1; cbn [rbind];
      [| now apply squares_raise in E1].
    destruct (sum_of _ p2) as [v2 | e] eqn:E2; cbn [rbind];
      [| now apply squares_raise in E2].
    now destruct (Qeq_bool _ 0).
  - intros [H | H]; exfalso; lia.
  - intros B1 B2.
    pose proof (bounded_pnl trades1 n B1) as Hb1.
    pose proof (bounded_pnl trades2 n B2) as Hb2.
    fold p1 in Hb1. fold p2 in Hb2.
    destruct (squares_return (Qsum p1 / Qlen p1) p1 Hb1
                (mean_bounded _ _ Hb1 Hp1)) as [v1 ->].
    destruct (squares_return (Qsum p2 / Qlen p2) p2 Hb2
                (mean_bounded _ _ Hb2 Hp2)) as [v2 ->].
    cbn [rbind]. destruct (Qeq_bool _ 0); eauto.
Qed.

Lemma pnl_correlation_guarded_witness :
  calculate_pnl_correlation (trades buyer) (trades triple_seller) = Ok 0
  /\ exists r : Q,
       calculate_pnl_correlation (trades two_market_buyer)
                                 (trades two_market_seller) = Ok r.
Proof.
  destruct (pnl_correlation_guarded (trades buyer) (trades triple_seller))
    as [_ [Hfew _]].
  destruct (pnl_correlation_guarded (trades two_market_buyer)
                                    (trades two_market_seller))
    as [_ [_ Hbounded]].
  split.
  - apply Hfew. left. cbn. lia.
  - apply Hbounded;
      repeat (apply List.Forall_cons; [vm_compute; discriminate |]);
      apply List.Forall_nil.
Defined.

(** X6: the P&L correlation does not depend on the order of its two
    arguments: both orders return the same value, or both raise the same
    exception. *)
Theorem pnl_correlation_symmetric :
  forall trades1 trades2 : list Trade,
    match calculate_pnl_correlation trades1 trades2,
          calculate_pnl_correlation trades2 trades1 with
    | Ok r, Ok r' => r == r'
    | Raise e, Raise e' => e = e'
    | _, _ => False
    end.
Proof.
  intros trades1 trades2.
  destruct (Nat.lt_ge_cases (length trades1) 2) as [H1 | H1].
  { unfold calculate_pnl_correlation. apply Nat.ltb_lt in H1.
    rewrite H1, orb_true_r. cbn [orb]. reflexivity. }
  destruct (Nat.lt_ge_cases (length trades2) 2) as [H2 | H2].
  { unfold calculate_pnl_correlation. apply Nat.ltb_lt in H2.
    rewrite H2, orb_true_r. cbn [orb]. reflexivity. }
  destruct (pnl_unfold trades1 trades2 H1 H2) as [_ [_ E]].
  destruct (pnl_unfold trades2 trades1 H2 H1) as [_ [_ E']].
  cbv zeta in E, E'. rewrite E, E'. clear E E'.
  rewrite (Nat.min_comm (length trades2)).
  set (n := Nat.min (length trades1) (length trades2)).
  set (p1 := take n (map profit_loss trades1)).
  set (p2 := take n (map profit_loss trades2)).
  set (m1 := Qsum p1 / Qlen p1). set (m2 := Qsum p2 / Qlen p2).
  destruct (sum_of (fun a => pysquare (a - m1)) p1) as [v1 | e1] eqn:E1,
    (sum_of (fun b => pysquare (b - m2)) p2) as [v2 | e2] eqn:E2;
    cbn [rbind]; try reflexivity.
  - rewrite (Qsqrt_eq (v2 * v1) (v1 * v2)) by ring.
    destruct (Qeq_bool (Qsqrt (v1 * v2)) 0); [reflexivity |].
    apply Qmult_comp; [| reflexivity].
    unfold Qsum. apply fold_Qplus_eq; [| reflexivity].
    apply products_swap.
  - apply squares_raise in E1, E2. congruence.
Qed.

(** ** Where a finding comes from *)

Lemma compare_clients_inv (set_order : list string -> list string)
  (threshold : Q) (partner1 partner2 : string)
  (client1 client2 : Client) (acc acc' : list Finding) :
  trades client1 <> [] ->
  compare_clients set_order threshold partner1 partner2 client1 acc client2
  = Ok acc' ->
  acc' = acc
  \/ exists f, acc' = acc ++ [f]
               /\ made_for threshold partner1 partner2 client1 client2 f.
Proof.
  intros Hne1 H. unfold compare_clients in H.
  destruct (trades client2) as [| t2 ts2] eqn:E2;
    [injection H as <-; now left |].
  rewrite <- E2 in H.
  destruct (calculate_timing_correlation _ _ 10) as [timing |] eqn:Et;
    [| discriminate].
  destruct (detect_opposite_directions _ _ 10) as [pairs |] eqn:Ep;
    [| discriminate].
  destruct (calculate_pnl_correlation _ _) as [pnl |] eqn:Ec; [| discriminate].
  cbn [rbind] in H.
  assert ((0 <? Nat.min (length (trades client1)) (length (trades client2)))%nat
          = true) as Hmin.
  { apply Nat.ltb_lt. rewrite E2. destruct (trades client1); [contradiction |].
    cbn [length]. lia. }
  rewrite Hmin in H.
  destruct (Qgeb _ threshold) eqn:Eg; [| injection H as <-; now left].
  injection H as <-. right. eexists. split; [reflexivity |].
  exists timing, pnl, pairs. apply Qgeb_ge in Eg.
  rewrite E2 at 4. cbn.
  repeat split; try assumption; try reflexivity. discriminate.
Qed.

Lemma compare_groups_inv (set_order : list string -> list string)
  (threshold : Q) (partner1 partner2 : string)
  (clients1 clients2 : list Client) (acc acc' : list Finding) :
  compare_groups set_order threshold partner1 clients1 acc (partner2, clients2)
  = Ok acc' ->
  exists new,
    acc' = acc ++ new
    /\ Forall (fun f => exists c1 c2,
                  In c1 clients1 /\ In c2 clients2
                  /\ made_for threshold partner1 partner2 c1 c2 f) new.
Proof.
  unfold compare_groups.
  apply (for_each_inv
           (fun a => exists new,
               a = acc ++ new
               /\ Forall (fun f => exists c1 c2,
                             In c1 clients1 /\ In c2 clients2
                             /\ made_for threshold partner1 partner2 c1 c2 f)
                         new)).
  2:{ exists []. rewrite app_nil_r. auto. }
  intros a c1 a' Hc1 Ha H.
  destruct (trades c1) as [| t ts] eqn:E1; [now injection H as <- |].
  revert H.
  apply (for_each_inv
           (fun a => exists new,
               a = acc ++ new
               /\ Forall (fun f => exists c1 c2,
                             In c1 clients1 /\ In c2 clients2
                             /\ made_for threshold partner1 partner2 c1 c2 f)
                         new)); [| exact Ha].
  intros b c2 b' Hc2 [new [-> Hnew]] H.
  apply compare_clients_inv in H as [-> | [f [-> Hf]]];
    [eauto | | rewrite E1; discriminate].
  exists (new ++ [f]). rewrite app_assoc. split; [reflexivity |].
  apply Forall_app. split; [exact Hnew |]. repeat constructor.
  exists c1, c2. auto.
Qed.

Lemma scan_partners_inv (set_order : list string -> list string)
  (threshold : Q) (all : list (string * list Client))
  (groups : list (string * list Client)) :
  NoDup (map fst groups) -> incl groups all ->
  forall acc acc',
    scan_partners set_order threshold groups acc = Ok acc' ->
    exists new, acc' = acc ++ new /\ Forall (across threshold all) new.
Proof.
  induction groups as [| [p1 cs1] later IH]; intros Hnd Hincl acc acc' H;
    cbn [scan_partners] in H.
  - injection H as <-. exists []. rewrite app_nil_r. auto.
  - cbn [map fst] in Hnd. apply NoDup_cons in Hnd as [Hp1 Hnd].
    destruct (for_each _ later acc) as [mid |] eqn:E; [| discriminate].
    cbn [rbind] in H.
    assert (exists new, mid = acc ++ new
                        /\ Forall (across threshold all) new) as [n1 [-> H1]].
    { revert E.
      apply (for_each_inv
               (fun a => exists new,
                   a = acc ++ new /\ Forall (across threshold all) new)).
      2:{ exists []. rewrite app_nil_r. auto. }
      intros a [p2 cs2] a' Hin [new [-> Hnew]] Hstep.
      apply compare_groups_inv in Hstep as [more [-> Hmore]].
      exists (new ++ more). rewrite app_assoc. split; [reflexivity |].
      apply Forall_app. split; [exact Hnew |].
      eapply List.Forall_impl; [| exact Hmore].
      intros f [c1 [c2 [Hc1 [Hc2 Hf]]]].
      exists p1, cs1, p2, cs2, c1, c2.
      split; [apply Hincl; now left |].
      split; [apply Hincl; now right |].
      split; [| auto].
      intros ->. apply Hp1, list_elem_of_In.
      change p2 with (fst (p2, cs2)). now apply in_map. }
    apply IH in H as [n2 [-> H2]]; [| exact Hnd |].
    + exists (n1 ++ n2). rewrite app_assoc. split; [reflexivity |].
      apply Forall_app. auto.
    + intros x Hx. apply Hincl. now right.
Qed.

Lemma detect_opposite_trading_inv (set_order : list string -> list string)
  (clients : list Client) (threshold : Q)
  (found : list Finding) :
  detect_opposite_trading set_order clients threshold = Ok found ->
  Forall (reports_pair threshold clients) found.
Proof.
  unfold detect_opposite_trading. intros H.
  destruct (scan_partners _ _ _ []) as [raw |] eqn:E; [| discriminate].
  cbn [rbind] in H. injection H as <-.
  eapply Permutation_Forall; [symmetry; apply sort_by_perm |].
  destruct (group_by_partner_spec clients) as [Hnd [_ [_ Hgroups]]].
  apply (scan_partners_inv set_order threshold (group_by_partner clients))
    in E
    as [new [-> Hnew]]; [| exact Hnd | intros x Hx; exact Hx].
  cbn [app]. eapply List.Forall_impl; [| exact Hnew].
  intros f [p1 [cs1 [p2 [cs2 [c1 [c2 [H1 [H2 [Hne [Hc1 [Hc2 Hf]]]]]]]]]]].
  apply Hgroups in H1 as [-> _]. apply Hgroups in H2 as [-> _].
  apply List.filter_In in Hc1 as [Hc1 E1]. apply String.eqb_eq in E1.
  apply List.filter_In in Hc2 as [Hc2 E2]. apply String.eqb_eq in E2.
  exists c1, c2. rewrite E1, E2. auto.
Qed.

(** X7: every finding of [detect_opposite_trading] names two different
    partners and two clients of the snapshot, the first referred by
    [partner_a], the second by [partner_b], both with at least one trade;
    [total_trades_analyzed] is the number of their trades together. *)
Theorem opposite_findings_cross_partner :
  forall (set_order : list string -> list string) (clients : list Client)
         (threshold : Q) (found : list Finding),
    detect_opposite_trading set_order clients threshold = Ok found ->
    forall f, In f found ->
      partner_a f <> partner_b f
      /\ exists c1 c2 : Client,
           In c1 clients /\ In c2 clients
           /\ client_a f = client_id c1 /\ referred_by c1 = partner_a f
           /\ client_b f = client_id c2 /\ referred_by c2 = partner_b f
           /\ trades c1 <> [] /\ trades c2 <> []
           /\ total_trades_analyzed f
              = (length (trades c1) + length (trades c2))%nat.
Proof.
  intros set_order clients threshold found H f Hf.
  apply detect_opposite_trading_inv in H. rewrite List.Forall_forall in H.
  destruct (H f Hf) as [c1 [c2 [H1 [H2 [Hne Hmade]]]]].
  destruct Hmade as [timing [pnl [pairs [_ [_ [_ [Hn1 [Hn2 Hrest]]]]]]]].
  cbv zeta in Hrest.
  destruct Hrest as [_ [Ha [Hb [Hca [Hcb [_ [_ [_ [_ [_ [Htot _]]]]]]]]]]].
  split; [congruence |]. exists c1, c2. repeat split; auto.
Qed.

Lemma opposite_findings_cross_partner_witness :
  length sample_schemes = 1%nat
  /\ forall f, In f sample_schemes ->
       partner_a f <> partner_b f
       /\ exists c1 c2 : Client,
            In c1 [buyer; triple_seller] /\ In c2 [buyer; triple_seller]
            /\ client_a f = client_id c1 /\ referred_by c1 = partner_a f
            /\ client_b f = client_id c2 /\ referred_by c2 = partner_b f
            /\ trades c1 <> [] /\ trades c2 <> []
            /\ total_trades_analyzed f
               = (length (trades c1) + length (trades c2))%nat.
Proof.
  split; [vm_compute; reflexivity |].
  apply (opposite_findings_cross_partner insertion_order
           [buyer; triple_seller] (5 # 10)).
  vm_compute. reflexivity.
Defined.

(** X8: the findings of [detect_opposite_trading] come in descending order
    of confidence, and each confidence score is at least the threshold
    rounded to three digits, and never negative. *)
Theorem opposite_findings_ranked :
  forall (set_order : list string -> list string) (clients : list Client)
         (threshold : Q) (found : list Finding),
    detect_opposite_trading set_order clients threshold = Ok found ->
    Sorted by_confidence_desc found
    /\ Forall (fun f => round_ndigits threshold 3 <= confidence_score f
                        /\ 0 <= confidence_score f) found.
Proof.
  intros set_order clients threshold found H. split.
  - unfold detect_opposite_trading in H.
    destruct (scan_partners _ _ _ []) as [raw |]; [| discriminate].
    cbn [rbind] in H. injection H as <-.
    apply Sorted_weaken with (R := ordered confidence_score Qgeb).
    + intros a b. unfold ordered, by_confidence_desc. apply Qgeb_ge.
    + apply sort_by_sorted, Qgeb_total.
  - apply detect_opposite_trading_inv in H.
    eapply List.Forall_impl; [| exact H].
    intros f [c1 [c2 [_ [_ [_ Hmade]]]]].
    destruct Hmade as [timing [pnl [pairs [Ht [_ [_ [_ [_ Hrest]]]]]]]].
    cbv zeta in Hrest. destruct Hrest as [Hthr [_ [_ [_ [_ [-> _]]]]]].
    split; [now apply round_ndigits_mono |].
    apply round_ndigits_nonneg.
    apply timing_correlation_range in Ht.
    unfold suspicion.
    assert (0 <= pymax 0 (- pnl)).
    { unfold pymax. destruct (Qltb 0 (- pnl)) eqn:B; [| lra].
      apply Qltb_lt in B. lra. }
    assert (0 <= Qlen pairs
                 / inject_Z (Z.of_nat (Nat.min (length (trades c1))
                                               (length (trades c2))))).
    { unfold Qdiv. apply Qmult_le_0_compat.
      - unfold Qlen. change 0 with (inject_Z 0). rewrite <- Zle_Qle. lia.
      - apply Qinv_le_0_compat. change 0 with (inject_Z 0).
        rewrite <- Zle_Qle. lia. }
    nra.
Qed.

Lemma opposite_findings_ranked_witness :
  length sample_schemes = 1%nat
  /\ Sorted by_confidence_desc sample_schemes
  /\ Forall (fun f => round_ndigits (5 # 10) 3 <= confidence_score f
                      /\ 0 <= confidence_score f) sample_schemes.
Proof.
  split; [vm_compute; reflexivity |].
  apply (opposite_findings_ranked insertion_order [buyer; triple_seller]
           (5 # 10)).
  vm_compute. reflexivity.
Defined.

Lemma one_key (p : string) (keys : list string) :
  NoDup keys -> (forall k, k ∈ keys -> k = p) -> (length keys <= 1)%nat.
Proof.
  intros Hnd Hall. destruct keys as [| a [| b rest]]; cbn; try lia.
  exfalso. apply NoDup_cons in Hnd as [Ha _]. apply Ha.
  rewrite (Hall a), <- (Hall b); [apply list_elem_of_here | |].
  - apply list_elem_of_further, list_elem_of_here.
  - apply list_elem_of_here.
Qed.

(** X9: clients are only compared across partners: on a snapshot whose
    clients were all referred by one partner, [detect_opposite_trading]
    returns the empty list, whatever their trades are. *)
Theorem one_partner_no_findings :
  forall (set_order : list string -> list string) (clients : list Client)
         (threshold : Q) (p : string),
    Forall (fun c => referred_by c = p) clients ->
    detect_opposite_trading set_order clients threshold = Ok [].
Proof.
  intros set_order clients threshold p Hall. unfold detect_opposite_trading.
  destruct (group_by_partner_spec clients) as [Hnd [Hkeys _]].
  assert (length (map fst (group_by_partner clients)) <= 1)%nat as Hlen.
  { apply (one_key p); [exact Hnd |]. intros k Hk.
    apply Hkeys in Hk as [c [Hc <-]].
    rewrite List.Forall_forall in Hall. now apply Hall. }
  rewrite length_map in Hlen.
  destruct (group_by_partner clients) as [| [p1 cs1] [| g rest]];
    [reflexivity | reflexivity | cbn [length] in Hlen; lia].
Qed.

Lemma one_partner_no_findings_witness :
  detect_opposite_trading insertion_order (lockstep_group (naive_at 0))
                          (5 # 10)
  = Ok [].
Proof.
  apply (one_partner_no_findings insertion_order
           (lockstep_group (naive_at 0)) (5 # 10) "P1").
  repeat constructor.
Defined.

(** ** The network rollup *)

Lemma involve_total (k : string) (v : Q) (c : string)
  (d : list (string * Involvement)) :
  schemes_total (dict_upd k no_involvement (involve v c) d)
  = S (schemes_total d).
Proof.
  unfold schemes_total.
  induction d as [| [k0 i] d IH]; cbn [dict_upd]; [reflexivity |].
  destruct (String.eqb k k0); cbn [map foldr snd]; [reflexivity |].
  rewrite IH. lia.
Qed.

Lemma involve_ok (v : Q) (c : string) (i : Involvement) :
  (size (inv_clients i) <= schemes i)%nat -> involved_ok (involve v c i).
Proof.
  intros H. unfold involved_ok, involve. cbn [inv_clients schemes].
  pose proof (size_union_alt (inv_clients i) {[c]}) as Hu.
  assert (size ({[c]} ∖ inv_clients i : gset string) <= 1)%nat as Hd.
  { etransitivity; [apply subseteq_size, subseteq_difference_l; reflexivity |].
    now rewrite size_singleton. }
  split; [| lia].
  assert (c ∈ inv_clients i ∪ {[c]}) as Hc by set_solver.
  destruct (size (inv_clients i ∪ {[c]})) eqn:E; [| lia].
  apply size_empty_inv in E. rewrite E in Hc.
  now apply not_elem_of_empty in Hc.
Qed.

Lemma involvement_fold (found : list Finding) :
  forall d,
    NoDup (map fst d) ->
    Forall (fun kv => involved_ok (snd kv)) d ->
    let d' :=
      fold_left (fun d scheme =>
                   let d := dict_upd (partner_a scheme) no_involvement
                              (involve (estimated_fraud_value scheme)
                                       (client_a scheme)) d in
                   dict_upd (partner_b scheme) no_involvement
                     (involve (estimated_fraud_value scheme)
                              (client_b scheme)) d)
                found d in
    NoDup (map fst d')
    /\ Forall (fun kv => involved_ok (snd kv)) d'
    /\ schemes_total d' = (schemes_total d + 2 * length found)%nat.
Proof.
  induction found as [| f found IH]; intros d Hnd Hok; cbn [fold_left].
  - repeat split; [exact Hnd | exact Hok | cbn; lia].
  - cbv zeta.
    assert (forall k v c (d0 : list (string * Involvement)),
              Forall (fun kv => involved_ok (snd kv)) d0 ->
              Forall (fun kv => involved_ok (snd kv))
                     (dict_upd k no_involvement (involve v c) d0)) as Hstep.
    { intros k v c d0 H0.
      apply (dict_upd_values involved_ok); [| | exact H0].
      - apply involve_ok. cbn. rewrite size_empty. lia.
      - intros i [_ Hi]. now apply involve_ok. }
    edestruct (IH (dict_upd (partner_b f) no_involvement
                     (involve (estimated_fraud_value f) (client_b f))
                     (dict_upd (partner_a f) no_involvement
                        (involve (estimated_fraud_value f) (client_a f)) d)))
      as [H1 [H2 H3]].
    + now apply dict_upd_NoDup, dict_upd_NoDup.
    + now apply Hstep, Hstep.
    + cbv zeta in H1, H2, H3. split; [exact H1 |]. split; [exact H2 |].
      rewrite H3, !involve_total. cbn [length]. lia.
Qed.

(** X10: in the report of [analyze_partner_network] the total is the
    number of schemes listed; every involved partner has one entry; each
    entry counts at least one client and no more clients than schemes; and
    the scheme counts of all partners add up to twice the number of schemes
    (each scheme involves two partners). *)
Theorem network_rollup_counts :
  forall (set_order : list string -> list string) (partners : list Partner)
         (clients : list Client) (r : NetworkReport),
    analyze_partner_network set_order partners clients = Ok r ->
    total_schemes_detected r = length (report_schemes r)
    /\ NoDup (map fst (partner_involvement r))
    /\ Forall (fun e => let '(_, (n_schemes, _, n_clients)) := e in
                        (1 <= n_clients <= n_schemes)%nat)
              (partner_involvement r)
    /\ foldr Nat.add 0%nat
             (map (fun e => fst (fst (snd e))) (partner_involvement r))
       = (2 * total_schemes_detected r)%nat.
Proof.
  intros set_order partners clients r H.
  unfold analyze_partner_network in H.
  destruct (detect_opposite_trading set_order clients default_threshold)
    as [found |]; [| discriminate].
  cbn [rbind] in H. injection H as <-.
  cbn [total_schemes_detected report_schemes partner_involvement].
  destruct (involvement_fold found [] NoDup_nil_2 (List.Forall_nil _))
    as [Hnd [Hok Htot]].
  cbv zeta in Hnd, Hok, Htot.
  set (d := fold_left _ found []) in *.
  split; [reflexivity |]. split; [| split].
  - rewrite map_map.
    erewrite map_ext; [exact Hnd |]. now intros [p i].
  - apply List.Forall_map. eapply List.Forall_impl; [| exact Hok].
    now intros [p i] Hi.
  - rewrite map_map. unfold schemes_total in Htot. cbn in Htot.
    erewrite map_ext; [rewrite Htot; lia |]. now intros [p i].
Qed.

Lemma network_rollup_counts_witness :
  match analyze_partner_network insertion_order [] [buyer; triple_seller] with
  | Ok r =>
      total_schemes_detected r = 1%nat
      /\ total_schemes_detected r = length (report_schemes r)
      /\ NoDup (map fst (partner_involvement r))
      /\ Forall (fun e => let '(_, (n_schemes, _, n_clients)) := e in
                          (1 <= n_clients <= n_schemes)%nat)
                (partner_involvement r)
      /\ foldr Nat.add 0%nat
               (map (fun e => fst (fst (snd e))) (partner_involvement r))
         = (2 * total_schemes_detected r)%nat
  | Raise _ => False
  end.
Proof.
  destruct (analyze_partner_network insertion_order [] [buyer; triple_seller])
    as [r | e] eqn:E.
  - split; [| exact (network_rollup_counts insertion_order []
                       [buyer; triple_seller] r E)].
    vm_compute in E. injection E as <-. reflexivity.
  - vm_compute in E. discriminate E.
Defined.

End OppositeFacts.

(* ================================================================== *)
(** * Mirror trading: the similarity score and the greedy matching *)
(* ================================================================== *)

Module MatchingFacts.
Import MirrorTrading MirrorInvariants MirrorCertificates.
Import Samples SampleRuns OppositeFacts.

Lemma pymin_comm (a b : Q) : pymin a b == pymin b a.
Proof.
  unfold pymin. destruct (Qltb b a) eqn:E1, (Qltb a b) eqn:E2;
    try reflexivity.
  - apply Qltb_lt in E1, E2. lra.
  - apply Qltb_ge in E1, E2. lra.
Qed.

Lemma pymax_comm (a b : Q) : pymax a b == pymax b a.
Proof.
  unfold pymax. destruct (Qltb a b) eqn:E1, (Qltb b a) eqn:E2;
    try reflexivity.
  - apply Qltb_lt in E1, E2. lra.
  - apply Qltb_ge in E1, E2. lra.
Qed.

Lemma pydiv_comp (x x' y y' : Q) :
  x == x' -> y == y' ->
  match pydiv x y, pydiv x' y' with
  | Ok q, Ok q' => q == q'
  | Raise e, Raise e' => e = e'
  | _, _ => False
  end.
Proof.
  intros Hx Hy. unfold pydiv.
  assert (Qeq_bool y' 0 = Qeq_bool y 0) as ->.
  { destruct (Qeq_bool y 0) eqn:E.
    - apply Qeq_bool_iff in E. apply Qeq_bool_iff. now rewrite <- Hy.
    - apply Qeq_bool_false. intros H. apply Qeq_bool_neq in E.
      apply E. now rewrite Hy. }
  destruct (Qeq_bool y 0); [reflexivity |].
  now rewrite Hx, Hy.
Qed.

Lemma static_score_range (trade1 trade2 : Trade) (vol_ratio : Q) :
  0 <= static_score trade1 trade2 vol_ratio <= 3.
Proof.
  unfold static_score.
  destruct (String.eqb _ _), (String.eqb _ _), (Qgeb vol_ratio (8 # 10)),
    (Qgeb vol_ratio (5 # 10)); lra.
Qed.

Lemma static_score_comm (trade1 trade2 : Trade) (r r' : Q) :
  r == r' -> static_score trade1 trade2 r == static_score trade2 trade1 r'.
Proof.
  intros Hr. unfold static_score, Qgeb.
  rewrite (Qleb_comp (8 # 10) (8 # 10) (Qeq_refl _) r r' Hr),
    (Qleb_comp (5 # 10) (5 # 10) (Qeq_refl _) r r' Hr),
    (String.eqb_sym (instrument trade2)),
    (String.eqb_sym (direction trade2)).
  reflexivity.
Qed.

(** [calculate_trade_similarity], with the static part named. *)
Lemma similarity_unfold (trade1 trade2 : Trade) (w : Z) :
  calculate_trade_similarity trade1 trade2 w
  = try! vol_ratio := pydiv (pymin (volume trade1) (volume trade2))
                            (pymax (volume trade1) (volume trade2)) in
    try! t1 := parse_timestamp (t_timestamp trade1) in
    try! t2 := parse_timestamp (t_timestamp trade2) in
    try! delta := dt_sub t1 t2 in
    let time_diff_minutes := Qabs (total_seconds delta) / 60 in
    if Qle_bool time_diff_minutes (inject_Z w) then
      try! q := pydiv time_diff_minutes (inject_Z w) in
      Ok ((static_score trade1 trade2 vol_ratio + (1 - q)) / 4)
    else Ok (static_score trade1 trade2 vol_ratio / 4).
Proof. reflexivity. Qed.

Lemma trade_similarity_range :
  forall (trade1 trade2 : Trade) (time_window_minutes : Z) (s : Q),
    calculate_trade_similarity trade1 trade2 time_window_minutes = Ok s ->
    0 <= s <= 1.
Proof.
  intros trade1 trade2 w s. rewrite similarity_unfold.
  destruct (pydiv _ _) as [r |]; [| discriminate]. cbn [rbind].
  destruct (parse_timestamp _) as [t1 |]; [| discriminate]. cbn [rbind].
  destruct (parse_timestamp _) as [t2 |]; [| discriminate]. cbn [rbind].
  destruct (dt_sub t1 t2) as [delta |]; [| discriminate].
  cbn [rbind]. cbv zeta.
  pose proof (static_score_range trade1 trade2 r) as [H0 H3].
  destruct (Qle_bool _ (inject_Z w)) eqn:Ew.
  - destruct (pydiv _ (inject_Z w)) as [q |] eqn:Eq; [| discriminate].
    cbn [rbind]. intros H. injection H as <-.
    apply Qle_bool_iff in Ew. apply decay_unit in Eq; [| | exact Ew].
    + split; [apply Qle_shift_div_l | apply Qle_shift_div_r]; lra.
    + apply Qle_shift_div_l; [lra |]. rewrite Qmult_0_l. apply Qabs_nonneg.
  - intros H. injection H as <-.
    split; [apply Qle_shift_div_l | apply Qle_shift_div_r]; lra.
Qed.

(** X11: whenever [calculate_trade_similarity] returns, the score lies in
    [0, 1]. *)
Theorem trade_similarity_unit :
  forall (trade1 trade2 : Trade) (time_window_minutes : Z) (s : Q),
    calculate_trade_similarity trade1 trade2 time_window_minutes = Ok s ->
    0 <= s <= 1.
Proof. exact trade_similarity_range. Qed.

Lemma trade_similarity_unit_witness :
  0 <= returned 0 (calculate_trade_similarity sample_trade sample_trade 5)
    <= 1.
Proof.
  apply (trade_similarity_unit sample_trade sample_trade 5).
  vm_compute. reflexivity.
Defined.

Lemma total_seconds_opp (z : Z) :
  Qabs (total_seconds (- z)) == Qabs (total_seconds z).
Proof.
  unfold total_seconds.
  assert (inject_Z (- z) / inject_Z 1000000
          == - (inject_Z z / inject_Z 1000000)) as ->
    by (rewrite inject_Z_opp; field; discriminate).
  apply Qabs_opp.
Qed.

(** X12: the similarity of two trades is symmetric: both orders return
    equal scores, or both raise the same exception. *)
Theorem trade_similarity_symmetric :
  forall (trade1 trade2 : Trade) (time_window_minutes : Z),
    match calculate_trade_similarity trade1 trade2 time_window_minutes,
          calculate_trade_similarity trade2 trade1 time_window_minutes with
    | Ok s, Ok s' => s == s'
    | Raise e, Raise e' => e = e'
    | _, _ => False
    end.
Proof.
  intros a b w. rewrite !similarity_unfold.
  pose proof (pydiv_comp _ _ _ _ (pymin_comm (volume a) (volume b))
                (pymax_comm (volume a) (volume b))) as Hv.
  destruct (pydiv (pymin (volume a) (volume b)) _) as [r |],
    (pydiv (pymin (volume b) (volume a)) _) as [r' |];
    try contradiction; [| exact Hv].
  cbn [rbind].
  destruct (t_timestamp a) as [da | sa], (t_timestamp b) as [db | sb];
    cbn [parse_timestamp rbind]; try reflexivity.
  unfold dt_sub.
  assert (Bool.eqb (aware db) (aware da) = Bool.eqb (aware da) (aware db))
    as -> by (destruct (aware da), (aware db); reflexivity).
  destruct (Bool.eqb (aware da) (aware db)); cbn [rbind]; [| reflexivity].
  cbv zeta.
  assert (Qabs (total_seconds (instant db - instant da)) / 60
          == Qabs (total_seconds (instant da - instant db)) / 60) as Ht.
  { replace (instant db - instant da)%Z with (- (instant da - instant db))%Z
      by lia.
    now rewrite total_seconds_opp. }
  set (d := Qabs (total_seconds (instant da - instant db)) / 60) in *.
  set (d' := Qabs (total_seconds (instant db - instant da)) / 60) in *.
  assert (Qle_bool d' (inject_Z w) = Qle_bool d (inject_Z w)) as ->
    by (apply Qleb_comp; [exact Ht | reflexivity]).
  pose proof (static_score_comm a b r r' Hv) as Hs.
  destruct (Qle_bool d (inject_Z w)).
  - pose proof (pydiv_comp d d' (inject_Z w) (inject_Z w)) as Hq.
    destruct (pydiv d (inject_Z w)) as [q |], (pydiv d' (inject_Z w)) as [q' |];
      cbn [rbind].
    + rewrite Hs, Hq; [reflexivity | now symmetry | reflexivity].
    + apply Hq; [now symmetry | reflexivity].
    + apply Hq; [now symmetry | reflexivity].
    + apply Hq; [now symmetry | reflexivity].
  - now rewrite Hs.
Qed.

(** ** The greedy choice *)

Section Greedy.
Variables (time_window_minutes : Z) (min_similarity : Q).
Variables (trades2 : list Trade) (used_indices : gset nat) (t1 : Trade).

Local Abbreviation scores :=
  (MirrorCertificates.scores time_window_minutes trades2 t1).
Local Abbreviation scanned :=
  (MirrorCertificates.scanned time_window_minutes min_similarity trades2
     used_indices t1).

Lemma scan_candidates_scanned (rest : list Trade) :
  forall (idx : nat) (best best' : Best),
    (forall k, rest !! k = trades2 !! (idx + k)%nat) ->
    scanned idx best ->
    scan_candidates time_window_minutes used_indices t1 idx rest best
    = Ok best' ->
    scanned (idx + length rest) best'.
Proof.
  induction rest as [| t2 rest IH]; intros idx best best' Hpos Hbest H;
    cbn [scan_candidates] in H.
  - injection H as <-. cbn [length]. now rewrite Nat.add_0_r.
  - assert (trades2 !! idx = Some t2) as Hidx.
    { pose proof (Hpos 0%nat) as H0. rewrite Nat.add_0_r in H0.
      now rewrite <- H0. }
    assert (forall k, rest !! k = trades2 !! (S idx + k)%nat) as Hrest.
    { intros k. rewrite Nat.add_succ_comm, <- Hpos. reflexivity. }
    cbn [length]. rewrite <- Nat.add_succ_comm.
    destruct Hbest as [Hmin [Hseen Hcand]].
    destruct (bool_decide (idx ∈ used_indices)) eqn:Eu.
    + apply bool_decide_eq_true in Eu.
      apply (IH (S idx) best best' Hrest); [| exact H].
      split; [exact Hmin |]. split.
      * intros j Hj Hlen Hfree.
        destruct (Nat.eq_dec j idx) as [-> | Hne]; [contradiction |].
        apply Hseen; [lia | exact Hlen | exact Hfree].
      * destruct (best_match best); [| exact Hcand].
        destruct Hcand as [i Hi]. exists i.
        repeat split; try apply Hi. destruct Hi as [_ [Hi _]]. lia.
    + apply bool_decide_eq_false in Eu.
      destruct (calculate_trade_similarity t1 t2 time_window_minutes)
        as [sim |] eqn:Es; [| discriminate].
      cbn [rbind] in H.
      apply (IH (S idx) _ best' Hrest) in H; [exact H |].
      destruct (Qltb (best_similarity best) sim) eqn:Eb.
      * apply Qltb_lt in Eb. unfold MirrorCertificates.scanned.
        cbn [best_similarity best_match best_idx].
        split; [lra |]. split.
        -- intros j Hj Hlen Hfree.
           destruct (Nat.eq_dec j idx) as [-> | Hne].
           ++ exists sim. split; [now exists t2 | lra].
           ++ destruct (Hseen j) as [q [Hq Hle]]; [lia | assumption.. |].
              exists q. split; [exact Hq | lra].
        -- exists idx. repeat split; try assumption; [lia | lra |].
           intros j Hj Hfree.
           destruct (Hseen j) as [q [Hq Hle]];
             [exact Hj | | exact Hfree |].
           { apply lookup_lt_Some in Hidx. lia. }
           exists q. split; [exact Hq | lra].
      * apply Qltb_ge in Eb. split; [exact Hmin |]. split.
        -- intros j Hj Hlen Hfree.
           destruct (Nat.eq_dec j idx) as [-> | Hne].
           ++ exists sim. split; [now exists t2 | exact Eb].
           ++ apply Hseen; [lia | exact Hlen | exact Hfree].
        -- destruct (best_match best); [| exact Hcand].
           destruct Hcand as [i Hi]. exists i.
           repeat split; try apply Hi. destruct Hi as [_ [Hi _]]. lia.
Qed.

(** The greedy step: either no unused trade scores above the threshold and
    nothing changes, or the unused trade with the highest score, the first
    of them, is matched and marked used. *)
Lemma greedy_step_spec :
  forall (matches matches' : list Match) (used' : gset nat),
    match_step time_window_minutes min_similarity trades2
               (matches, used_indices) t1 = Ok (matches', used') ->
    (matches' = matches /\ used' = used_indices
     /\ forall j, (j < length trades2)%nat -> (j ∉ used_indices) ->
                  exists q, scores j q /\ q <= min_similarity)
    \/ (exists (m : Match) (i : nat),
          matches' = matches ++ [m]
          /\ used' = used_indices ∪ {[ i ]}
          /\ (i ∉ used_indices)
          /\ trades2 !! i = Some (m_trade2 m)
          /\ m_trade1 m = t1
          /\ m_instrument m = instrument t1
          /\ m_direction m = direction t1
          /\ calculate_trade_similarity t1 (m_trade2 m) time_window_minutes
             = Ok (similarity m)
          /\ min_similarity < similarity m
          /\ forall j, (j < length trades2)%nat -> (j ∉ used_indices) ->
                       exists q, scores j q /\ q <= similarity m
                                 /\ ((j < i)%nat -> q < similarity m)).
Proof.
  intros matches matches' used' H. unfold match_step in H.
  destruct (scan_candidates _ _ _ _ _ _) as [best |] eqn:Es; [| discriminate].
  cbn [rbind] in H.
  apply (scan_candidates_scanned trades2 0%nat) in Es;
    [| reflexivity |].
  2:{ split; [cbn; lra |]. split; [intros j Hj; lia | reflexivity]. }
  cbn [Nat.add] in Es. destruct Es as [Hmin [Hseen Hcand]].
  destruct (best_match best) as [t2 |].
  - destruct Hcand as [i [Hi [Hlt [Hfree [Hat [Hsim [Hgt Hfirst]]]]]]].
    rewrite Hi in H.
    assert ((0 <=? Z.of_nat i)%Z = true) as E by (apply Z.leb_le; lia).
    rewrite E, Nat2Z.id in H. injection H as <- <-.
    right. eexists. exists i. split; [reflexivity |].
    cbn [m_trade1 m_trade2 similarity m_instrument m_direction].
    repeat split; try assumption; try reflexivity.
    intros j Hj Hjfree. destruct (Hseen j) as [q [Hq Hle]]; try assumption.
    exists q. split; [exact Hq |]. split; [exact Hle |].
    intros Hji. destruct (Hfirst j Hji Hjfree) as [q' [[t' [Ht' Hq']] Hlt']].
    destruct Hq as [t'' [Ht'' Hq'']].
    assert (q = q') as -> by congruence. exact Hlt'.
  - injection H as <- <-. left. split; [reflexivity |].
    split; [reflexivity |].
    intros j Hj Hjfree. destruct (Hseen j) as [q [Hq Hle]]; try assumption.
    exists q. split; [exact Hq |]. now rewrite <- Hcand.
Qed.

(** X13: one step of the greedy matching.  Either no trade of [trades2]
    that is still unused scores above [min_similarity], and nothing
    changes; or one match is appended, for the unused position [i] whose
    score is strictly above [min_similarity], at least the score of every
    other unused position and strictly above the score of every earlier
    one (the first of the best), and exactly [i] becomes used. *)
Theorem greedy_step :
  forall (matches matches' : list Match) (used' : gset nat),
    match_step time_window_minutes min_similarity trades2
               (matches, used_indices) t1 = Ok (matches', used') ->
    (matches' = matches /\ used' = used_indices
     /\ forall j, (j < length trades2)%nat -> (j ∉ used_indices) ->
                  exists q, scores j q /\ q <= min_similarity)
    \/ (exists (m : Match) (i : nat),
          matches' = matches ++ [m]
          /\ used' = used_indices ∪ {[ i ]}
          /\ (i ∉ used_indices)
          /\ trades2 !! i = Some (m_trade2 m)
          /\ m_trade1 m = t1
          /\ m_instrument m = instrument t1
          /\ m_direction m = direction t1
          /\ calculate_trade_similarity t1 (m_trade2 m) time_window_minutes
             = Ok (similarity m)
          /\ min_similarity < similarity m
          /\ forall j, (j < length trades2)%nat -> (j ∉ used_indices) ->
                       exists q, scores j q /\ q <= similarity m
                                 /\ ((j < i)%nat -> q < similarity m)).
Proof. exact greedy_step_spec. Qed.
End Greedy.

Lemma greedy_step_witness :
  exists m : Match,
    fst sample_step = [m]
    /\ m_trade1 m = eurusd "T0" "A" (naive_at 0) "BUY" 1
    /\ 7 # 10 < similarity m.
Proof.
  destruct (greedy_step 5 (7 # 10) (ten_trades "B" (naive_at 0)) ∅
              (eurusd "T0" "A" (naive_at 0) "BUY" 1)
              [] (fst sample_step) (snd sample_step))
    as [[H _] | [m [i [H [_ [_ [_ [H1 [_ [_ [_ [Hs _]]]]]]]]]]]].
  - vm_compute. reflexivity.
  - vm_compute in H. discriminate H.
  - exists m. auto.
Defined.

Lemma matching_loop_certified (w : Z) (s : Q) (trades2 : list Trade)
  (trades1 : list Trade) :
  forall matches used matches' used',
    for_each (match_step w s trades2) trades1 (matches, used)
    = Ok (matches', used') ->
    exists new,
      matches' = matches ++ new
      /\ sublist (map m_trade1 new) trades1
      /\ Forall (certified w s trades2) new.
Proof.
  induction trades1 as [| t1 trades1 IH];
    intros matches used matches' used' H; cbn [for_each] in H.
  - injection H as <- <-. exists []. rewrite app_nil_r.
    repeat split; constructor.
  - destruct (match_step w s trades2 (matches, used) t1) as [[mid used1] |]
      eqn:E; [| discriminate].
    cbn [rbind] in H. apply IH in H as [new [-> [Hsub Hall]]].
    apply greedy_step_spec in E
      as [[-> _]
         | [m [i [-> [_ [_ [Hat [H1 [Hi [Hd [Hs [Hgt _]]]]]]]]]]]].
    + exists new. split; [reflexivity |].
      split; [now apply sublist_cons | exact Hall].
    + exists (m :: new). rewrite <- app_assoc. split; [reflexivity |].
      split; [cbn [map]; rewrite H1; now apply sublist_skip |].
      constructor; [| exact Hall].
      rewrite <- H1 in Hs, Hi, Hd.
      repeat split; try assumption.
      * apply list_elem_of_In, list_elem_of_lookup. eauto.
      * now apply trade_similarity_range in Hs.
Qed.

(** X14: the matches of [find_matching_trades] follow the order of
    [trades1], each trade of it matched at most once, and each match joins
    it to a trade of [trades2] with the similarity the record states, which
    is strictly above [min_similarity] and at most 1; [instrument] and
    [direction] are those of the first trade. *)
Theorem matches_certified :
  forall (trades1 trades2 : list Trade) (time_window_minutes : Z)
         (min_similarity : Q) (matches : list Match),
    find_matching_trades trades1 trades2 time_window_minutes min_similarity
    = Ok matches ->
    sublist (map m_trade1 matches) trades1
    /\ Forall (certified time_window_minutes min_similarity trades2) matches.
Proof.
  intros trades1 trades2 w s matches H. unfold find_matching_trades in H.
  destruct (matching_loop trades1 trades2 w s) as [[ms used] |] eqn:E;
    [| discriminate].
  cbn [rbind fst] in H. injection H as <-.
  apply matching_loop_certified in E as [new [-> [Hsub Hall]]].
  cbn [app]. auto.
Qed.

Lemma matches_certified_witness :
  length sample_matches = 10%nat
  /\ sublist (map m_trade1 sample_matches) (ten_trades "A" (naive_at 0))
  /\ Forall (certified 5 (7 # 10) (ten_trades "B" (naive_at 0)))
            sample_matches.
Proof.
  split; [vm_compute; reflexivity |].
  apply (matches_certified (ten_trades "A" (naive_at 0))
           (ten_trades "B" (naive_at 0)) 5 (7 # 10)).
  vm_compute. reflexivity.
Defined.

End MatchingFacts.

(* ================================================================== *)
(** * Mirror trading: the size of the groups *)
(* ================================================================== *)

Module GroupFacts.
Import MirrorTrading MirrorInvariants MirrorCertificates MirrorFacts.
Import Samples SampleRuns.

Lemma clients_in_app (l1 l2 : list Finding) :
  clients_in (l1 ++ l2) = (clients_in l1 + clients_in l2)%nat.
Proof.
  unfold clients_in. induction l1 as [| g l1 IH]; cbn; [reflexivity |].
  cbn in IH. rewrite IH. lia.
Qed.

Lemma clients_in_perm (l1 l2 : list Finding) :
  Permutation l1 l2 -> clients_in l1 = clients_in l2.
Proof.
  unfold clients_in. induction 1; cbn; lia.
Qed.

Lemma members_length (L : list Client) (cluster : list nat) :
  Forall (fun a => (a < length L)%nat) cluster ->
  length (members L cluster) = length cluster.
Proof.
  unfold members. induction 1 as [| a cluster Ha Hall IH]; [reflexivity |].
  cbn [flat_map length]. rewrite length_app, IH.
  apply lookup_lt_is_Some_2 in Ha as [c ->]. reflexivity.
Qed.

Lemma members_in (L : list Client) (cluster : list nat) (c : Client) :
  In c (members L cluster) -> In c L.
Proof.
  unfold members. intros H. apply in_flat_map in H as [idx [_ H]].
  destruct (L !! idx) as [c' |] eqn:E; [| contradiction].
  destruct H as [<- | []]. apply list_elem_of_In.
  eapply list_elem_of_lookup_2; eauto.
Qed.

Lemma foldr_add_flat {A B} (f : A -> list B) (l : list A) :
  foldr Nat.add 0%nat (map (fun a => length (f a)) l)
  = length (flat_map f l).
Proof.
  induction l as [| a l IH]; cbn; [reflexivity |].
  rewrite length_app. cbn in IH. now rewrite IH.
Qed.

Lemma flat_map_trades_bound (cs : list Client) :
  Forall (fun c => (10 <= length (trades c))%nat) cs ->
  (10 * length cs <= length (flat_map trades cs))%nat.
Proof.
  induction 1 as [| c cs Hc Hall IH]; cbn [flat_map length]; [lia |].
  rewrite length_app. lia.
Qed.

Lemma make_group_sized (partner_id : string) (L : list Client) (m : matrix)
  (cluster : list nat) (min_group_size : nat) (g : Finding) :
  Forall (fun c => (10 <= length (trades c))%nat) L ->
  Forall (fun a => (a < length L)%nat) cluster ->
  (min_group_size <= length cluster)%nat ->
  (1 <= length cluster)%nat ->
  make_group partner_id L m cluster = Ok g ->
  sized min_group_size g.
Proof.
  intros HL Hrange Hsize Hone H. unfold make_group in H.
  destruct (generate_mirror_evidence _ _) as [evidence |] eqn:Ee;
    [| discriminate].
  cbn [rbind] in H. injection H as <-.
  unfold generate_mirror_evidence in Ee.
  destruct (match flat_map _ (members L cluster) with
            | [] => _ | _ => _ end) as [within |]; [| discriminate].
  cbn [rbind] in Ee. injection Ee as <-.
  unfold sized.
  cbn [group_size client_ids client_names evidence_summary ev_accounts
       ev_total_trades total_trades common_instruments].
  rewrite !length_map, (members_length L cluster Hrange).
  split; [exact Hsize |]. split; [exact Hone |].
  split; [reflexivity |]. split; [reflexivity |]. split; [reflexivity |].
  split; [apply foldr_add_flat |]. split.
  - rewrite <- (members_length L cluster Hrange).
    apply flat_map_trades_bound. apply List.Forall_forall. intros c Hc.
    apply members_in in Hc. rewrite List.Forall_forall in HL. now apply HL.
  - rewrite length_take. lia.
Qed.

Section Fresh.
Variables (m : matrix) (min_mirror_ratio : Q) (clustered : gset nat).

Lemma grow_fold_fresh (todo : list nat) :
  forall cluster : list nat,
    Forall (fun a => a ∉ clustered) cluster ->
    Forall (fun a => a ∉ clustered)
           (fold_left (grow_step m min_mirror_ratio clustered) todo cluster).
Proof.
  induction todo as [| j todo IH]; intros cluster H; cbn [fold_left];
    [exact H |].
  apply IH. unfold grow_step. case_bool_decide as B; [exact H |].
  destruct (forallb _ cluster); [| exact H].
  apply Forall_app. split; [exact H |]. now repeat constructor.
Qed.

Lemma grow_cluster_fresh (i n : nat) :
  (i ∉ clustered) ->
  Forall (fun a => a ∉ clustered)
         (grow_cluster m min_mirror_ratio clustered i n).
Proof.
  intros Hi. apply grow_fold_fresh. now repeat constructor.
Qed.

Lemma grow_fold_head (todo : list nat) :
  forall cluster : list nat,
    (1 <= length cluster)%nat ->
    (1 <= length (fold_left (grow_step m min_mirror_ratio clustered) todo
                            cluster))%nat.
Proof.
  induction todo as [| j todo IH]; intros cluster H; cbn [fold_left];
    [exact H |].
  apply IH. unfold grow_step. case_bool_decide; [exact H |].
  destruct (forallb _ cluster); [| exact H]. rewrite length_app. lia.
Qed.
End Fresh.

Section OnePartner.
Variables (min_group_size : nat) (min_mirror_ratio : Q).
Variables (partner_id : string) (L : list Client) (m : matrix).
Variable groups0 : list Finding.
Hypothesis L_active : Forall (fun c => (10 <= length (trades c))%nat) L.

Local Abbreviation cluster_inv :=
  (MirrorCertificates.cluster_inv min_group_size L groups0).

Lemma cluster_step_inv (state state' : list Finding * gset nat) (i : nat) :
  (i < length L)%nat -> cluster_inv state ->
  cluster_step partner_id L m min_group_size min_mirror_ratio state i
  = Ok state' ->
  cluster_inv state'.
Proof.
  intros Hi [new [Hg [Hsized [Hcount Hrange]]]] H.
  destruct state as [groups clustered]. cbn [fst snd] in *.
  unfold cluster_step in H.
  case_bool_decide as B; [injection H as <-; now exists new |].
  set (cluster := grow_cluster m min_mirror_ratio clustered i (length L)) in *.
  destruct (min_group_size <=? length cluster)%nat eqn:Es;
    [| injection H as <-; now exists new].
  destruct (make_group partner_id L m cluster) as [g |] eqn:Eg;
    [| discriminate].
  cbn [rbind] in H. injection H as <-. cbn [fst snd].
  apply Nat.leb_le in Es.
  pose proof (grow_cluster_range m min_mirror_ratio clustered i (length L) Hi)
    as Hcr.
  pose proof (grow_cluster_NoDup m min_mirror_ratio clustered i (length L))
    as Hnd.
  pose proof (grow_cluster_fresh m min_mirror_ratio clustered i (length L) B)
    as Hfresh.
  fold cluster in Hcr, Hnd, Hfresh.
  assert (1 <= length cluster)%nat as Hone
    by (apply grow_fold_head; cbn; lia).
  pose proof (make_group_sized _ _ _ _ _ _ L_active Hcr Es Hone Eg) as Hs.
  exists (new ++ [g]). split; [now rewrite Hg, app_assoc |].
  split.
  { apply Forall_app. split; [exact Hsized |].
    constructor; [exact Hs | constructor]. }
  split.
  - rewrite clients_in_app, Hcount. unfold clients_in. cbn.
    apply make_group_fields in Eg as [_ [-> _]].
    rewrite size_union.
    + rewrite size_list_to_set
        by first [exact Hnd | now apply NoDup_ListNoDup].
      lia.
    + intros a Ha Ha'. apply elem_of_list_to_set in Ha'.
      rewrite List.Forall_forall in Hfresh.
      apply (Hfresh a); [now apply list_elem_of_In | exact Ha].
  - intros a Ha. cbn [snd] in Ha.
    apply elem_of_union in Ha as [Ha | Ha]; [now apply Hrange |].
    apply elem_of_list_to_set, list_elem_of_In in Ha.
    rewrite List.Forall_forall in Hcr. now apply Hcr.
Qed.

Lemma size_below (s : gset nat) (n : nat) :
  (forall a, a ∈ s -> (a < n)%nat) -> (size s <= n)%nat.
Proof.
  intros H.
  assert (s ⊆ set_seq 0 n) as Hsub.
  { intros a Ha. apply elem_of_set_seq. specialize (H a Ha). lia. }
  apply subseteq_size in Hsub. now rewrite size_set_seq in Hsub.
Qed.
End OnePartner.

Lemma partner_step_counts (min_group_size : nat) (min_mirror_ratio : Q)
  (groups groups' : list Finding) (entry : string * list Client) :
  Forall (fun c => (10 <= length (trades c))%nat) (snd entry) ->
  partner_step min_group_size min_mirror_ratio groups entry = Ok groups' ->
  exists new : list Finding,
    groups' = groups ++ new
    /\ Forall (sized min_group_size) new
    /\ (clients_in new <= length (snd entry))%nat.
Proof.
  destruct entry as [partner_id L]. cbn [snd]. intros HL H.
  unfold partner_step in H.
  destruct (length L <? min_group_size)%nat.
  { injection H as <-. exists []. rewrite app_nil_r.
    split; [reflexivity |]. split; [constructor | cbn; lia]. }
  destruct (build_matrix L) as [m |]; [| discriminate]. cbn [rbind] in H.
  destruct (for_each _ _ _) as [state |] eqn:Es; [| discriminate].
  cbn [rbind] in H. injection H as <-.
  assert (cluster_inv min_group_size L groups state)
    as [new [Hg [Hsized [Hcount Hrange]]]].
  { revert Es. apply for_each_inv.
    - intros s i s' Hi Hs Hstep. apply in_seq in Hi.
      eapply cluster_step_inv; eauto. lia.
    - exists []. cbn [fst snd]. rewrite app_nil_r.
      split; [reflexivity |]. split; [constructor |].
      split; [now rewrite size_empty |].
      intros a Ha. now apply not_elem_of_empty in Ha. }
  exists new. split; [exact Hg |]. split; [exact Hsized |].
  rewrite Hcount. now apply size_below.
Qed.

Lemma dict_append_grouped (k : string) (c : Client)
  (d : list (string * list Client)) :
  grouped (dict_append k c d) = S (grouped d).
Proof.
  unfold grouped, dict_append.
  induction d as [| [k0 v] d IH]; cbn [dict_upd]; [reflexivity |].
  destruct (String.eqb k k0); cbn [map foldr snd].
  - rewrite length_app. cbn. lia.
  - cbn [map foldr snd] in IH. rewrite IH. lia.
Qed.

Lemma group_by_partner_grouped (clients : list Client) :
  grouped (group_by_partner clients) = length clients.
Proof.
  unfold group_by_partner.
  assert (forall d,
            grouped (fold_left (fun d c => dict_append (referred_by c) c d)
                               clients d)
            = (grouped d + length clients)%nat) as H.
  { induction clients as [| c clients IH]; intros d; cbn [fold_left length];
      [lia |].
    rewrite IH, dict_append_grouped. lia. }
  now rewrite H.
Qed.

Lemma partner_loop_counts (min_group_size : nat) (min_mirror_ratio : Q)
  (partner_clients : list (string * list Client)) :
  Forall (fun kv => Forall (fun c => (10 <= length (trades c))%nat) (snd kv))
         partner_clients ->
  forall groups groups',
    for_each (partner_step min_group_size min_mirror_ratio) partner_clients
             groups = Ok groups' ->
    exists new : list Finding,
      groups' = groups ++ new
      /\ Forall (sized min_group_size) new
      /\ (clients_in new <= grouped partner_clients)%nat.
Proof.
  induction 1 as [| entry rest He Hrest IH]; intros groups groups' H;
    cbn [for_each] in H.
  - injection H as <-. exists []. rewrite app_nil_r.
    split; [reflexivity |]. split; [constructor | cbn; lia].
  - destruct (partner_step _ _ groups entry) as [mid |] eqn:E;
      [| discriminate].
    cbn [rbind] in H.
    apply partner_step_counts in E as [new1 [-> [Hs1 Hc1]]]; [| exact He].
    apply IH in H as [new2 [-> [Hs2 Hc2]]].
    exists (new1 ++ new2). split; [now rewrite app_assoc |].
    split; [apply Forall_app; now split |].
    rewrite clients_in_app. unfold grouped in *. cbn [map foldr]. lia.
Qed.

Lemma active_filter (clients : list Client) :
  Forall (fun c => (10 <= length (trades c))%nat)
         (filter (fun c => (10 <= length (trades c))%nat) clients).
Proof.
  apply List.Forall_forall. intros c Hc.
  apply list_elem_of_In, list_elem_of_filter in Hc as [Hc _]. exact Hc.
Qed.

Lemma detect_mirror_group_sized :
  forall (clients : list Client) (min_group_size : nat)
         (min_mirror_ratio : Q) (groups : list Finding),
    detect_mirror_group clients min_group_size min_mirror_ratio = Ok groups ->
    Sorted by_group_confidence_desc groups
    /\ Forall (sized min_group_size) groups
    /\ (clients_in groups
        <= length (filter (fun c => (10 <= length (trades c))%nat)
                          clients))%nat.
Proof.
  intros clients min_group_size min_mirror_ratio groups H.
  unfold detect_mirror_group in H.
  destruct (for_each _ _ _) as [found |] eqn:E; [| discriminate].
  cbn [rbind] in H. injection H as <-.
  apply partner_loop_counts in E as [new [-> [Hs Hc]]];
    [| apply group_by_partner_members, active_filter].
  cbn [app]. rewrite group_by_partner_grouped in Hc.
  split.
  { apply Sorted_weaken with (R := ordered confidence_score Qgeb).
    - intros a b. unfold ordered, by_group_confidence_desc. apply Qgeb_ge.
    - apply sort_by_sorted, Qgeb_total. }
  split.
  - eapply Permutation_Forall; [symmetry; apply sort_by_perm | exact Hs].
  - rewrite (clients_in_perm _ new) by apply sort_by_perm. exact Hc.
Qed.



(** X16: in the report of [detect_mirror_trading],
    [total_groups_detected] is the number of groups listed, and
    [total_clients_involved] is at least three per group and at most the
    number of clients with ten trades or more. *)
Theorem mirror_report_totals :
  forall (clients : list Client) (r : Report),
    detect_mirror_trading clients = Ok r ->
    total_groups_detected r = length (groups r)
    /\ (3 * total_groups_detected r <= total_clients_involved r)%nat
    /\ (total_clients_involved r
        <= length (filter (fun c => (10 <= length (trades c))%nat) clients))%nat
    /\ (total_clients_involved r <= length clients)%nat.
Proof.
  intros clients r H. unfold detect_mirror_trading in H.
  destruct (detect_mirror_group _ _ _) as [found |] eqn:E; [| discriminate].
  cbn [rbind] in H. injection H as <-.
  cbn [total_groups_detected total_clients_involved groups].
  apply detect_mirror_group_sized in E as [_ [Hs Hc]].
  fold (clients_in found).
  split; [reflexivity |]. split.
  - clear Hc. induction Hs as [| g found Hg Hall IH]; [cbn; lia |].
    destruct Hg as [Hg _]. unfold default_min_group_size in Hg.
    unfold clients_in in *. cbn [map foldr length] in *. lia.
  - split; [exact Hc |]. etransitivity; [exact Hc |].
    apply length_filter.
Qed.

Lemma mirror_report_totals_witness :
  match detect_mirror_trading (lockstep_group (naive_at 0)) with
  | Ok r =>
      total_clients_involved r = 3%nat
      /\ total_groups_detected r = length (groups r)
      /\ (3 * total_groups_detected r <= total_clients_involved r)%nat
      /\ (total_clients_involved r
          <= length (filter (fun c => (10 <= length (trades c))%nat)
                            (lockstep_group (naive_at 0))))%nat
      /\ (total_clients_involved r
          <= length (lockstep_group (naive_at 0)))%nat
  | Raise _ => False
  end.
Proof.
  destruct (detect_mirror_trading (lockstep_group (naive_at 0))) as [r | e]
    eqn:E.
  - split; [| exact (mirror_report_totals (lockstep_group (naive_at 0)) r E)].
    vm_compute in E. injection E as <-. reflexivity.
  - vm_compute in E. discriminate E.
Defined.

End GroupFacts.

(* ================================================================== *)
(** * Mirror trading: the cells of the matrix, and the evidence *)
(* ================================================================== *)

Module MatrixFacts.
Import MirrorTrading MirrorInvariants MirrorCertificates MirrorFacts.
Import Samples SampleRuns.

Section Cells.
Variable partner_client_list : list Client.
Let n := length partner_client_list.

Local Abbreviation cells_inv :=
  (MirrorCertificates.cells_inv partner_client_list).

Lemma cells_inv_equiv (i j i' j' : nat) (m : matrix) :
  (forall a b, (a < b < n)%nat -> reached i j a b <-> reached i' j' a b) ->
  cells_inv i j m -> cells_inv i' j' m.
Proof.
  intros Heq [Hsq [Hdiag Hcells]]. split; [exact Hsq |].
  split; [exact Hdiag |]. intros a b Hab.
  destruct (Hcells a b Hab) as [Hyes Hno]. specialize (Heq a b Hab).
  split; intros H; [apply Hyes | apply Hno]; tauto.
Qed.

Lemma fill_cell_cells (i j : nat) (m m' : matrix) :
  (i < j < n)%nat -> cells_inv i j m ->
  fill_cell partner_client_list i m j = Ok m' ->
  cells_inv i (S j) m'.
Proof.
  intros Hij [Hsq [Hdiag Hcells]] H. unfold fill_cell, trades_at in H.
  destruct (partner_client_list !! i) as [ci |] eqn:Ei; [| discriminate].
  destruct (partner_client_list !! j) as [cj |] eqn:Ej; [| discriminate].
  cbn [rbind] in H.
  destruct (find_matching_trades (trades ci) (trades cj) default_window
                                 default_min_similarity)
    as [matches |] eqn:E; [| discriminate].
  cbn [rbind] in H. injection H as <-.
  set (r := match_ratio_of matches (trades ci) (trades cj)) in *.
  assert (square n (set_cell m i j r)) as Hsq1 by now apply set_cell_square.
  assert (forall a b,
            cell (set_cell (set_cell m i j r) j i r) a b
            = if decide (a = j /\ b = i) then r
              else if decide (a = i /\ b = j) then r else cell m a b) as Hcell.
  { intros a b. rewrite (cell_set_cell n) by (assumption || lia).
    destruct (decide (a = j /\ b = i)); [reflexivity |].
    apply (cell_set_cell n); (assumption || lia). }
  split; [now apply set_cell_square |]. split.
  { intros a. rewrite Hcell. repeat case_decide; try (exfalso; lia).
    apply Hdiag. }
  intros a b Hab. destruct (Hcells a b Hab) as [Hyes Hno].
  rewrite !Hcell. unfold reached in *.
  assert ((a = i /\ b = j) \/ ~ (a = i /\ b = j)) as [[-> ->] | Hne] by lia.
  - split; [| intros Hn; exfalso; lia]. intros _.
    repeat case_decide; try (exfalso; lia).
    split; [| reflexivity]. exists ci, cj, matches. auto.
  - repeat case_decide; try (exfalso; lia).
    split.
    + intros Hr. apply Hyes. lia.
    + intros Hr. apply Hno. lia.
Qed.

Lemma row_cells (i : nat) (m m' : matrix) :
  (i < n)%nat -> cells_inv i (S i) m ->
  for_each (fill_cell partner_client_list i) (range_from i n) m = Ok m' ->
  cells_inv (S i) (S (S i)) m'.
Proof.
  intros Hi Hm H. unfold range_from in H.
  apply (for_each_seq (cells_inv i)) with (s := m) in H; [| | exact Hm].
  - eapply cells_inv_equiv; [| exact H].
    intros a b Hab. unfold reached. lia.
  - intros j s s' Hj Hs. apply fill_cell_cells; [lia | exact Hs].
Qed.
End Cells.

(** X17: the similarity matrix of a partner's clients is n by n with a
    zero diagonal, and for [a < b] both cells [(a, b)] and [(b, a)] hold
    the match ratio of the trades of client [a] matched against those of
    client [b], in this order, with the default window and threshold. *)
Theorem similarity_matrix_cells :
  forall (partner_client_list : list Client) (similarity_matrix : matrix),
    build_matrix partner_client_list = Ok similarity_matrix ->
    square (length partner_client_list) similarity_matrix
    /\ (forall a, cell similarity_matrix a a = 0)
    /\ forall a b, (a < b < length partner_client_list)%nat ->
         compared partner_client_list a b (cell similarity_matrix a b)
         /\ cell similarity_matrix b a = cell similarity_matrix a b.
Proof.
  intros L m H. unfold build_matrix in H.
  apply (for_each_seq (fun i => cells_inv L i (S i))) in H.
  - destruct H as [Hsq [Hdiag Hcells]]. split; [exact Hsq |].
    split; [exact Hdiag |]. intros a b Hab.
    apply (Hcells a b Hab). unfold reached. lia.
  - intros i s s' Hi Hs. apply row_cells; [lia | exact Hs].
  - split; [apply square_zeros |]. split; [intros a; apply cell_zeros |].
    intros a b Hab. rewrite !cell_zeros. split; [| auto].
    unfold reached. intros Hr. exfalso. lia.
Qed.

Lemma similarity_matrix_cells_witness :
  cell sample_matrix 0 1 == 1
  /\ square 3 sample_matrix
  /\ (forall a, cell sample_matrix a a = 0)
  /\ forall a b, (a < b < 3)%nat ->
       compared (lockstep_group (naive_at 0)) a b (cell sample_matrix a b)
       /\ cell sample_matrix b a = cell sample_matrix a b.
Proof.
  split; [vm_compute; reflexivity |].
  apply (similarity_matrix_cells (lockstep_group (naive_at 0))).
  vm_compute. reflexivity.
Defined.

Section Extreme.
Variables (better : Z -> Z -> bool) (le : Z -> Z -> Prop).
Hypothesis le_refl : forall x, le x x.
Hypothesis le_trans : forall x y z, le x y -> le y z -> le x z.
Hypothesis better_le : forall x y, better x y = true -> le y x.
Hypothesis worse_le : forall x y, better x y = false -> le x y.

Lemma extreme_spec (others : list datetime) :
  forall first e : datetime,
    extreme better first others = Ok e ->
    In e (first :: others)
    /\ forall d, In d (first :: others) ->
                 aware d = aware e /\ le (instant d) (instant e).
Proof.
  unfold extreme.
  induction others as [| d others IH]; intros first e H; cbn [for_each] in H.
  - injection H as <-. split; [now left |].
    intros d [<- | []]. auto.
  - destruct (Bool.eqb (aware first) (aware d)) eqn:Ea; [| discriminate].
    cbn [rbind] in H. apply Bool.eqb_prop in Ea.
    destruct (better (instant d) (instant first)) eqn:Eb.
    + apply IH in H as [Hin Hall]. split.
      * destruct Hin as [<- | Hin]; [right; now left | right; now right].
      * intros x [<- | [<- | Hx]].
        -- destruct (Hall d (or_introl eq_refl)) as [Hw Hl].
           split; [congruence |]. eapply le_trans; [| exact Hl].
           now apply better_le.
        -- apply Hall. now left.
        -- apply Hall. now right.
    + apply IH in H as [Hin Hall]. split.
      * destruct Hin as [<- | Hin]; [now left | right; now right].
      * intros x [<- | [<- | Hx]].
        -- apply Hall. now left.
        -- destruct (Hall first (or_introl eq_refl)) as [Hw Hl].
           split; [congruence |]. eapply le_trans; [| exact Hl].
           now apply worse_le.
        -- apply Hall. now right.
Qed.

Lemma extreme_raises (others : list datetime) :
  forall (first : datetime) (e : exn),
    extreme better first others = Raise e ->
    e = TypeError
    /\ exists a b, In a (first :: others) /\ In b (first :: others)
                   /\ aware a <> aware b.
Proof.
  unfold extreme.
  induction others as [| d others IH]; intros first e H; cbn [for_each] in H;
    [discriminate |].
  destruct (Bool.eqb (aware first) (aware d)) eqn:Ea.
  - cbn [rbind] in H. apply Bool.eqb_prop in Ea.
    destruct (better (instant d) (instant first)).
    + apply IH in H as [-> [a [b [Ha [Hb Hab]]]]]. split; [reflexivity |].
      exists a, b. split; [| split; [| exact Hab]].
      * destruct Ha as [<- | Ha]; [right; now left | right; now right].
      * destruct Hb as [<- | Hb]; [right; now left | right; now right].
    + apply IH in H as [-> [a [b [Ha [Hb Hab]]]]]. split; [reflexivity |].
      exists a, b. split; [| split; [| exact Hab]].
      * destruct Ha as [<- | Ha]; [now left | right; now right].
      * destruct Hb as [<- | Hb]; [now left | right; now right].
  - cbn [rbind] in H. injection H as <-. split; [reflexivity |].
    exists first, d. split; [now left |]. split; [right; now left |].
    now apply Bool.eqb_false_iff.
Qed.
End Extreme.

Lemma days_mono (x y : Z) : (x <= y)%Z -> (days x <= days y)%Z.
Proof. intros H. unfold days. apply Z.div_le_mono; lia. Qed.

(** X18: [generate_mirror_evidence] counts the accounts and their trades;
    when it reports that all accounts signed up within [span] days, then
    [span] lies between 0 and 7, at least two signup dates parsed, and any
    two of them are at most [span] days apart; and it raises only
    TypeError, and only when two signup dates that parse differ in
    carrying a UTC offset. *)
Theorem mirror_evidence_signup_span :
  forall (clients : list Client) (top_instruments : list (string * nat)),
    match generate_mirror_evidence clients top_instruments with
    | Ok ev =>
        ev_accounts ev = length clients
        /\ ev_total_trades ev = length (flat_map trades clients)
        /\ ev_instruments ev = map fst top_instruments
        /\ forall span : Z,
             ev_signup_within_days ev = Some span ->
             (0 <= span <= 7)%Z
             /\ (2 <= length (signups clients))%nat
             /\ forall a b : datetime,
                  In a (signups clients) -> In b (signups clients) ->
                  aware a = aware b
                  /\ (days (instant a - instant b) <= span)%Z
    | Raise e =>
        e = TypeError
        /\ exists a b : datetime,
             In a (signups clients) /\ In b (signups clients)
             /\ aware a <> aware b
    end.
Proof.
  intros clients top_instruments. unfold generate_mirror_evidence.
  fold (signups clients).
  destruct (signups clients) as [| d0 [| d1 rest]] eqn:Es; cbn [rbind].
  1, 2: (split; [reflexivity |]; split;
         [apply GroupFacts.foldr_add_flat |]; split; [reflexivity |];
         cbn [ev_signup_within_days]; discriminate).
  destruct (extreme Z.gtb d0 (d1 :: rest)) as [hi | e] eqn:Ehi.
  2:{ cbn [rbind]. eapply extreme_raises; exact Ehi. }
  cbn [rbind].
  destruct (extreme Z.ltb d0 (d1 :: rest)) as [lo | e] eqn:Elo.
  2:{ cbn [rbind]. eapply extreme_raises; exact Elo. }
  cbn [rbind].
  apply (extreme_spec Z.gtb Z.le) in Ehi as [Hhi_in Hhi]; try lia.
  apply (extreme_spec Z.ltb Z.ge) in Elo as [Hlo_in Hlo]; try lia.
  unfold dt_sub.
  assert (aware hi = aware lo) as Ew by (apply (Hlo hi Hhi_in)).
  rewrite Ew, Bool.eqb_reflx. cbn [rbind].
  split; [reflexivity |]. split; [apply GroupFacts.foldr_add_flat |].
  split; [reflexivity |]. cbn [ev_signup_within_days].
  intros span Hspan.
  destruct (days (instant hi - instant lo) <=? 7)%Z eqn:E7; [| discriminate].
  injection Hspan as <-. apply Z.leb_le in E7.
  split.
  { split; [| exact E7]. change 0%Z with (days 0). apply days_mono.
    destruct (Hhi lo Hlo_in) as [_ Hl]. lia. }
  split; [cbn [length]; lia |].
  intros a b Ha Hb.
  destruct (Hhi a Ha) as [Ha1 Ha2]. destruct (Hlo b Hb) as [Hb1 Hb2].
  split; [congruence |]. apply days_mono. lia.
Qed.

End MatrixFacts.

(* ================================================================== *)
(** * Bonus abuse: flags and evidence *)
(* ================================================================== *)

Module FlagFacts.
Import BonusAbuse FlagTable Samples.

Lemma acts_penalise (p : Z) (flag : string) (opts : list outcome) st :
  In (p, [flag]) opts -> acts opts st (penalise p flag st).
Proof. intros H. exists (p, [flag]). split; [exact H | reflexivity]. Qed.

Lemma acts_skip (opts : list outcome) st : In (0%Z, []) opts -> acts opts st st.
Proof.
  intros H. exists (0%Z, []). split; [exact H |]. destruct st as [s fl].
  cbn [fst snd]. now rewrite Z.sub_0_r, app_nil_r.
Qed.

Ltac settle :=
  first [ apply acts_skip; cbn; tauto
        | apply acts_penalise; cbn; tauto ].

Lemma check_trade_count_acts (k : nat) st :
  acts trade_count_outcomes st (check_trade_count k st).
Proof.
  unfold check_trade_count.
  destruct (k =? 0)%nat; [settle |].
  destruct (k <? 5)%nat; [settle |].
  destruct (k <? 10)%nat; settle.
Qed.

Lemma check_volume_ratio_acts (ts : list Trade) (deposit : Q) st :
  acts volume_ratio_outcomes st (check_volume_ratio ts deposit st).
Proof.
  unfold check_volume_ratio. destruct ts; [settle |].
  destruct (Qltb 0 deposit); [| settle].
  cbv zeta. destruct (Qltb _ (1 # 10)); [settle |].
  destruct (Qltb _ (5 # 10)); settle.
Qed.

Lemma check_withdrawal_acts now (wd sd : option timestamp) st (n : nat) :
  acts withdrawal_outcomes st (fst (check_withdrawal now wd sd st n)).
Proof.
  unfold check_withdrawal.
  destruct wd as [wd |], sd as [sd |]; unfold ret; cbn [fst]; try settle.
  destruct (truthy (Some wd) && truthy (Some sd)); [| cbn [fst]; settle].
  unfold cbind.
  destruct (parse_timestamp now sd n) as [signup n1].
  destruct (parse_timestamp now wd n1) as [withdrawal n2].
  destruct (dt_sub withdrawal signup); [| cbn [fst]; settle].
  cbv zeta. destruct (_ <=? 3)%Z; [cbn [fst]; settle |].
  destruct (_ <=? 7)%Z; cbn [fst]; settle.
Qed.

Lemma check_balance_ratio_acts (deposit balance : Q) st :
  acts balance_ratio_outcomes st (check_balance_ratio deposit balance st).
Proof.
  unfold check_balance_ratio. destruct (Qltb 0 deposit); [| settle].
  cbv zeta. destruct (Qltb _ (2 # 10)); [settle |].
  destruct (Qltb _ (5 # 10)); settle.
Qed.

Lemma check_active_acts (a : bool) st :
  acts active_outcomes st (check_active a st).
Proof. unfold check_active. destruct (negb a); settle. Qed.

Lemma check_deposit_acts (deposit : Q) st :
  acts deposit_outcomes st (check_deposit deposit st).
Proof. unfold check_deposit. destruct (Qltb deposit 200); settle. Qed.

Lemma acts_both (first second : list outcome) st st' st'' :
  acts first st st' -> acts second st' st'' ->
  acts (both first second) st st''.
Proof.
  intros [a [Ha ->]] [b [Hb ->]]. cbn [fst snd].
  exists ((fst a + fst b)%Z, snd a ++ snd b). split.
  - unfold both. apply in_flat_map. exists a. split; [exact Ha |].
    apply in_map_iff. exists b. now split.
  - cbn [fst snd]. rewrite app_assoc. f_equal. lia.
Qed.

(** The score and the flags that [calculate_client_quality_score] reaches
    are one of the rows of [outcomes]. *)
Lemma quality_outcome now (c : Client) (n : nat) :
  let q := fst (calculate_client_quality_score now c n) in
  exists o, In o outcomes
            /\ quality_score q = Z.max 0 (100 - fst o)
            /\ is_suspicious q = (100 - fst o <? 50)%Z
            /\ flags q = snd o.
Proof.
  unfold calculate_client_quality_score, cbind.
  set (st1 := check_trade_count (length (trades c)) (100%Z, [])).
  set (st2 := check_volume_ratio (trades c) (initial_deposit c) st1).
  pose proof (check_withdrawal_acts now (withdrawal_date c) (signup_date c)
                st2 n) as H3.
  destruct (check_withdrawal now _ _ st2 n) as [st3 n']. cbn [fst] in H3.
  unfold ret. cbn [fst quality_score is_suspicious flags].
  set (st4 := check_balance_ratio (initial_deposit c) (current_balance c) st3).
  set (st5 := check_active (get (is_active c) true) st4).
  set (st6 := check_deposit (initial_deposit c) st5).
  assert (acts outcomes (100%Z, []) st6) as [o [Ho E]].
  { unfold outcomes.
    eapply acts_both; [apply check_trade_count_acts |]. fold st1.
    eapply acts_both; [apply check_volume_ratio_acts |]. fold st2.
    eapply acts_both; [exact H3 |].
    eapply acts_both; [apply check_balance_ratio_acts |]. fold st4.
    eapply acts_both; [apply check_active_acts |]. fold st5.
    apply check_deposit_acts. }
  exists o. rewrite E. cbn [fst snd]. auto.
Qed.

Lemma rows_ok : forallb row_ok outcomes = true.
Proof. vm_compute. reflexivity. Qed.

Lemma row_of_quality now (c : Client) (n : nat) :
  let q := fst (calculate_client_quality_score now c n) in
  exists o, row_ok o = true
            /\ quality_score q = Z.max 0 (100 - fst o)
            /\ is_suspicious q = (100 - fst o <? 50)%Z
            /\ flags q = snd o.
Proof.
  destruct (quality_outcome now c n) as [o [Ho H]]. exists o.
  split; [| exact H].
  pose proof rows_ok as R. rewrite forallb_forall in R. now apply R.
Qed.

(** X19: the flags explain the score: the quality score is 100 minus the
    penalties of the flags returned, clamped at 0; the client is marked
    suspicious exactly when these penalties exceed 50; no flag is returned
    twice, every flag is one of the eleven known ones, and at most six are
    returned. *)
Theorem flags_explain_score :
  forall (now : nat -> Z) (c : Client) (n : nat),
    let q := fst (calculate_client_quality_score now c n) in
    quality_score q = Z.max 0 (100 - penalty_of_flags (flags q))
    /\ (is_suspicious q = true <-> (50 < penalty_of_flags (flags q))%Z)
    /\ NoDup (flags q)
    /\ Forall (fun f => (0 < flag_penalty f)%Z) (flags q)
    /\ (length (flags q) <= 6)%nat.
Proof.
  intros now c n q.
  destruct (row_of_quality now c n) as [o [Hok [Hs [Hf Hfl]]]].
  fold q in Hs, Hf, Hfl. unfold row_ok in Hok.
  apply andb_prop in Hok as [Hok _]. apply andb_prop in Hok as [Hok Hlen].
  apply andb_prop in Hok as [Hok Hknown].
  apply andb_prop in Hok as [Hsum Hnd].
  apply Z.eqb_eq in Hsum. rewrite Hfl, Hsum.
  split; [exact Hs |]. split; [rewrite Hf, Z.ltb_lt; lia |].
  split; [now apply bool_decide_eq_true_1 in Hnd |]. split.
  - apply List.Forall_forall. intros f Hin.
    rewrite forallb_forall in Hknown. now apply Z.ltb_lt, Hknown.
  - now apply Nat.leb_le.
Qed.

Lemma evidence_fallback (c : Client) (q : Quality) :
  silent (flags q) = false ->
  generate_abuse_evidence c q <> []
  /\ ~ In MultipleIndicators (generate_abuse_evidence c q).
Proof.
  unfold silent, generate_abuse_evidence. intros H.
  apply Bool.negb_false_iff in H. cbv zeta.
  destruct (has_flag "no_trading_activity" (flags q)),
    (has_flag "minimal_trading" (flags q)),
    (has_flag "immediate_withdrawal" (flags q)),
    (has_flag "quick_withdrawal" (flags q)),
    (has_flag "most_funds_withdrawn" (flags q)),
    (has_flag "minimal_deposit" (flags q)),
    (has_flag "inactive_account" (flags q));
    try discriminate H; cbn [app];
    (split; [discriminate |]);
    cbn [In]; intros K; repeat destruct K as [K | K];
    try discriminate K; try contradiction.
Qed.

Lemma evidence_silent (c : Client) (q : Quality) :
  silent (flags q) = true -> generate_abuse_evidence c q = [MultipleIndicators].
Proof.
  unfold silent, generate_abuse_evidence. intros H.
  apply Bool.negb_true_iff in H.
  repeat (apply Bool.orb_false_iff in H as [H ?]).
  cbv zeta.
  repeat match goal with
         | E : has_flag _ _ = false |- _ => rewrite E; clear E
         end.
  reflexivity.
Qed.

Lemma map_clocked_all {A B} (P : B -> Prop) (f : A -> Clocked (list B))
  (l : list A) :
  (forall x n, In x l -> Forall P (fst (f x n))) ->
  forall n, Forall P (concat (fst (map_clocked f l n))).
Proof.
  induction l as [| x l IH]; intros Hf n; cbn [map_clocked];
    [constructor |].
  unfold cbind. pose proof (Hf x n (or_introl eq_refl)) as Hx.
  destruct (f x n) as [ys n1]. cbn [fst] in Hx.
  assert (forall y k, In y l -> Forall P (fst (f y k))) as Hf'
    by (intros y k Hy; apply Hf; now right).
  specialize (IH Hf' n1).
  destruct (map_clocked f l n1) as [yss n2].
  unfold ret. cbn [fst concat] in *. apply Forall_app. now split.
Qed.

(** X20: the evidence of a listed client always names a reason: for every
    entry of [detect_bonus_abuse_pattern] the evidence summary is not the
    fallback sentence (the flags without a sentence of their own carry at
    most 35 points, and a listed client has lost more than 50);
    [generate_abuse_evidence] itself returns the fallback exactly when no
    flag has a sentence of its own. *)
Theorem suspicious_evidence_names_a_reason :
  (forall (now : nat -> Z) (clients : list Client) (threshold_score : Z)
          (n : nat),
      Forall (fun e => sc_evidence_summary e <> []
                       /\ ~ In MultipleIndicators (sc_evidence_summary e))
             (fst (detect_bonus_abuse_pattern now clients threshold_score n)))
  /\ forall (c : Client) (q : Quality),
       generate_abuse_evidence c q = [MultipleIndicators]
       <-> silent (flags q) = true.
Proof.
  split.
  2:{ intros c q. split; [| apply evidence_silent].
      intros H. destruct (silent (flags q)) eqn:E; [reflexivity |].
      destruct (evidence_fallback c q E) as [_ Hn]. exfalso. apply Hn.
      rewrite H. now left. }
  intros now clients threshold_score n.
  unfold detect_bonus_abuse_pattern, cbind.
  pose proof (map_clocked_all
                (fun e => sc_evidence_summary e <> []
                          /\ ~ In MultipleIndicators (sc_evidence_summary e))
                (assess_client now) clients) as H.
  destruct (map_clocked (assess_client now) clients n) as [entries n1] eqn:E.
  unfold ret. cbn [fst].
  eapply Permutation_Forall; [symmetry; apply sort_by_perm |].
  replace entries with (fst (map_clocked (assess_client now) clients n))
    by now rewrite E.
  apply H. intros c k _. unfold assess_client, cbind.
  destruct (row_of_quality now c k) as [o [Hok [_ [Hf Hfl]]]].
  destruct (calculate_client_quality_score now c k) as [q k'].
  cbn [fst] in *. destruct (is_suspicious q); unfold ret; cbn [fst];
    [| constructor].
  constructor; [| constructor]. cbn [sc_evidence_summary].
  apply evidence_fallback. rewrite Hfl.
  unfold row_ok in Hok. apply andb_prop in Hok as [_ Hok].
  rewrite <- Hf in Hok. cbn in Hok. now apply Bool.negb_true_iff in Hok.
Qed.

Lemma suspicious_evidence_names_a_reason_witness :
  length (run (detect_bonus_abuse_pattern clock_day_70 [example_client] 50))
  = 1%nat
  /\ Forall (fun e => sc_evidence_summary e <> []
                      /\ ~ In MultipleIndicators (sc_evidence_summary e))
            (run (detect_bonus_abuse_pattern clock_day_70 [example_client]
                                             50)).
Proof.
  split; [vm_compute; reflexivity |].
  apply (proj1 suspicious_evidence_names_a_reason).
Defined.

End FlagFacts.

(* ================================================================== *)
(** * Bonus abuse: the lists and the totals *)
(* ================================================================== *)

Module BonusFindingFacts.
Import BonusAbuse Package BonusInvariants Samples.

Section Clock.
Variable now : nat -> Z.

Lemma check_withdrawal_clock_free (c : Client) st :
  reads_clock c = false ->
  forall n,
    check_withdrawal now (withdrawal_date c) (signup_date c) st n
    = (fst (check_withdrawal now (withdrawal_date c) (signup_date c) st 0%nat),
       n).
Proof.
  intros Hc n. unfold check_withdrawal, reads_clock in *.
  destruct (withdrawal_date c) as [wd |], (signup_date c) as [sd |];
    try reflexivity.
  destruct (truthy (Some wd) && truthy (Some sd)); [| reflexivity].
  destruct wd as [wd |], sd as [sd |]; try discriminate Hc.
  unfold cbind, parse_timestamp, ret.
  destruct (dt_sub wd sd); [| reflexivity].
  cbv zeta. destruct (_ <=? 3)%Z; [reflexivity |].
  destruct (_ <=? 7)%Z; reflexivity.
Qed.

Lemma quality_clock_free (c : Client) :
  reads_clock c = false ->
  forall n,
    calculate_client_quality_score now c n
    = (run (calculate_client_quality_score now c), n).
Proof.
  intros Hc n. unfold run, calculate_client_quality_score, cbind.
  rewrite (check_withdrawal_clock_free c _ Hc n).
  destruct (check_withdrawal now _ _ _ 0%nat) as [st k]. reflexivity.
Qed.

Lemma suspicious_low (c : Client) (n : nat) :
  let q := fst (calculate_client_quality_score now c n) in
  is_suspicious q = (quality_score q <? 50)%Z.
Proof.
  destruct (QualityScoreFacts.raw_score now c n) as [Hs Hf].
  cbv zeta. rewrite Hs, Hf.
  destruct (Z.ltb_spec (100 - ScoreTrace.penalties now c n) 50);
    destruct (Z.ltb_spec
                (Z.max 0 (100 - ScoreTrace.penalties now c n)) 50);
    try reflexivity; lia.
Qed.

Lemma quality_range (c : Client) (n : nat) :
  (0 <= quality_score (fst (calculate_client_quality_score now c n)) <= 100)%Z.
Proof.
  destruct (QualityScoreFacts.raw_score now c n) as [Hs _].
  pose proof (QualityScoreFacts.penalties_nonneg now c n). lia.
Qed.

Lemma assess_client_clock_free (c : Client) :
  reads_clock c = false ->
  forall n,
    assess_client now c n = (run (assess_client now c), n)
    /\ map sc_client_id (run (assess_client now c))
       = map client_id (List.filter (low_quality now) [c]).
Proof.
  intros Hc n. unfold run, assess_client, cbind.
  rewrite (quality_clock_free c Hc n), (quality_clock_free c Hc 0%nat).
  pose proof (suspicious_low c 0%nat) as Hl. cbv zeta in Hl.
  cbn [List.filter]. unfold low_quality.
  fold (run (calculate_client_quality_score now c)) in Hl. rewrite <- Hl.
  destruct (is_suspicious (run (calculate_client_quality_score now c)));
    split; reflexivity.
Qed.

Lemma assess_clients_clock_free (clients : list Client) :
  Forall (fun c => reads_clock c = false) clients ->
  forall n,
    snd (map_clocked (assess_client now) clients n) = n
    /\ map sc_client_id
           (concat (fst (map_clocked (assess_client now) clients n)))
       = map client_id (List.filter (low_quality now) clients).
Proof.
  induction 1 as [| c clients Hc Hall IH]; intros n; cbn [map_clocked].
  - split; reflexivity.
  - unfold cbind.
    destruct (assess_client_clock_free c Hc n) as [-> Hids].
    destruct (IH n) as [Hn Hrest].
    destruct (map_clocked (assess_client now) clients n) as [ess n'].
    unfold ret. cbn [fst snd concat] in *. split; [exact Hn |].
    rewrite map_app, Hids, Hrest.
    cbn [List.filter]. destruct (low_quality now c); reflexivity.
Qed.

Lemma assess_client_short (c : Client) (n : nat) :
  (length (fst (assess_client now c n)) <= 1)%nat.
Proof.
  unfold assess_client, cbind.
  destruct (calculate_client_quality_score now c n) as [q k].
  destruct (is_suspicious q); cbn; lia.
Qed.

Lemma map_clocked_short {A B} (f : A -> Clocked (list B)) (l : list A) :
  (forall x n, (length (fst (f x n)) <= 1)%nat) ->
  forall n, (length (concat (fst (map_clocked f l n))) <= length l)%nat.
Proof.
  intros Hf. induction l as [| x l IH]; intros n; cbn [map_clocked];
    [cbn; lia |].
  unfold cbind. pose proof (Hf x n) as Hx.
  destruct (f x n) as [ys n1]. specialize (IH n1).
  destruct (map_clocked f l n1) as [yss n2].
  unfold ret. cbn [fst concat length] in *. rewrite length_app. lia.
Qed.

Lemma map_clocked_length {A B} (f : A -> Clocked B) (l : list A) :
  forall n, length (fst (map_clocked f l n)) = length l.
Proof.
  induction l as [| x l IH]; intros n; cbn [map_clocked]; [reflexivity |].
  unfold cbind. destruct (f x n) as [y n1]. specialize (IH n1).
  destruct (map_clocked f l n1) as [ys n2].
  unfold ret. cbn [fst length] in *. now rewrite IH.
Qed.

Lemma map_clocked_each {A B} (P : B -> Prop) (f : A -> Clocked B)
  (l : list A) :
  (forall x n, P (fst (f x n))) ->
  forall n, Forall P (fst (map_clocked f l n)).
Proof.
  intros Hf. induction l as [| x l IH]; intros n; cbn [map_clocked];
    [constructor |].
  unfold cbind. pose proof (Hf x n) as Hx.
  destruct (f x n) as [y n1]. specialize (IH n1).
  destruct (map_clocked f l n1) as [ys n2].
  unfold ret. cbn [fst] in *. now constructor.
Qed.
End Clock.

Lemma count_if_le {A} (pred : A -> bool) (xs : list A) :
  (count_if pred xs <= length xs)%nat.
Proof. unfold count_if. apply List.filter_length_le. Qed.

Lemma ratio_unit (k n : nat) :
  (k <= n)%nat -> (1 <= n)%nat ->
  0 <= inject_Z (Z.of_nat k) / inject_Z (Z.of_nat n) <= 1.
Proof.
  intros Hk Hn.
  assert (0 < inject_Z (Z.of_nat n)) as Hpos
    by (change 0 with (inject_Z 0); rewrite <- Zlt_Qlt; lia).
  assert (0 <= inject_Z (Z.of_nat k) <= inject_Z (Z.of_nat n)) as [H0 H1].
  { change 0 with (inject_Z 0). rewrite <- !Zle_Qle. lia. }
  split.
  - apply Qle_shift_div_l; [exact Hpos | lra].
  - apply Qle_shift_div_r; [exact Hpos | lra].
Qed.

Lemma fold_Zadd_bounds (zs : list Z) :
  Forall (fun z => 0 <= z <= 100)%Z zs ->
  forall a, (a <= fold_left Z.add zs a <= a + 100 * Z.of_nat (length zs))%Z.
Proof.
  induction 1 as [| z zs Hz Hall IH]; intros a; cbn [fold_left length].
  - lia.
  - specialize (IH (a + z)%Z). lia.
Qed.

Lemma average_quality_range (qs : list Quality) :
  Forall (fun q => 0 <= quality_score q <= 100)%Z qs ->
  (1 <= length qs)%nat ->
  0 <= inject_Z (fold_left Z.add (map quality_score qs) 0%Z) / Qlen qs
    <= inject_Z 100.
Proof.
  intros Hall Hlen.
  pose proof (fold_Zadd_bounds (map quality_score qs)) as Hs.
  rewrite length_map in Hs.
  specialize (Hs (proj2 (List.Forall_map _ _ _) Hall) 0%Z).
  set (s := fold_left Z.add (map quality_score qs) 0%Z) in *.
  unfold Qlen.
  assert (0 < inject_Z (Z.of_nat (length qs))) as Hpos
    by (change 0 with (inject_Z 0); rewrite <- Zlt_Qlt; lia).
  destruct Hs as [Hs0 Hs1]. rewrite Zle_Qle in Hs0, Hs1.
  rewrite Z.add_0_l, inject_Z_mult in Hs1. change (inject_Z 0) with 0 in Hs0.
  split.
  - apply Qle_shift_div_l; [exact Hpos | lra].
  - apply Qle_shift_div_r; [exact Hpos | lra].
Qed.

Lemma assess_partner_ok now (partners : list Partner) (clients : list Client)
  (p : Partner) (n : nat) :
  In p partners ->
  Forall (partner_entry_ok partners clients)
         (fst (assess_partner now (group_by_partner clients) p n))
  /\ (length (fst (assess_partner now (group_by_partner clients) p n))
      <= 1)%nat.
Proof.
  intros Hp. unfold assess_partner.
  assert (dict_get (partner_id p) [] (group_by_partner clients)
          = referred_to (partner_id p) clients) as ->
    by apply (group_fold_get (partner_id p) clients []).
  destruct (referred_to (partner_id p) clients) as [| c0 cs] eqn:Er;
    [split; [constructor | cbn; lia] |].
  rewrite <- Er. set (L := referred_to (partner_id p) clients) in *.
  assert (1 <= length L)%nat as HL1 by (rewrite Er; cbn; lia).
  unfold cbind.
  pose proof (map_clocked_length (calculate_client_quality_score now) L n)
    as Hlen.
  pose proof (map_clocked_each
                (fun q => 0 <= quality_score q <= 100)%Z
                (calculate_client_quality_score now) L
                (quality_range now) n) as Hrange.
  destruct (map_clocked (calculate_client_quality_score now) L n)
    as [qs n1]. cbn [fst] in Hlen, Hrange.
  destruct (_ || _); [| split; [constructor | cbn; lia]].
  destruct (map_clocked (calculate_client_quality_score now) L n1)
    as [again n2].
  unfold ret. cbn [fst length]. split; [| lia].
  constructor; [| constructor].
  unfold partner_entry_ok.
  cbn [pf_partner_id pf_partner_name pf_partner_type total_referrals
       suspicious_referrals suspicious_ratio avg_client_quality
       conversion_rate pf_evidence_summary].
  unfold generate_partner_evidence. cbn [pe_total pe_suspicious_count].
  fold L.
  assert (count_if is_suspicious qs <= length L)%nat as Hsus
    by (rewrite <- Hlen; apply count_if_le).
  split; [exists p; auto |]. split; [reflexivity |].
  split; [exact HL1 |]. split; [exact Hsus |].
  split; [apply round_ndigits_unit, ratio_unit; assumption |].
  split.
  { change 100 with (inject_Z 100). apply round_ndigits_range.
    apply average_quality_range; [exact Hrange | lia]. }
  split; [| split; reflexivity].
  apply round_ndigits_unit, ratio_unit; [apply count_if_le | exact HL1].
Qed.

Lemma bonus_pattern_lengths now (clients : list Client) (n : nat) :
  (length (fst (detect_bonus_abuse_pattern now clients 50 n))
   <= length clients)%nat.
Proof.
  unfold detect_bonus_abuse_pattern, cbind.
  pose proof (map_clocked_short (assess_client now) clients
                (assess_client_short now) n) as Hlen.
  destruct (map_clocked (assess_client now) clients n) as [entries n1].
  unfold ret. cbn [fst] in *. now rewrite sort_by_length.
Qed.

Lemma assess_partners_lengths now (clients : list Client) (l : list Partner) :
  forall k,
    (length (concat (fst (map_clocked
               (assess_partner now (group_by_partner clients)) l k)))
     <= length l)%nat.
Proof.
  apply map_clocked_short. intros p k.
  apply (assess_partner_ok now [p] clients p k). now left.
Qed.

Lemma partner_lengths now (partners : list Partner) (clients : list Client)
  (n : nat) :
  (length (fst (analyze_partner_referral_quality now partners clients n))
   <= length partners)%nat.
Proof.
  unfold analyze_partner_referral_quality, cbind.
  pose proof (assess_partners_lengths now clients partners n) as Hlen.
  destruct (map_clocked _ partners n) as [entries n1].
  unfold ret. cbn [fst] in *. now rewrite sort_by_length.
Qed.

(** X21: [detect_bonus_abuse_pattern] lists at most one entry per client;
    its [threshold_score] argument has no effect; and when no date fails to
    parse, the clients listed are exactly those whose quality score is
    below 50. *)
Theorem bonus_pattern_lists_low_scores :
  forall (now : nat -> Z) (clients : list Client) (threshold_score : Z)
         (n : nat),
    let found :=
      fst (detect_bonus_abuse_pattern now clients threshold_score n) in
    (length found <= length clients)%nat
    /\ detect_bonus_abuse_pattern now clients threshold_score n
       = detect_bonus_abuse_pattern now clients 50 n
    /\ (Forall (fun c => reads_clock c = false) clients ->
        Permutation (map sc_client_id found)
                    (map client_id (List.filter (low_quality now) clients))).
Proof.
  intros now clients threshold_score n found. subst found.
  unfold detect_bonus_abuse_pattern, cbind.
  pose proof (map_clocked_short (assess_client now) clients
                (assess_client_short now) n) as Hlen.
  pose proof (assess_clients_clock_free now clients) as Hfree.
  destruct (map_clocked (assess_client now) clients n) as [entries n1] eqn:E.
  unfold ret. cbn [fst] in *.
  split; [now rewrite sort_by_length |]. split; [reflexivity |].
  intros Hc. destruct (Hfree Hc n) as [_ Hids]. rewrite E in Hids.
  cbn [fst] in Hids. rewrite <- Hids.
  apply Permutation_map, sort_by_perm.
Qed.

Lemma bonus_pattern_lists_low_scores_witness :
  Permutation
    (map sc_client_id
         (run (detect_bonus_abuse_pattern
                 clock_day_70 [example_client; good_standing None] 70)))
    (map client_id
         (List.filter (low_quality clock_day_70)
                      [example_client; good_standing None]))
  /\ List.filter (low_quality clock_day_70)
                 [example_client; good_standing None]
     = [example_client].
Proof.
  split; [| vm_compute; reflexivity].
  apply (proj2 (proj2 (bonus_pattern_lists_low_scores
                         clock_day_70 [example_client; good_standing None]
                         70 0%nat))).
  repeat constructor.
Defined.

(** X22: every entry of [analyze_partner_referral_quality] belongs to a
    partner of the input that referred at least one client;
    [total_referrals] is the number of clients referred by it,
    [suspicious_referrals] is at most that, the two ratios lie in [0, 1]
    and the average quality in [0, 100]; and there is at most one entry
    per partner given. *)
Theorem partner_findings_describe_referrals :
  forall (now : nat -> Z) (partners : list Partner) (clients : list Client)
         (n : nat),
    let found :=
      fst (analyze_partner_referral_quality now partners clients n) in
    Forall (partner_entry_ok partners clients) found
    /\ (length found <= length partners)%nat.
Proof.
  intros now partners clients n found. subst found.
  split; [| apply partner_lengths].
  unfold analyze_partner_referral_quality, cbind.
  pose proof (FlagFacts.map_clocked_all
                (partner_entry_ok partners clients)
                (assess_partner now (group_by_partner clients)) partners
                (fun p k Hp => proj1 (assess_partner_ok now partners clients
                                        p k Hp)) n) as Hall.
  destruct (map_clocked _ partners n) as [entries n1].
  unfold ret. cbn [fst] in *.
  eapply Permutation_Forall; [symmetry; apply sort_by_perm | exact Hall].
Qed.

Lemma partner_findings_describe_referrals_witness :
  length (run (analyze_partner_referral_quality
                 clock_day_70 (map idle_partner (seq 0 2))
                 (map idle_client (seq 0 2)))) = 2%nat
  /\ Forall (partner_entry_ok (map idle_partner (seq 0 2))
                              (map idle_client (seq 0 2)))
            (run (analyze_partner_referral_quality
                    clock_day_70 (map idle_partner (seq 0 2))
                    (map idle_client (seq 0 2)))).
Proof.
  split; [vm_compute; reflexivity |].
  apply (proj1 (partner_findings_describe_referrals
                  clock_day_70 (map idle_partner (seq 0 2))
                  (map idle_client (seq 0 2)) 0%nat)).
Defined.

(** X23: in the report of [detect_bonus_abuse],
    [total_suspicious_clients] counts all flagged clients, at most one per
    client, while the list itself is cut at 50;
    [total_suspicious_partners] is the length of the partner list, at most
    one per partner given; and the total fraud value is the sum over the
    partners listed. *)
Theorem bonus_report_totals :
  forall (now : nat -> Z) (clients : list Client) (partners : list Partner)
         (n : nat),
    let r := fst (detect_bonus_abuse now clients partners n) in
    (total_suspicious_clients r <= length clients)%nat
    /\ length (suspicious_clients r)
       = Nat.min 50 (total_suspicious_clients r)
    /\ total_suspicious_partners r = length (suspicious_partners r)
    /\ (total_suspicious_partners r <= length partners)%nat
    /\ total_estimated_fraud_value r
       = Qsum (map estimated_fraud_value (suspicious_partners r)).
Proof.
  intros now clients partners n r. subst r. unfold detect_bonus_abuse, cbind.
  pose proof (bonus_pattern_lengths now clients n) as Hc.
  destruct (detect_bonus_abuse_pattern now clients 50 n) as [found n1].
  pose proof (partner_lengths now partners clients n1) as Hp.
  destruct (analyze_partner_referral_quality now partners clients n1)
    as [analysis n2].
  unfold ret.
  cbn [fst total_suspicious_clients suspicious_clients
       total_suspicious_partners suspicious_partners
       total_estimated_fraud_value] in *.
  split; [exact Hc |]. split; [apply length_take |].
  split; [reflexivity |]. split; [exact Hp | reflexivity].
Qed.

End BonusFindingFacts.
